(** * Stock and price synchronisation for the Ozon and Yandex.Market seller APIs

    A shallow embedding of [seller.py] and [market.py].

    The Python code is translated function by function.  Pure helpers
    ([price_conversion], [divide]) become total functions into a result
    type; the reconcilers and the orchestrators, which mutate the shared
    [offer_ids] list and talk to the marketplaces over HTTP, live in a
    small state-and-exception monad over an explicit [world] (object
    store, network oracle, request log, console). *)

From Stdlib Require Import Ascii ZArith Lia.
From stdpp Require Import base option list strings pretty gmap.

(** * Python primitives used by the two scripts *)

Module Py.

(** The exceptions that the scripts can meet.  [SystemError] stands for a
    dangling object reference, which no Python program can produce; it only
    makes the store lookup of the model total. *)
Inductive exn :=
  | ReadTimeout | ConnectionError | HTTPError
  | ValueError | TypeError | AttributeError | SystemError.

(** Result of a computation without side effects. *)
Inductive res (A : Type) :=
  | Ok (a : A)
  | Exc (e : exn).
Arguments Ok {A} a.
Arguments Exc {A} e.

Definition res_bind {A B} (r : res A) (k : A -> res B) : res B :=
  match r with
  | Ok a => k a
  | Exc e => Exc e
  end.

(** The values found in the cells of the inventory sheet: a missing key
    ([dict.get] answers [None]), a text cell, an integer cell.  Cells that
    hold floating-point numbers are outside the model. *)
Inductive value :=
  | VNone
  | VStr (s : string)
  | VInt (z : Z).

(** [str(v)] *)
Definition py_str (v : value) : string :=
  match v with
  | VNone => "None"
  | VStr s => s
  | VInt z => pretty z
  end.

(** Strings are sequences of UTF-8 bytes.  [is_digit] is the class [[0-9]]
    of [re], and the ASCII digits of an [int()] literal. *)
Definition is_digit (c : ascii) : bool :=
  (48 <=? nat_of_ascii c)%nat && (nat_of_ascii c <=? 57)%nat.

(** The white space that [int()] strips around a literal once the literal
    is in ASCII: tab, line feed, vertical tab, form feed, carriage return
    and the blank.  The separators 28..31 are not among them. *)
Definition is_space (c : ascii) : bool :=
  let n := nat_of_ascii c in
  ((9 <=? n)%nat && (n <=? 13)%nat) || (n =? 32)%nat.

Definition digit_value (c : ascii) : Z := Z.of_nat (nat_of_ascii c) - 48.

(** The code points of a string, read from its UTF-8 bytes.  [pending]
    continuation bytes are still due for the code point that is being
    read, [acc] holds its bits so far and [lo] is the least code point that
    may take that many bytes.  [None] stands for bytes that encode no code
    point (a Python string never holds such bytes). *)
Fixpoint code_points (pending : nat) (acc lo : N) (s : string) : list (option N) :=
  match s with
  | EmptyString =>
      match pending with
      | O => []
      | S _ => [None]
      end
  | String b r =>
      let n := N_of_ascii b in
      match pending with
      | O =>
          if (n <? 128)%N then Some n :: code_points 0 0 0 r
          else if (194 <=? n)%N && (n <? 224)%N then code_points 1 (n - 192) 128 r
          else if (224 <=? n)%N && (n <? 240)%N then code_points 2 (n - 224) 2048 r
          else if (240 <=? n)%N && (n <? 245)%N then code_points 3 (n - 240) 65536 r
          else None :: code_points 0 0 0 r
      | S k =>
          if (128 <=? n)%N && (n <? 192)%N then
            let acc := (acc * 64 + (n - 128))%N in
            match k with
            | O =>
                (if (lo <=? acc)%N && (acc <? 1114112)%N
                    && negb ((55296 <=? acc)%N && (acc <? 57344)%N)
                 then Some acc else None) :: code_points 0 0 0 r
            | S _ => code_points k acc lo r
            end
          else None :: code_points 0 0 0 r
      end
  end.

(** White space above the ASCII range, as [str.isspace] knows it. *)
Definition unicode_spaces : list N :=
  [0x85; 0xA0; 0x1680; 0x2000; 0x2001; 0x2002; 0x2003; 0x2004; 0x2005;
   0x2006; 0x2007; 0x2008; 0x2009; 0x200A; 0x2028; 0x2029; 0x202F; 0x205F;
   0x3000]%N.

(** The digit zero of every script with decimal digits above the ASCII
    range; the digits one to nine follow their zero.  The table is that of
    Unicode 14.0, which CPython 3.11 carries. *)
Definition decimal_zeros : list N :=
  [0x660; 0x6F0; 0x7C0; 0x966; 0x9E6; 0xA66; 0xAE6; 0xB66; 0xBE6; 0xC66;
   0xCE6; 0xD66; 0xDE6; 0xE50; 0xED0; 0xF20; 0x1040; 0x1090; 0x17E0;
   0x1810; 0x1946; 0x19D0; 0x1A80; 0x1A90; 0x1B50; 0x1BB0; 0x1C40; 0x1C50;
   0xA620; 0xA8D0; 0xA900; 0xA9D0; 0xA9F0; 0xAA50; 0xABF0; 0xFF10;
   0x104A0; 0x10D30; 0x11066; 0x110F0; 0x11136; 0x111D0; 0x112F0; 0x11450;
   0x114D0; 0x11650; 0x116C0; 0x11730; 0x118E0; 0x11950; 0x11C50; 0x11D50;
   0x11DA0; 0x16A60; 0x16AC0; 0x16B50; 0x1D7CE; 0x1D7D8; 0x1D7E2; 0x1D7EC;
   0x1D7F6; 0x1E140; 0x1E2F0; 0x1E950; 0x1FBF0]%N.

(** The value of a decimal digit above the ASCII range. *)
Definition unicode_decimal (cp : N) : option N :=
  (fun z => (cp - z)%N)
    <$> List.find (fun z => (z <=? cp)%N && (cp <? z + 10)%N) decimal_zeros.

(** What [int()] makes of one code point before it parses: a code point
    below 127 stays, white space above becomes a blank, a decimal digit of
    any script becomes its ASCII digit, and anything else ends the literal
    with a question mark, which no literal holds. *)
Definition ascii_of_code_point (cp : option N) : ascii :=
  match cp with
  | None => "?"
  | Some n =>
      if (n <? 127)%N then ascii_of_N n
      else if bool_decide (n ∈ unicode_spaces) then " "
      else
        match unicode_decimal n with
        | Some d => ascii_of_N (48 + d)
        | None => "?"
        end
  end.

Definition to_ascii_decimal (s : string) : string :=
  String.string_of_list_ascii (map ascii_of_code_point (code_points 0 0 0 s)).

Fixpoint lstrip (s : string) : string :=
  match s with
  | EmptyString => EmptyString
  | String c r => if is_space c then lstrip r else s
  end.

Fixpoint rstrip (s : string) : string :=
  match s with
  | EmptyString => EmptyString
  | String c r =>
      match rstrip r with
      | EmptyString => if is_space c then EmptyString else String c EmptyString
      | r' => String c r'
      end
  end.

(** Digits of a decimal literal; single underscores may separate digits.
    [prev] tells whether the previous character was a digit. *)
Fixpoint parse_digits (acc : Z) (prev : bool) (s : string) : option Z :=
  match s with
  | EmptyString => if prev then Some acc else None
  | String c r =>
      if is_digit c then parse_digits (10 * acc + digit_value c) true r
      else if Ascii.eqb c "_" && prev then parse_digits acc false r
      else None
  end.

(** An optional sign and the digits. *)
Definition parse_literal (t : string) : option Z :=
  match t with
  | String "+" r => parse_digits 0 false r
  | String "-" r => Z.opp <$> parse_digits 0 false r
  | t => parse_digits 0 false t
  end.

(** [int(s)] for a string [s], base 10: the string is brought into ASCII,
    the white space around it is dropped, and what is left is read as a
    literal.  The cap that recent interpreters put on the length of a
    decimal literal is not modelled. *)
Definition int_of_string (s : string) : option Z :=
  parse_literal (rstrip (lstrip (to_ascii_decimal s))).

(** [int(v)] *)
Definition py_int (v : value) : res Z :=
  match v with
  | VNone => Exc TypeError
  | VInt z => Ok z
  | VStr s =>
      match int_of_string s with
      | Some z => Ok z
      | None => Exc ValueError
      end
  end.

(** [s.split(sep)] for a one-character separator. *)
Fixpoint py_split (sep : ascii) (s : string) : list string :=
  match s with
  | EmptyString => [EmptyString]
  | String c r =>
      if Ascii.eqb c sep then EmptyString :: py_split sep r
      else
        match py_split sep r with
        | h :: t => String c h :: t
        | [] => [String c EmptyString]
        end
  end.

(** [re.sub("[^0-9]", "", s)] *)
Fixpoint re_sub_non_digits (s : string) : string :=
  match s with
  | EmptyString => EmptyString
  | String c r =>
      if is_digit c then String c (re_sub_non_digits r)
      else re_sub_non_digits r
  end.

(** [x in l] *)
Definition py_in (x : string) (l : list string) : bool := bool_decide (x ∈ l).

(** [l.remove(x)]: drops the first occurrence. *)
Fixpoint py_remove (x : string) (l : list string) : res (list string) :=
  match l with
  | [] => Exc ValueError
  | y :: r =>
      if bool_decide (y = x) then Ok r
      else res_bind (py_remove x r) (fun r' => Ok (y :: r'))
  end.

(** Number of elements of [range(start, stop, step)], [step <> 0]. *)
Definition range_len (start stop step : Z) : nat :=
  if (0 <? step)%Z then
    if (start <? stop)%Z then Z.to_nat ((stop - start - 1) / step + 1) else 0
  else
    if (stop <? start)%Z then Z.to_nat ((start - stop - 1) / (- step) + 1) else 0.

(** [list(range(start, stop, step))] *)
Definition py_range (start stop step : Z) : res (list Z) :=
  if (step =? 0)%Z then Exc ValueError
  else Ok (map (fun k => (start + Z.of_nat k * step)%Z)
               (seq 0 (range_len start stop step))).

(** Bound of a slice: negative bounds count from the end, and every bound
    is clamped to the list. *)
Definition slice_bound (len k : Z) : Z :=
  if (k <? 0)%Z then Z.max (k + len) 0 else Z.min k len.

(** [l[i:j]] *)
Definition py_slice {A} (l : list A) (i j : Z) : list A :=
  let len := Z.of_nat (length l) in
  let lo := slice_bound len i in
  let hi := slice_bound len j in
  take (Z.to_nat (hi - lo)) (drop (Z.to_nat lo) l).

End Py.

Import Py.

(** * Data on the wire *)

(** One row of the inventory sheet ([watch_remnants] holds these): the
    columns [Код], [Количество] and [Цена], each read with [dict.get]. *)
Record watch := {
  kod : value;
  kolichestvo : value;
  tsena : value;
}.

(** Ozon: an entry of the [stocks] payload. *)
Record ozon_stock := {
  offer_id : string;
  stock : Z;
}.

(** Ozon: an entry of the [prices] payload. *)
Record ozon_price := {
  auto_action_enabled : string;
  currency_code : string;
  price_offer_id : string;
  old_price : string;
  price : string;
}.

(** Ozon: one page of [/v2/product/list]; only [offer_id] of an item is read. *)
Record ozon_page := {
  items : list string;
  total : Z;
  last_id : string;
}.

(** Yandex.Market: an entry of the [skus] payload with its single item. *)
Record market_item := {
  count : Z;
  item_type : string;
  updatedAt : string;
}.

Record market_stock := {
  sku : string;
  warehouseId : string;
  stock_items : list market_item;
}.

(** Yandex.Market: an entry of the [offers] payload. *)
Record market_price := {
  id : string;
  price_value : Z;
  currencyId : string;
}.

(** Yandex.Market: one page of [offer-mapping-entries]; only
    [offer.shopSku] of an entry and [paging.nextPageToken] are read. *)
Record market_page := {
  offerMappingEntries : list string;
  nextPageToken : option string;
}.

(** The HTTP calls of the two scripts, with the credentials they carry. *)
Inductive request :=
  | OzonProductList (client_id seller_token last : string)
  | OzonImportStocks (client_id seller_token : string) (stocks : list ozon_stock)
  | OzonImportPrices (client_id seller_token : string) (prices : list ozon_price)
  | MarketOfferMapping (campaign_id access_token page : string)
  | MarketPutStocks (campaign_id access_token : string) (skus : list market_stock)
  | MarketPriceUpdates (campaign_id access_token : string) (offers : list market_price).

(** What comes back: a transport failure or an error status (raised by
    [raise_for_status]), or the [result] of the decoded JSON body. *)
Inductive response :=
  | Failed (e : exn)
  | OzonProducts (p : ozon_page)
  | MarketOffers (p : market_page)
  | Status.

(** * The world and the monad of the scripts *)

(** [heap] holds the list objects that are shared by reference (the
    [offer_ids] lists); [net] answers the k-th HTTP exchange of the run;
    [exchanges] logs the requests sent, oldest first; [ostatki] is the
    content of the sheet behind [download_stock]; [utcnow] is the clock
    reading; [console] collects the lines that are printed; [error_text]
    is [str(error)] of the exception that a handler of the run gets, a text
    made by the library that raises it. *)
Record world := {
  heap : gmap nat (list string);
  next_loc : nat;
  net : nat -> request -> response;
  exchanges : list request;
  ostatki : list watch;
  utcnow : string;
  console : list string;
  error_text : exn -> string;
}.

Inductive outcome (A : Type) :=
  | Ret (a : A)
  | Raise (e : exn)
  | OutOfFuel.
Arguments Ret {A} a.
Arguments Raise {A} e.
Arguments OutOfFuel {A}.

Definition M (A : Type) : Type := world -> outcome A * world.

Definition ret {A} (a : A) : M A := fun w => (Ret a, w).

Definition bind {A B} (c : M A) (k : A -> M B) : M B :=
  fun w =>
    match c w with
    | (Ret a, w') => k a w'
    | (Raise e, w') => (Raise e, w')
    | (OutOfFuel, w') => (OutOfFuel, w')
    end.

Notation "x <- c ;; k" := (bind c (fun x => k))
  (at level 20, c at level 99, k at level 200, only parsing).
Notation "c ;;; k" := (bind c (fun _ => k))
  (at level 20, k at level 200, only parsing).

Definition raise {A} (e : exn) : M A := fun w => (Raise e, w).

Definition out_of_fuel {A} : M A := fun w => (OutOfFuel, w).

Definition lift {A} (r : res A) : M A :=
  match r with
  | Ok a => ret a
  | Exc e => raise e
  end.

(** [try: c  except ...: h] where the handlers cover every exception. *)
Definition catch {A} (c : M A) (h : exn -> M A) : M A :=
  fun w =>
    match c w with
    | (Raise e, w') => h e w'
    | r => r
    end.

Definition set_heap (h : gmap nat (list string)) (w : world) : world :=
  {| heap := h; next_loc := next_loc w; net := net w;
     exchanges := exchanges w; ostatki := ostatki w; utcnow := utcnow w;
     console := console w;
        error_text := error_text w |}.

(** A new list object. *)
Definition alloc (l : list string) : M nat :=
  fun w =>
    (Ret (next_loc w),
     {| heap := <[next_loc w := l]> (heap w); next_loc := S (next_loc w);
        net := net w; exchanges := exchanges w; ostatki := ostatki w;
        utcnow := utcnow w; console := console w;
        error_text := error_text w |}).

Definition load (r : nat) : M (list string) :=
  fun w =>
    match heap w !! r with
    | Some l => (Ret l, w)
    | None => (Raise SystemError, w)
    end.

Definition store (r : nat) (l : list string) : M unit :=
  fun w => (Ret tt, set_heap (<[r := l]> (heap w)) w).

(** One HTTP exchange followed by [raise_for_status]. *)
Definition http (q : request) : M response :=
  fun w =>
    let w' :=
      {| heap := heap w; next_loc := next_loc w; net := net w;
         exchanges := exchanges w ++ [q]; ostatki := ostatki w;
         utcnow := utcnow w; console := console w;
        error_text := error_text w |} in
    match net w (length (exchanges w)) q with
    | Failed e => (Raise e, w')
    | a => (Ret a, w')
    end.

Definition print (msg : string) : M unit :=
  fun w =>
    (Ret tt,
     {| heap := heap w; next_loc := next_loc w; net := net w;
        exchanges := exchanges w; ostatki := ostatki w; utcnow := utcnow w;
        console := console w ++ [msg];
        error_text := error_text w |}).

(** [for x in l: body(x)] *)
Fixpoint for_each {A} (l : list A) (body : A -> M unit) : M unit :=
  match l with
  | [] => ret tt
  | x :: r => body x ;;; for_each r body
  end.

(** Calling an [async def] function runs nothing: it answers a coroutine
    object that holds the body, which runs only when it is awaited. *)
Inductive coroutine (A : Type) :=
  | Coroutine (body : M A).
Arguments Coroutine {A} body.

Definition await {A} (c : coroutine A) : M A :=
  match c with
  | Coroutine body => body
  end.

(** * seller.py *)

Module Seller.

(** [get_product_list]: the [result] object of one page of the listing. *)
Definition get_product_list (last client_id seller_token : string) : M ozon_page :=
  a <- http (OzonProductList client_id seller_token last) ;;
  match a with
  | OzonProducts p => ret p
  | _ => raise AttributeError
  end.

(** The [while True] loop of [get_offer_ids]; [fuel] bounds the number of
    iterations that the model follows. *)
Fixpoint get_offer_ids_loop (fuel : nat) (client_id seller_token last : string)
    (product_list : list string) : M (list string) :=
  match fuel with
  | O => out_of_fuel
  | S fuel' =>
      some_prod <- get_product_list last client_id seller_token ;;
      let product_list := product_list ++ items some_prod in
      if (total some_prod =? Z.of_nat (length product_list))%Z
      then ret product_list
      else get_offer_ids_loop fuel' client_id seller_token
             (last_id some_prod) product_list
  end.

(** [get_offer_ids] answers a new list object with the offer ids. *)
Definition get_offer_ids (fuel : nat) (client_id seller_token : string) : M nat :=
  product_list <- get_offer_ids_loop fuel client_id seller_token "" [] ;;
  alloc product_list.

Definition update_price (prices : list ozon_price) (client_id seller_token : string)
    : M unit :=
  http (OzonImportPrices client_id seller_token prices) ;;; ret tt.

Definition update_stocks (stocks : list ozon_stock) (client_id seller_token : string)
    : M unit :=
  http (OzonImportStocks client_id seller_token stocks) ;;; ret tt.

(** [download_stock]: the archive and the spreadsheet are outside the
    model; the rows come from the world. *)
Definition download_stock : M (list watch) :=
  fun w => (Ret (ostatki w), w).

(** The stock of a matched row: [">10"] is 100, ["1"] is 0, anything else
    goes through [int()]. *)
Definition resolve_stock (watch : watch) : res Z :=
  let count := py_str (kolichestvo watch) in
  if String.eqb count ">10" then Ok 100%Z
  else if String.eqb count "1" then Ok 0%Z
  else py_int (kolichestvo watch).

(** First loop of [create_stocks]; [offer_ids] refers to the caller's list,
    which [remove] changes in place. *)
Fixpoint create_stocks_loop (watch_remnants : list watch) (offer_ids : nat)
    (stocks : list ozon_stock) : M (list ozon_stock) :=
  match watch_remnants with
  | [] => ret stocks
  | watch :: rest =>
      ids <- load offer_ids ;;
      if py_in (py_str (kod watch)) ids then
        stock <- lift (resolve_stock watch) ;;
        let stocks :=
          stocks ++ [{| offer_id := py_str (kod watch); stock := stock |}] in
        ids <- load offer_ids ;;
        ids' <- lift (py_remove (py_str (kod watch)) ids) ;;
        store offer_ids ids' ;;;
        create_stocks_loop rest offer_ids stocks
      else create_stocks_loop rest offer_ids stocks
  end.

Definition create_stocks (watch_remnants : list watch) (offer_ids : nat)
    : M (list ozon_stock) :=
  stocks <- create_stocks_loop watch_remnants offer_ids [] ;;
  ids <- load offer_ids ;;
  ret (stocks ++ map (fun o => {| offer_id := o; stock := 0 |}) ids).

(** [price_conversion]: [re.sub("[^0-9]", "", price.split(".")[0])].
    [split] never answers an empty list, so element 0 exists. *)
Definition price_conversion (price : string) : string :=
  match py_split "." price with
  | first :: _ => re_sub_non_digits first
  | [] => EmptyString
  end.

(** [price_conversion] applied to a cell: only a string has [split]. *)
Definition price_conversion_value (v : value) : res string :=
  match v with
  | VStr s => Ok (price_conversion s)
  | _ => Exc AttributeError
  end.

Fixpoint create_prices_loop (watch_remnants : list watch) (offer_ids : nat)
    (prices : list ozon_price) : M (list ozon_price) :=
  match watch_remnants with
  | [] => ret prices
  | watch :: rest =>
      ids <- load offer_ids ;;
      if py_in (py_str (kod watch)) ids then
        p <- lift (price_conversion_value (tsena watch)) ;;
        create_prices_loop rest offer_ids
          (prices ++ [{| auto_action_enabled := "UNKNOWN";
                         currency_code := "RUB";
                         price_offer_id := py_str (kod watch);
                         old_price := "0";
                         price := p |}])
      else create_prices_loop rest offer_ids prices
  end.

Definition create_prices (watch_remnants : list watch) (offer_ids : nat)
    : M (list ozon_price) :=
  create_prices_loop watch_remnants offer_ids [].

(** [divide], as consumed by [list(divide(lst, n))]: the generator walks
    [range(0, len(lst), n)] and yields [lst[i : i + n]]. *)
Definition divide {A} (lst : list A) (n : Z) : res (list (list A)) :=
  res_bind (py_range 0 (Z.of_nat (length lst)) n)
    (fun idx => Ok (map (fun i => py_slice lst i (i + n)) idx)).

Definition upload_prices_body (fuel : nat) (watch_remnants : list watch)
    (client_id seller_token : string) : M (list ozon_price) :=
  offer_ids <- get_offer_ids fuel client_id seller_token ;;
  prices <- create_prices watch_remnants offer_ids ;;
  chunks <- lift (divide prices 1000) ;;
  for_each chunks (fun some_price => update_price some_price client_id seller_token) ;;;
  ret prices.

(** [async def upload_prices] *)
Definition upload_prices (fuel : nat) (watch_remnants : list watch)
    (client_id seller_token : string) : M (coroutine (list ozon_price)) :=
  ret (Coroutine (upload_prices_body fuel watch_remnants client_id seller_token)).

Definition upload_stocks_body (fuel : nat) (watch_remnants : list watch)
    (client_id seller_token : string) : M (list ozon_stock * list ozon_stock) :=
  offer_ids <- get_offer_ids fuel client_id seller_token ;;
  stocks <- create_stocks watch_remnants offer_ids ;;
  chunks <- lift (divide stocks 100) ;;
  for_each chunks (fun some_stock => update_stocks some_stock client_id seller_token) ;;;
  let not_empty := List.filter (fun s => negb (stock s =? 0)%Z) stocks in
  ret (not_empty, stocks).

(** [async def upload_stocks] *)
Definition upload_stocks (fuel : nat) (watch_remnants : list watch)
    (client_id seller_token : string)
    : M (coroutine (list ozon_stock * list ozon_stock)) :=
  ret (Coroutine (upload_stocks_body fuel watch_remnants client_id seller_token)).

(** [print(error, msg)]: the text of the exception, a blank and [msg] make
    one line. *)
Definition print_error (e : exn) (msg : string) : M unit :=
  fun w => print (error_text w e +:+ " " +:+ msg) w.

(** The handlers of [main]: every exception ends in a printed line.  The
    first handler prints its message alone, the other two print the
    exception before it. *)
Definition report (e : exn) : M unit :=
  match e with
  | ReadTimeout => print "Превышено время ожидания..."
  | ConnectionError => print_error e "Ошибка соединения"
  | _ => print_error e "ERROR_2"
  end.

(** [main]; [client_id] and [seller_token] come from the environment. *)
Definition main (fuel : nat) (client_id seller_token : string) : M unit :=
  catch
    (offer_ids <- get_offer_ids fuel client_id seller_token ;;
     watch_remnants <- download_stock ;;
     stocks <- create_stocks watch_remnants offer_ids ;;
     chunks <- lift (divide stocks 100) ;;
     for_each chunks
       (fun some_stock => update_stocks some_stock client_id seller_token) ;;;
     prices <- create_prices watch_remnants offer_ids ;;
     chunks <- lift (divide prices 900) ;;
     for_each chunks
       (fun some_price => update_price some_price client_id seller_token))
    report.

End Seller.

(** * market.py *)

Module Market.

Definition get_product_list (page campaign_id access_token : string) : M market_page :=
  a <- http (MarketOfferMapping campaign_id access_token page) ;;
  match a with
  | MarketOffers p => ret p
  | _ => raise AttributeError
  end.

Definition update_stocks (stocks : list market_stock) (campaign_id access_token : string)
    : M unit :=
  http (MarketPutStocks campaign_id access_token stocks) ;;; ret tt.

Definition update_price (prices : list market_price) (campaign_id access_token : string)
    : M unit :=
  http (MarketPriceUpdates campaign_id access_token prices) ;;; ret tt.

(** The [while True] loop of [get_offer_ids]: it stops on a page whose
    [nextPageToken] is absent or empty. *)
Fixpoint get_offer_ids_loop (fuel : nat) (campaign_id market_token page : string)
    (product_list : list string) : M (list string) :=
  match fuel with
  | O => out_of_fuel
  | S fuel' =>
      some_prod <- get_product_list page campaign_id market_token ;;
      let product_list := product_list ++ offerMappingEntries some_prod in
      match nextPageToken some_prod with
      | None => ret product_list
      | Some page' =>
          if String.eqb page' "" then ret product_list
          else get_offer_ids_loop fuel' campaign_id market_token page' product_list
      end
  end.

Definition get_offer_ids (fuel : nat) (campaign_id market_token : string) : M nat :=
  product_list <- get_offer_ids_loop fuel campaign_id market_token "" [] ;;
  alloc product_list.

Definition stock_entry (code warehouse_id : string) (stock : Z) (date : string)
    : market_stock :=
  {| sku := code; warehouseId := warehouse_id;
     stock_items := [{| count := stock; item_type := "FIT"; updatedAt := date |}] |}.

Fixpoint create_stocks_loop (watch_remnants : list watch) (offer_ids : nat)
    (warehouse_id date : string) (stocks : list market_stock)
    : M (list market_stock) :=
  match watch_remnants with
  | [] => ret stocks
  | watch :: rest =>
      ids <- load offer_ids ;;
      if py_in (py_str (kod watch)) ids then
        stock <- lift (Seller.resolve_stock watch) ;;
        let stocks :=
          stocks ++ [stock_entry (py_str (kod watch)) warehouse_id stock date] in
        ids <- load offer_ids ;;
        ids' <- lift (py_remove (py_str (kod watch)) ids) ;;
        store offer_ids ids' ;;;
        create_stocks_loop rest offer_ids warehouse_id date stocks
      else create_stocks_loop rest offer_ids warehouse_id date stocks
  end.

Definition create_stocks (watch_remnants : list watch) (offer_ids : nat)
    (warehouse_id : string) : M (list market_stock) :=
  date <- (fun w => (Ret (utcnow w), w)) ;;
  stocks <- create_stocks_loop watch_remnants offer_ids warehouse_id date [] ;;
  ids <- load offer_ids ;;
  ret (stocks ++ map (fun o => stock_entry o warehouse_id 0 date) ids).

(** The price of a matched row: [int(price_conversion(watch.get("Цена")))]. *)
Definition resolve_price (watch : watch) : res Z :=
  res_bind (Seller.price_conversion_value (tsena watch))
    (fun p => py_int (VStr p)).

Fixpoint create_prices_loop (watch_remnants : list watch) (offer_ids : nat)
    (prices : list market_price) : M (list market_price) :=
  match watch_remnants with
  | [] => ret prices
  | watch :: rest =>
      ids <- load offer_ids ;;
      if py_in (py_str (kod watch)) ids then
        v <- lift (resolve_price watch) ;;
        create_prices_loop rest offer_ids
          (prices ++ [{| id := py_str (kod watch); price_value := v;
                         currencyId := "RUR" |}])
      else create_prices_loop rest offer_ids prices
  end.

Definition create_prices (watch_remnants : list watch) (offer_ids : nat)
    : M (list market_price) :=
  create_prices_loop watch_remnants offer_ids [].

Definition upload_prices_body (fuel : nat) (watch_remnants : list watch)
    (campaign_id market_token : string) : M (list market_price) :=
  offer_ids <- get_offer_ids fuel campaign_id market_token ;;
  prices <- create_prices watch_remnants offer_ids ;;
  chunks <- lift (Seller.divide prices 500) ;;
  for_each chunks (fun some_prices => update_price some_prices campaign_id market_token) ;;;
  ret prices.

(** [async def upload_prices] *)
Definition upload_prices (fuel : nat) (watch_remnants : list watch)
    (campaign_id market_token : string) : M (coroutine (list market_price)) :=
  ret (Coroutine (upload_prices_body fuel watch_remnants campaign_id market_token)).

Definition upload_stocks_body (fuel : nat) (watch_remnants : list watch)
    (campaign_id market_token warehouse_id : string)
    : M (list market_stock * list market_stock) :=
  offer_ids <- get_offer_ids fuel campaign_id market_token ;;
  stocks <- create_stocks watch_remnants offer_ids warehouse_id ;;
  chunks <- lift (Seller.divide stocks 2000) ;;
  for_each chunks (fun some_stock => update_stocks some_stock campaign_id market_token) ;;;
  let not_empty :=
    List.filter (fun s => match stock_items s with
                          | it :: _ => negb (count it =? 0)%Z
                          | [] => false
                          end) stocks in
  ret (not_empty, stocks).

(** [async def upload_stocks] *)
Definition upload_stocks (fuel : nat) (watch_remnants : list watch)
    (campaign_id market_token warehouse_id : string)
    : M (coroutine (list market_stock * list market_stock)) :=
  ret (Coroutine
         (upload_stocks_body fuel watch_remnants campaign_id market_token warehouse_id)).

(** The settings that [main] reads from the environment. *)
Record settings := {
  market_token : string;
  campaign_fbs_id : string;
  campaign_dbs_id : string;
  warehouse_fbs_id : string;
  warehouse_dbs_id : string;
}.

(** [main].  The two calls of [upload_prices] are not awaited: each makes
    a coroutine object that is dropped. *)
Definition main (fuel : nat) (env : settings) : M unit :=
  watch_remnants <- Seller.download_stock ;;
  catch
    (offer_ids <- get_offer_ids fuel (campaign_fbs_id env) (market_token env) ;;
     stocks <- create_stocks watch_remnants offer_ids (warehouse_fbs_id env) ;;
     chunks <- lift (Seller.divide stocks 2000) ;;
     for_each chunks
       (fun some_stock => update_stocks some_stock (campaign_fbs_id env) (market_token env)) ;;;
     upload_prices fuel watch_remnants (campaign_fbs_id env) (market_token env) ;;;
     offer_ids <- get_offer_ids fuel (campaign_dbs_id env) (market_token env) ;;
     stocks <- create_stocks watch_remnants offer_ids (warehouse_dbs_id env) ;;
     chunks <- lift (Seller.divide stocks 2000) ;;
     for_each chunks
       (fun some_stock => update_stocks some_stock (campaign_dbs_id env) (market_token env)) ;;;
     upload_prices fuel watch_remnants (campaign_dbs_id env) (market_token env) ;;;
     ret tt)
    Seller.report.

End Market.

(** * Reference definitions, written after the specification *)

(** The ten decimal digits. *)
Definition decimal_digits : list ascii :=
  ["0"; "1"; "2"; "3"; "4"; "5"; "6"; "7"; "8"; "9"]%char.

Definition chars (s : string) : list ascii := String.list_ascii_of_string s.

(** The code of a row, as the reconcilers compare it. *)
Definition code (row : watch) : string := py_str (kod row).

(** First match wins: of the rows that carry the same code only the first
    one is kept. *)
Fixpoint first_by_code (inventory : list watch) : list watch :=
  match inventory with
  | [] => []
  | row :: rest => row :: filter (λ r, code r ≠ code row) (first_by_code rest)
  end.

(** The rows that are matched to a known offer id, in scan order. *)
Definition matched_rows (inventory : list watch) (ids : list string) : list watch :=
  filter (λ row, code row ∈ ids) (first_by_code inventory).

(** The known offer ids that no row matches, in catalog order. *)
Definition leftover_ids (inventory : list watch) (ids : list string) : list string :=
  filter (λ o, o ∉ map code inventory) ids.

(** An Ozon stock entry in the Yandex.Market shape. *)
Definition to_market (warehouse_id date : string) (s : ozon_stock) : market_stock :=
  Market.stock_entry (offer_id s) warehouse_id (stock s) date.

(** The stock entries of a list of rows; the first quantity that does not
    resolve decides the exception. *)
Fixpoint stock_entries (rows : list watch) : res (list ozon_stock) :=
  match rows with
  | [] => Ok []
  | row :: rest =>
      res_bind (Seller.resolve_stock row) (λ z,
        res_bind (stock_entries rest) (λ entries,
          Ok ({| offer_id := code row; stock := z |} :: entries)))
  end.

(** Maps a fallible function over a list; the first failure decides. *)
Fixpoint traverse {A B} (f : A → res B) (l : list A) : res (list B) :=
  match l with
  | [] => Ok []
  | x :: r => res_bind (f x) (λ y, res_bind (traverse f r) (λ ys, Ok (y :: ys)))
  end.

(** The price entry of a row, for Ozon and for Yandex.Market. *)
Definition ozon_price_of (row : watch) : res ozon_price :=
  res_bind (Seller.price_conversion_value (tsena row)) (λ p,
    Ok {| auto_action_enabled := "UNKNOWN"; currency_code := "RUB";
          price_offer_id := code row; old_price := "0"; price := p |}).

Definition market_price_of (row : watch) : res market_price :=
  res_bind (Market.resolve_price row) (λ v,
    Ok {| id := code row; price_value := v; currencyId := "RUR" |}).

(** ** The pages of the Ozon listing, as one run meets them *)

(** The cursor that the client sends with its [i]-th request: empty at
    first, then the [last_id] of the page before. *)
Definition cursor (pages : nat → ozon_page) (i : nat) : string :=
  match i with
  | O => ""
  | S j => last_id (pages j)
  end.

(** From the world [w], in which the client is about to ask for page [i],
    the server answers every later request of the client with the page of
    its rank. *)
Definition serves (w : world) (client_id seller_token : string)
    (pages : nat → ozon_page) (i : nat) : Prop :=
  ∀ j, net w (length (exchanges w) + j)
         (OzonProductList client_id seller_token (cursor pages (i + j)))
       = OzonProducts (pages (i + j)).

(** The offer ids of the first [n] pages. *)
Definition accumulated (pages : nat → ozon_page) (n : nat) : list string :=
  concat (map (λ i, items (pages i)) (seq 0 n)).

(** The exit test of the loop holds at the end of page [n]. *)
Definition stops_at (pages : nat → ozon_page) (n : nat) : Prop :=
  total (pages n) = Z.of_nat (length (accumulated pages (S n))).

#[global] Instance stops_at_dec (pages : nat → ozon_page) (n : nat) :
  Decision (stops_at pages n).
Proof. unfold stops_at. apply _. Defined.

(** ** A small run: two rows in the sheet, three offers in each catalog *)

Definition demo_inventory : list watch :=
  [ {| kod := VStr "A1"; kolichestvo := VStr ">10"; tsena := VStr "100.00 r" |};
    {| kod := VStr "B2"; kolichestvo := VStr "1"; tsena := VStr "200.00 r" |} ].

Definition demo_catalog : list string := ["A1"; "B2"; "C3"].

(** Both listings answer with the whole catalog in one page; every update
    is accepted. *)
Definition demo_net (k : nat) (q : request) : response :=
  match q with
  | OzonProductList _ _ _ =>
      OzonProducts {| items := demo_catalog; total := 3; last_id := "C3" |}
  | MarketOfferMapping _ _ _ =>
      MarketOffers {| offerMappingEntries := demo_catalog; nextPageToken := None |}
  | _ => Status
  end.

(** The texts of the exceptions in the small runs. *)
Definition demo_error_text (e : exn) : string :=
  match e with
  | ReadTimeout => "Read timed out."
  | ConnectionError => "Network is unreachable"
  | HTTPError => "403 Client Error: Forbidden"
  | _ => "unexpected"
  end.

Definition demo_world : world :=
  {| heap := ∅; next_loc := 0; net := demo_net; exchanges := [];
     ostatki := demo_inventory; utcnow := "2024-03-12T10:00:00Z";
     console := [];
     error_text := demo_error_text |}.

(** The world in which object 0 is the list [ids]. *)
Definition demo_world_with (ids : list string) : world :=
  set_heap (<[0 := ids]> ∅) demo_world.

Definition demo_settings : Market.settings :=
  {| Market.market_token := "token"; Market.campaign_fbs_id := "fbs";
     Market.campaign_dbs_id := "dbs"; Market.warehouse_fbs_id := "w-fbs";
     Market.warehouse_dbs_id := "w-dbs" |}.

(** A listing that reports three products and hands out two per page,
    whatever the cursor: the count of gathered items goes 2, 4, 6, ... *)
Definition overshoot_page : ozon_page :=
  {| items := ["A1"; "B2"]; total := 3; last_id := "B2" |}.

Definition overshoot_world : world :=
  {| heap := ∅; next_loc := 0;
     net := λ _ q, match q with
                   | OzonProductList _ _ _ => OzonProducts overshoot_page
                   | _ => Status
                   end;
     exchanges := []; ostatki := demo_inventory;
     utcnow := "2024-03-12T10:00:00Z"; console := [];
     error_text := demo_error_text |}.

(** Requests that update prices. *)
Definition is_price_update (q : request) : bool :=
  match q with
  | OzonImportPrices _ _ _ | MarketPriceUpdates _ _ _ => true
  | _ => false
  end.

(** A computation that sends no price update: it keeps the log free of
    them. *)
Definition quiet {A} (c : M A) : Prop :=
  ∀ w, Forall (λ q, is_price_update q = false) (exchanges w) →
       Forall (λ q, is_price_update q = false) (exchanges (c w).2).

(** A computation that leaves the object store as it is. *)
Definition keeps_heap {A} (c : M A) : Prop :=
  ∀ w, heap (c w).2 = heap w.

(** ** Decimal numerals *)

(** The number that a string of decimal digits denotes. *)
Definition decimal_value (s : string) : Z :=
  fold_left (λ acc c, (10 * acc + digit_value c)%Z) (chars s) 0%Z.

(** ** The integer literals of Python *)

(** The white space that may surround a literal: blank, tab, line feed,
    vertical tab, form feed and carriage return. *)
Definition blank_chars : list ascii :=
  [" "; "009"; "010"; "011"; "012"; "013"]%char.

Definition blanks (s : string) : Prop :=
  Forall (λ c, c ∈ blank_chars) (chars s).

(** [numeral s n]: the string [s] is made of decimal digits, with single
    underscores allowed between two digits, and denotes the number [n]. *)
Inductive numeral : string → Z → Prop :=
  | numeral_digit (d : ascii) :
      d ∈ decimal_digits → numeral (String d "") (digit_value d)
  | numeral_next (s : string) (n : Z) (d : ascii) :
      numeral s n → d ∈ decimal_digits →
      numeral (s +:+ String d "") (10 * n + digit_value d)
  | numeral_underscore (s : string) (n : Z) (d : ascii) :
      numeral s n → d ∈ decimal_digits →
      numeral (s +:+ String "_" (String d "")) (10 * n + digit_value d).

(** A numeral after an optional sign. *)
Inductive signed_numeral : string → Z → Prop :=
  | signed_plain (s : string) (n : Z) :
      numeral s n → signed_numeral s n
  | signed_plus (s : string) (n : Z) :
      numeral s n → signed_numeral (String "+" s) n
  | signed_minus (s : string) (n : Z) :
      numeral s n → signed_numeral (String "-" s) (- n).

(** [int_literal t z]: the ASCII text [t] is a signed numeral between
    white space, and denotes the integer [z]. *)
Definition int_literal (t : string) (z : Z) : Prop :=
  ∃ lead body trail,
    t = lead +:+ body +:+ trail
    ∧ blanks lead ∧ blanks trail ∧ signed_numeral body z.

(** A sheet with quantities of every kind, and its catalog. *)
Definition literal_inventory : list watch :=
  [ {| kod := VStr "A1"; kolichestvo := VStr ">10"; tsena := VStr "100.00 r" |};
    {| kod := VStr "B2"; kolichestvo := VStr "1"; tsena := VStr "200.00 r" |};
    {| kod := VStr "C3";
       kolichestvo := VStr (String "194"%char (String "160"%char "٣٤ "));
       tsena := VStr "300" |};
    {| kod := VStr "D4"; kolichestvo := VStr "-1_0"; tsena := VStr "400" |};
    {| kod := VStr "E5"; kolichestvo := VStr (String "028"%char "5");
       tsena := VStr "500" |} ].

Definition literal_catalog : list string := ["A1"; "B2"; "C3"; "D4"; "E5"; "F6"].

(** ** A run with a refused batch: 150 offers, the third exchange fails *)

Definition big_catalog : list string := map (λ n : nat, pretty n) (seq 0 150).

Definition refusing_net (k : nat) (q : request) : response :=
  match q with
  | OzonProductList _ _ _ =>
      OzonProducts {| items := big_catalog; total := 150; last_id := "149" |}
  | MarketOfferMapping _ _ _ =>
      MarketOffers {| offerMappingEntries := big_catalog; nextPageToken := None |}
  | _ => if decide (k = 2) then Failed HTTPError else Status
  end.

Definition refusing_world : world :=
  {| heap := ∅; next_loc := 0; net := refusing_net; exchanges := [];
     ostatki := []; utcnow := "2024-03-12T10:00:00Z"; console := [];
     error_text := demo_error_text |}.

(** ** The pages of the Yandex.Market listing, as one run meets them *)

(** The page token that the client sends with its [i]-th request: empty at
    first, then the [nextPageToken] of the page before. *)
Definition market_cursor (pages : nat → market_page) (i : nat) : string :=
  match i with
  | O => ""
  | S j => default "" (nextPageToken (pages j))
  end.

Definition market_request (campaign_id market_token : string)
    (pages : nat → market_page) (i : nat) : request :=
  MarketOfferMapping campaign_id market_token (market_cursor pages i).

(** From the world [w], in which the client is about to ask for page [i],
    the server answers every later request of the client with the page of
    its rank. *)
Definition market_serves (w : world) (campaign_id market_token : string)
    (pages : nat → market_page) (i : nat) : Prop :=
  ∀ j, net w (length (exchanges w) + j)
         (market_request campaign_id market_token pages (i + j))
       = MarketOffers (pages (i + j)).

(** The offer ids of the first [n] pages. *)
Definition market_accumulated (pages : nat → market_page) (n : nat)
    : list string :=
  concat (map (λ i, offerMappingEntries (pages i)) (seq 0 n)).

(** A page that names no next page: the token is absent or empty. *)
Definition is_last_page (p : market_page) : Prop :=
  nextPageToken p = None ∨ nextPageToken p = Some "".

#[global] Instance is_last_page_dec (p : market_page) : Decision (is_last_page p).
Proof. unfold is_last_page. apply _. Defined.

(** A listing of two pages, and one whose pages always name a next page. *)
Definition two_pages (i : nat) : market_page :=
  match i with
  | O => {| offerMappingEntries := ["A1"; "B2"]; nextPageToken := Some "p2" |}
  | _ => {| offerMappingEntries := ["C3"]; nextPageToken := Some "" |}
  end.

Definition two_pages_world : world :=
  {| heap := ∅; next_loc := 0;
     net := λ k q, match q with
                   | MarketOfferMapping _ _ _ => MarketOffers (two_pages k)
                   | _ => Status
                   end;
     exchanges := []; ostatki := demo_inventory;
     utcnow := "2024-03-12T10:00:00Z"; console := [];
     error_text := demo_error_text |}.

Definition endless_page : market_page :=
  {| offerMappingEntries := ["A1"]; nextPageToken := Some "more" |}.

Definition endless_world : world :=
  {| heap := ∅; next_loc := 0;
     net := λ _ q, match q with
                   | MarketOfferMapping _ _ _ => MarketOffers endless_page
                   | _ => Status
                   end;
     exchanges := []; ostatki := demo_inventory;
     utcnow := "2024-03-12T10:00:00Z"; console := [];
     error_text := demo_error_text |}.

(** A world without network: every exchange ends in a connection error. *)
Definition down_world : world :=
  {| heap := ∅; next_loc := 0; net := λ _ _, Failed ConnectionError;
     exchanges := []; ostatki := demo_inventory;
     utcnow := "2024-03-12T10:00:00Z"; console := [];
     error_text := demo_error_text |}.

(** ** Worlds along a run *)

(** The world after the requests [qs] have been sent from [w]. *)
Definition sent (qs : list request) (w : world) : world :=
  {| heap := heap w; next_loc := next_loc w; net := net w;
     exchanges := exchanges w ++ qs; ostatki := ostatki w;
     utcnow := utcnow w; console := console w;
        error_text := error_text w |}.

(** The world after [line] has been printed in [w]. *)
Definition printed (line : string) (w : world) : world :=
  {| heap := heap w; next_loc := next_loc w; net := net w;
     exchanges := exchanges w; ostatki := ostatki w; utcnow := utcnow w;
     console := console w ++ [line]; error_text := error_text w |}.

(** A computation that leaves the part [f] of the world as it is. *)
Definition preserves {A B} (f : world → B) (c : M A) : Prop :=
  ∀ w, f (c w).2 = f w.

(** * Properties of the primitives *)

Lemma is_digit_decimal (c : ascii) :
  is_digit c = bool_decide (c ∈ decimal_digits).
Proof.
  destruct c as [[] [] [] [] [] [] [] []]; vm_compute; reflexivity.
Qed.

Lemma re_sub_non_digits_chars (s : string) :
  chars (re_sub_non_digits s) = filter (λ c, c ∈ decimal_digits) (chars s).
Proof.
  induction s as [|c r IH]; [reflexivity|].
  cbn [re_sub_non_digits]. unfold chars in *. cbn [String.list_ascii_of_string].
  rewrite filter_cons, is_digit_decimal.
  case_bool_decide as Hc.
  - rewrite decide_True by assumption. cbn. by rewrite IH.
  - rewrite decide_False by assumption. exact IH.
Qed.

(** The first piece of [split]: it holds no separator, and it is either the
    whole string or what stands before the first separator. *)
Lemma py_split_first (sep : ascii) (s : string) :
  ∃ first pieces,
    py_split sep s = first :: pieces
    ∧ (sep ∉ chars first)
    ∧ (s = first ∨ ∃ rest, s = first +:+ String sep rest).
Proof.
  induction s as [|c r (first & pieces & Hsplit & Hno & Hshape)].
  - exists EmptyString, []. split; [reflexivity|]. split; [|by left].
    unfold chars; simpl. apply not_elem_of_nil.
  - cbn [py_split]. destruct (Ascii.eqb_spec c sep) as [->|Hne].
    + exists EmptyString, (py_split sep r). split; [reflexivity|].
      split; [unfold chars; simpl; apply not_elem_of_nil|].
      right. by exists r.
    + rewrite Hsplit. exists (String c first), pieces. split; [reflexivity|].
      split.
      * unfold chars in *. simpl. rewrite elem_of_cons. intros [?|?]; congruence.
      * destruct Hshape as [->|[rest ->]]; [by left|].
        right. by exists rest.
Qed.

(** * The price normalizer *)

(** C6: [price_conversion] keeps the decimal digits of the part of the
    price that stands before the first period and drops everything else;
    so a fraction after a period is cut off without rounding, while the
    digits after a comma join the integer part. *)
Theorem price_conversion_digits_before_first_period :
  (∀ price : string,
     ∃ prefix,
       ("."%char ∉ chars prefix)
       ∧ (price = prefix ∨ ∃ rest, price = prefix +:+ String "." rest)
       ∧ chars (Seller.price_conversion price)
         = filter (λ c, c ∈ decimal_digits) (chars prefix))
  ∧ Seller.price_conversion "5'990.00 руб." = "5990"
  ∧ Seller.price_conversion "5'990.60 руб." = "5990"
  ∧ Seller.price_conversion "5'990,60 руб." = "599060".
Proof.
  split; [|repeat split; reflexivity].
  intros price.
  destruct (py_split_first "." price) as (first & pieces & Hsplit & Hno & Hshape).
  exists first. split; [exact Hno|]. split; [exact Hshape|].
  unfold Seller.price_conversion. rewrite Hsplit.
  apply re_sub_non_digits_chars.
Qed.

(** * The chunker *)

Section Divide.
Context {A : Type}.
Implicit Types (lst : list A) (n : Z).

(** For a positive step the range over a list of length [L] has
    [ceil (L / n)] elements. *)
Lemma range_len_chunks (L : nat) n :
  (0 < n)%Z →
  let m := range_len 0 (Z.of_nat L) n in
  (m = 0 ↔ L = 0)
  ∧ (L ≤ m * Z.to_nat n)
  ∧ (0 < L → (m - 1) * Z.to_nat n < L).
Proof.
  intros Hn. unfold range_len. cbn zeta.
  rewrite (proj2 (Z.ltb_lt 0 n) Hn).
  destruct (Z.ltb_spec 0 (Z.of_nat L)) as [HL|HL]; [|repeat split; lia].
  set (q := ((Z.of_nat L - 0 - 1) / n)%Z).
  assert (0 ≤ q)%Z as Hq by (apply Z.div_pos; lia).
  pose proof (Z.mul_div_le (Z.of_nat L - 0 - 1) n Hn) as Hlo.
  pose proof (Z.mul_succ_div_gt (Z.of_nat L - 0 - 1) n Hn) as Hhi.
  fold q in Hlo, Hhi.
  repeat split; try lia; intros; nia.
Qed.

(** The slice taken at the [k]-th index of the range. *)
Lemma slice_chunk lst n (k : nat) :
  (0 < n)%Z →
  py_slice lst (0 + Z.of_nat k * n) (0 + Z.of_nat k * n + n)
  = take (Z.to_nat n) (drop (k * Z.to_nat n) lst).
Proof.
  intros Hn. unfold py_slice, slice_bound.
  set (L := length lst).
  assert (0 ≤ Z.of_nat k * n)%Z as Hk by nia.
  rewrite (proj2 (Z.ltb_ge _ 0)) by lia.
  rewrite (proj2 (Z.ltb_ge _ 0)) by lia.
  destruct (decide (L ≤ k * Z.to_nat n)) as [Hout|Hin].
  - rewrite (drop_ge lst (k * Z.to_nat n)) by exact Hout.
    rewrite take_nil.
    rewrite drop_ge; [by rewrite take_nil|].
    fold L. nia.
  - replace (Z.to_nat (Z.min (0 + Z.of_nat k * n) (Z.of_nat L)))
      with (k * Z.to_nat n) by nia.
    destruct (decide (k * Z.to_nat n + Z.to_nat n ≤ L)) as [Hfull|Hshort].
    + f_equal. nia.
    + rewrite (take_ge _ (Z.to_nat n)) by (rewrite length_drop; fold L; lia).
      apply take_ge. rewrite length_drop. fold L. nia.
Qed.

Lemma concat_chunks lst (n m : nat) :
  concat (map (λ k, take n (drop (k * n) lst)) (seq 0 m)) = take (m * n) lst.
Proof.
  induction m as [|m IH]; [reflexivity|].
  rewrite seq_S, map_app, concat_app, IH. cbn [map concat].
  rewrite app_nil_r. cbn [plus].
  replace (S m * n) with (m * n + n) by lia.
  by rewrite take_take_drop.
Qed.

Lemma divide_positive lst n :
  (0 < n)%Z →
  Seller.divide lst n
  = Ok (map (λ k, take (Z.to_nat n) (drop (k * Z.to_nat n) lst))
            (seq 0 (range_len 0 (Z.of_nat (length lst)) n))).
Proof.
  intros Hn. unfold Seller.divide, py_range.
  rewrite (proj2 (Z.eqb_neq n 0)) by lia. cbn [res_bind].
  f_equal. rewrite map_map. apply map_ext. intros k.
  by apply slice_chunk.
Qed.

(** A step of zero is refused by [range]. *)
Lemma divide_zero lst : Seller.divide lst 0 = Exc ValueError.
Proof. reflexivity. Qed.

(** A negative step makes the range empty: nothing is yielded. *)
Lemma divide_negative lst n : (n < 0)%Z → Seller.divide lst n = Ok [].
Proof.
  intros Hn. unfold Seller.divide, py_range, range_len.
  rewrite (proj2 (Z.eqb_neq n 0)) by lia.
  rewrite (proj2 (Z.ltb_ge 0 n)) by lia.
  rewrite (proj2 (Z.ltb_ge _ 0)) by lia.
  reflexivity.
Qed.

End Divide.

Lemma map_fmap {A B} (f : A → B) (l : list A) : map f l = f <$> l.
Proof. induction l; [reflexivity|]. cbn. by f_equal. Qed.

(** C7: for a positive chunk size the chunks of [divide] concatenate back
    to the list, every chunk before the last has exactly [n] elements, the
    last one has [L mod n] elements (or [n] when [n] divides [L]), and there
    is a chunk exactly when the list is not empty. *)
Theorem divide_chunks_cover {A} (lst : list A) (n : Z) :
  (0 < n)%Z →
  ∃ chunks,
    Seller.divide lst n = Ok chunks
    ∧ concat chunks = lst
    ∧ (∀ i c, chunks !! i = Some c → S i < length chunks →
         Z.of_nat (length c) = n)
    ∧ (∀ c, last chunks = Some c →
         Z.of_nat (length c)
         = if (Z.of_nat (length lst) mod n =? 0)%Z then n
           else (Z.of_nat (length lst) mod n)%Z)
    ∧ (chunks ≠ [] ↔ 0 < length lst).
Proof.
  intros Hn. eexists. split; [by apply divide_positive|].
  destruct (range_len_chunks (length lst) n Hn) as (Hzero & Hcover & Hlast).
  set (m := range_len 0 (Z.of_nat (length lst)) n) in *.
  set (n' := Z.to_nat n) in *.
  split; [|split; [|split]].
  - rewrite concat_chunks. by apply take_ge.
  - intros i c Hi Hlt. rewrite length_map, length_seq in Hlt.
    rewrite map_fmap, list_lookup_fmap, lookup_seq_lt in Hi by lia.
    cbn in Hi. injection Hi as <-.
    rewrite length_take, length_drop. nia.
  - intros c Hc. destruct m as [|m'] eqn:Hm; [discriminate|].
    rewrite seq_S, map_app in Hc. cbn [map] in Hc.
    rewrite last_snoc in Hc. injection Hc as <-.
    rewrite length_take, length_drop. cbn [plus].
    assert (0 < length lst) as Hpos by lia.
    specialize (Hlast Hpos).
    set (r := (Z.of_nat (length lst) - Z.of_nat m' * n)%Z).
    assert (0 < r ≤ n)%Z as Hr by (unfold r; nia).
    replace (Z.of_nat (n' `min` (length lst - m' * n'))) with r by (unfold r; nia).
    destruct (decide (r = n)) as [Hfull|Hpart].
    + replace (Z.of_nat (length lst)) with ((Z.of_nat m' + 1) * n)%Z
        by (unfold r in Hfull; lia).
      rewrite Z.mod_mul by lia. exact Hfull.
    + assert (r = Z.of_nat (length lst) mod n)%Z as <-.
      { apply (Z.mod_unique_pos _ _ (Z.of_nat m')); [lia|unfold r; lia]. }
      rewrite (proj2 (Z.eqb_neq r 0)) by lia. reflexivity.
  - split.
    + intros Hne. destruct (decide (length lst = 0)) as [Hz|]; [|lia].
      apply Hzero in Hz. rewrite Hz in Hne. by destruct Hne.
    + intros Hpos Hnil. apply (f_equal length) in Hnil.
      rewrite length_map, length_seq in Hnil. cbn in Hnil. lia.
Qed.

Lemma divide_chunks_cover_witness :
  ∃ chunks,
    Seller.divide [1; 2; 3; 4; 5] 2 = Ok chunks
    ∧ concat chunks = [1; 2; 3; 4; 5]
    ∧ (∀ i c, chunks !! i = Some c → S i < length chunks →
         Z.of_nat (length c) = 2%Z)
    ∧ (∀ c, last chunks = Some c →
         Z.of_nat (length c)
         = if (Z.of_nat (length [1; 2; 3; 4; 5]) mod 2 =? 0)%Z then 2%Z
           else (Z.of_nat (length [1; 2; 3; 4; 5]) mod 2)%Z)
    ∧ (chunks ≠ [] ↔ 0 < length [1; 2; 3; 4; 5]).
Proof. apply (divide_chunks_cover [1; 2; 3; 4; 5] 2). reflexivity. Defined.

(** C8: at a negative chunk size [divide] raises nothing: the range is
    empty, no chunk is yielded and the elements of the list are dropped.
    Only a chunk size of zero is refused. *)
Theorem divide_negative_size_yields_nothing :
  Seller.divide [1; 2; 3] (-1) = Ok []
  ∧ Seller.divide [1; 2; 3] 0 = Exc ValueError.
Proof. split; reflexivity. Qed.

(** * The stock reconcilers *)

(** Scanning a list of rows is scanning its parts one after the other. *)
Lemma seller_stocks_loop_app (before rest : list watch) (l : nat)
    (acc : list ozon_stock) (w : world) :
  Seller.create_stocks_loop (before ++ rest) l acc w
  = match Seller.create_stocks_loop before l acc w with
    | (Ret acc', w1) => Seller.create_stocks_loop rest l acc' w1
    | (Raise e, w1) => (Raise e, w1)
    | (OutOfFuel, w1) => (OutOfFuel, w1)
    end.
Proof.
  revert acc w. induction before as [|watch before IH]; intros acc w.
  - reflexivity.
  - cbn [app Seller.create_stocks_loop].
    unfold bind, load, store, lift, ret, raise. cbn beta iota.
    destruct (heap w !! l) as [ids|] eqn:Hl; cbn beta iota; [|reflexivity].
    destruct (py_in (py_str (kod watch)) ids); [|apply IH].
    destruct (Seller.resolve_stock watch) as [z|e]; cbn beta iota; [|reflexivity].
    rewrite Hl; cbn beta iota.
    destruct (py_remove (py_str (kod watch)) ids) as [ids'|e];
      cbn beta iota; [|reflexivity].
    apply IH.
Qed.

(** The loop only appends to the entries gathered so far. *)
Lemma seller_stocks_loop_extends (inv : list watch) (l : nat)
    (acc out : list ozon_stock) (w w' : world) :
  Seller.create_stocks_loop inv l acc w = (Ret out, w') →
  ∃ more, out = acc ++ more.
Proof.
  revert acc w. induction inv as [|watch inv IH]; intros acc w.
  - cbn. intros [= <- <-]. exists []. by rewrite app_nil_r.
  - cbn [Seller.create_stocks_loop].
    unfold bind, load, store, lift, ret, raise. cbn beta iota.
    destruct (heap w !! l) as [ids|] eqn:Hl; cbn beta iota; [|discriminate].
    destruct (py_in (py_str (kod watch)) ids); [|apply IH].
    destruct (Seller.resolve_stock watch) as [z|e]; cbn beta iota; [|discriminate].
    rewrite Hl; cbn beta iota.
    destruct (py_remove (py_str (kod watch)) ids) as [ids'|e];
      cbn beta iota; [|discriminate].
    intros Hrun. apply IH in Hrun as [more ->].
    eexists. by rewrite <-app_assoc.
Qed.

(** [create_stocks] is its first loop followed by the zero entries of the
    ids that are left in the caller's list. *)
Lemma seller_create_stocks_run (inv : list watch) (l : nat) (w : world) :
  Seller.create_stocks inv l w
  = match Seller.create_stocks_loop inv l [] w with
    | (Ret stocks, w1) =>
        match heap w1 !! l with
        | Some ids =>
            (Ret (stocks ++ map (λ o, {| offer_id := o; stock := 0 |}) ids), w1)
        | None => (Raise SystemError, w1)
        end
    | (Raise e, w1) => (Raise e, w1)
    | (OutOfFuel, w1) => (OutOfFuel, w1)
    end.
Proof.
  unfold Seller.create_stocks, bind, load, ret.
  destruct (Seller.create_stocks_loop inv l [] w) as [[stocks|e|] w1];
    try reflexivity.
  cbn beta iota. by destruct (heap w1 !! l).
Qed.

(** The step of the loop at a row whose code is in the working list. *)
Lemma seller_stocks_loop_matched (rest : list watch) (watch : watch) (l : nat)
    (acc : list ozon_stock) (w : world) (ids : list string) :
  heap w !! l = Some ids →
  py_str (kod watch) ∈ ids →
  Seller.create_stocks_loop (watch :: rest) l acc w
  = match Seller.resolve_stock watch with
    | Ok z =>
        match py_remove (py_str (kod watch)) ids with
        | Ok ids' =>
            Seller.create_stocks_loop rest l
              (acc ++ [{| offer_id := py_str (kod watch); stock := z |}])
              (set_heap (<[l := ids']> (heap w)) w)
        | Exc e => (Raise e, w)
        end
    | Exc e => (Raise e, w)
    end.
Proof.
  intros Hl Hin. cbn [Seller.create_stocks_loop].
  unfold bind, load, store, lift, ret, raise. cbn beta iota.
  rewrite Hl. cbn beta iota.
  unfold py_in. rewrite bool_decide_eq_true_2 by exact Hin.
  destruct (Seller.resolve_stock watch) as [z|e]; cbn beta iota; [|reflexivity].
  rewrite Hl; cbn beta iota.
  by destruct (py_remove (py_str (kod watch)) ids).
Qed.

Lemma seller_stocks_loop_unmatched (rest : list watch) (watch : watch) (l : nat)
    (acc : list ozon_stock) (w : world) (ids : list string) :
  heap w !! l = Some ids →
  py_str (kod watch) ∉ ids →
  Seller.create_stocks_loop (watch :: rest) l acc w
  = Seller.create_stocks_loop rest l acc w.
Proof.
  intros Hl Hin. cbn [Seller.create_stocks_loop].
  unfold bind, load. rewrite Hl. cbn beta iota.
  unfold py_in. by rewrite bool_decide_eq_false_2.
Qed.

(** [remove] succeeds on an element of the list. *)
Lemma py_remove_elem (x : string) (l : list string) :
  x ∈ l → ∃ l', py_remove x l = Ok l'.
Proof.
  induction l as [|y l IH]; [by intros ?%elem_of_nil|].
  intros Hin. cbn. case_bool_decide as Hy; [by eexists|].
  apply elem_of_cons in Hin as [->|Hin]; [done|].
  destruct (IH Hin) as [l' ->]. by eexists.
Qed.

(** The Yandex.Market loop builds the entries of the Ozon loop, in the
    Yandex.Market shape. *)
Lemma market_stocks_loop_seller (inv : list watch) (l : nat)
    (warehouse_id date : string) (acc : list ozon_stock) (w : world) :
  Market.create_stocks_loop inv l warehouse_id date
    (map (to_market warehouse_id date) acc) w
  = match Seller.create_stocks_loop inv l acc w with
    | (Ret out, w') => (Ret (map (to_market warehouse_id date) out), w')
    | (Raise e, w') => (Raise e, w')
    | (OutOfFuel, w') => (OutOfFuel, w')
    end.
Proof.
  revert acc w. induction inv as [|watch inv IH]; intros acc w.
  - reflexivity.
  - cbn [Seller.create_stocks_loop Market.create_stocks_loop].
    unfold bind, load, store, lift, ret, raise. cbn beta iota.
    destruct (heap w !! l) as [ids|] eqn:Hl; cbn beta iota; [|reflexivity].
    destruct (py_in (py_str (kod watch)) ids); [|apply IH].
    destruct (Seller.resolve_stock watch) as [z|e]; cbn beta iota; [|reflexivity].
    rewrite Hl; cbn beta iota.
    destruct (py_remove (py_str (kod watch)) ids) as [ids'|e];
      cbn beta iota; [|reflexivity].
    rewrite <-IH. by rewrite map_app.
Qed.

Lemma market_create_stocks_seller (inv : list watch) (l : nat)
    (warehouse_id : string) (w : world) :
  Market.create_stocks inv l warehouse_id w
  = match Seller.create_stocks inv l w with
    | (Ret out, w') => (Ret (map (to_market warehouse_id (utcnow w)) out), w')
    | (Raise e, w') => (Raise e, w')
    | (OutOfFuel, w') => (OutOfFuel, w')
    end.
Proof.
  rewrite seller_create_stocks_run.
  unfold Market.create_stocks, bind. cbn beta iota.
  change (@nil market_stock)
    with (map (to_market warehouse_id (utcnow w)) []).
  rewrite market_stocks_loop_seller.
  destruct (Seller.create_stocks_loop inv l [] w) as [[stocks|e|] w1];
    try reflexivity.
  unfold load, ret. destruct (heap w1 !! l) as [ids|]; [|reflexivity].
  cbn beta iota. rewrite map_app, map_map. reflexivity.
Qed.

(** The run of [create_stocks] around a row that is matched when the scan
    reaches it. *)
Lemma seller_create_stocks_at_matched (before after : list watch) (row : watch)
    (l : nat) (w w1 : world) (ids : list string) (acc : list ozon_stock) :
  Seller.create_stocks_loop before l [] w = (Ret acc, w1) →
  heap w1 !! l = Some ids →
  py_str (kod row) ∈ ids →
  match Seller.resolve_stock row with
  | Ok z =>
      ∀ out w', Seller.create_stocks (before ++ row :: after) l w = (Ret out, w') →
        out !! length acc = Some {| offer_id := py_str (kod row); stock := z |}
  | Exc e => Seller.create_stocks (before ++ row :: after) l w = (Raise e, w1)
  end.
Proof.
  intros Hbefore Hl Hin.
  pose proof (seller_stocks_loop_matched after row l acc w1 ids Hl Hin) as Hstep.
  destruct (py_remove_elem _ _ Hin) as [ids' Hrm]. rewrite Hrm in Hstep.
  destruct (Seller.resolve_stock row) as [z|e].
  - intros out w'. rewrite seller_create_stocks_run, seller_stocks_loop_app.
    rewrite Hbefore, Hstep.
    destruct (Seller.create_stocks_loop after l _ _) as [[stocks|?|] w2] eqn:Hafter;
      try discriminate.
    apply seller_stocks_loop_extends in Hafter as [more ->].
    destruct (heap w2 !! l); [|discriminate].
    intros [= <- <-].
    rewrite <-!app_assoc. cbn [app]. by apply list_lookup_middle.
  - rewrite seller_create_stocks_run, seller_stocks_loop_app.
    by rewrite Hbefore, Hstep.
Qed.

(** ** The complete output of the Ozon stock reconciler *)

Lemma filter_agree {A} (P Q : A → Prop) `{∀ x, Decision (P x)}
    `{∀ x, Decision (Q x)} (l : list A) :
  (∀ x, x ∈ l → (P x ↔ Q x)) → filter P l = filter Q l.
Proof.
  induction l as [|x l IH]; [reflexivity|]. intros Hagree.
  rewrite !filter_cons.
  rewrite IH by (intros y Hy; apply Hagree; by right).
  pose proof (Hagree x (list_elem_of_here x l)) as Hx.
  destruct (decide (P x)) as [HP|HP], (decide (Q x)) as [HQ|HQ];
    try reflexivity; exfalso; tauto.
Qed.

(** [remove] takes one occurrence out of the list. *)
Lemma py_remove_perm (x : string) (l l' : list string) :
  py_remove x l = Ok l' → l ≡ₚ x :: l'.
Proof.
  revert l'. induction l as [|y l IH]; intros l'; [discriminate|].
  cbn. case_bool_decide as Hy.
  - intros [= <-]. by subst.
  - destruct (py_remove x l) as [r|e]; [|discriminate].
    cbn. intros [= <-]. rewrite (IH r eq_refl). apply Permutation_swap.
Qed.

Lemma filter_all {A} (P : A → Prop) `{∀ x, Decision (P x)} (l : list A) :
  (∀ x, x ∈ l → P x) → filter P l = l.
Proof.
  induction l as [|x l IH]; [reflexivity|]. intros HP.
  rewrite filter_cons, decide_True by (apply HP; left).
  f_equal. apply IH. intros y Hy. apply HP. by right.
Qed.

Lemma filter_none {A} (P : A → Prop) `{∀ x, Decision (P x)} (l : list A) :
  (∀ x, x ∈ l → ¬ P x) → filter P l = [].
Proof.
  induction l as [|x l IH]; [reflexivity|]. intros HP.
  rewrite filter_cons, decide_False by (apply HP; left).
  apply IH. intros y Hy. apply HP. by right.
Qed.

(** In a list without duplicates it takes out every occurrence. *)
Lemma py_remove_NoDup (x : string) (l l' : list string) :
  NoDup l → py_remove x l = Ok l' → l' = filter (λ o, o ≠ x) l.
Proof.
  revert l'. induction l as [|y l IH]; intros l' Hnd; [discriminate|].
  apply NoDup_cons in Hnd as [Hy Hnd].
  cbn [py_remove]. rewrite filter_cons. case_bool_decide as Hyx.
  - intros [= <-]. subst y. rewrite decide_False by (intros Hne; by apply Hne).
    symmetry. apply filter_all. by intros z Hz ->.
  - destruct (py_remove x l) as [r|e]; [|discriminate].
    cbn. intros [= <-]. rewrite decide_True by done.
    f_equal. by apply IH.
Qed.

Lemma matched_rows_cons_in (row : watch) (rest : list watch) (ids : list string) :
  code row ∈ ids →
  matched_rows (row :: rest) ids
  = row :: matched_rows rest (filter (λ o, o ≠ code row) ids).
Proof.
  intros Hin. unfold matched_rows. cbn [first_by_code].
  rewrite filter_cons, decide_True by exact Hin. f_equal.
  rewrite list_filter_filter. apply list_filter_iff.
  intros r. rewrite list_elem_of_filter. tauto.
Qed.

Lemma matched_rows_cons_out (row : watch) (rest : list watch) (ids : list string) :
  code row ∉ ids →
  matched_rows (row :: rest) ids = matched_rows rest ids.
Proof.
  intros Hout. unfold matched_rows. cbn [first_by_code].
  rewrite filter_cons, decide_False by exact Hout.
  apply list_filter_filter_l. intros r Hr Heq. apply Hout. by rewrite <-Heq.
Qed.

Lemma leftover_ids_cons (row : watch) (rest : list watch) (ids : list string) :
  leftover_ids (row :: rest) ids
  = leftover_ids rest (filter (λ o, o ≠ code row) ids).
Proof.
  unfold leftover_ids. rewrite list_filter_filter. apply list_filter_iff.
  intros o. cbn [map]. rewrite not_elem_of_cons. tauto.
Qed.

Lemma leftover_ids_nil (ids : list string) : leftover_ids [] ids = ids.
Proof. apply filter_all. intros o _. apply not_elem_of_nil. Qed.

(** The first loop in closed form, for a catalog without duplicates. *)
Lemma seller_stocks_loop_closed (inv : list watch) (l : nat)
    (acc : list ozon_stock) (w : world) (ids : list string) :
  heap w !! l = Some ids →
  NoDup ids →
  ∃ w',
    Seller.create_stocks_loop inv l acc w
    = (match stock_entries (matched_rows inv ids) with
       | Ok entries => Ret (acc ++ entries)
       | Exc e => Raise e
       end, w')
    ∧ (∀ entries, stock_entries (matched_rows inv ids) = Ok entries →
         heap w' !! l = Some (leftover_ids inv ids)).
Proof.
  revert acc w ids. induction inv as [|row rest IH]; intros acc w ids Hl Hnd.
  - exists w. cbn. rewrite app_nil_r. split; [reflexivity|].
    intros _ _. by rewrite leftover_ids_nil.
  - destruct (decide (code row ∈ ids)) as [Hin|Hout].
    + rewrite (seller_stocks_loop_matched rest row l acc w ids Hl Hin).
      rewrite matched_rows_cons_in, leftover_ids_cons by exact Hin.
      cbn [stock_entries].
      destruct (Seller.resolve_stock row) as [z|e]; cbn [res_bind].
      2: { exists w. split; [reflexivity|]. discriminate. }
      destruct (py_remove_elem _ _ Hin) as [ids' Hrm].
      unfold code in *. rewrite Hrm.
      apply py_remove_NoDup in Hrm as ->; [|exact Hnd].
      set (ids' := filter (λ o, o ≠ py_str (kod row)) ids).
      set (w2 := set_heap (<[l:=ids']> (heap w)) w).
      destruct (IH (acc ++ [{| offer_id := py_str (kod row); stock := z |}])
                  w2 ids') as (w' & Hrun & Hleft).
      { cbn. apply lookup_insert_eq. }
      { by apply NoDup_filter. }
      exists w'. rewrite Hrun.
      destruct (stock_entries (matched_rows rest ids')) as [entries|e];
        cbn [res_bind].
      * split; [by rewrite <-app_assoc|]. intros _ _. by apply (Hleft entries).
      * split; [reflexivity|]. discriminate.
    + rewrite (seller_stocks_loop_unmatched rest row l acc w ids Hl Hout).
      rewrite matched_rows_cons_out, leftover_ids_cons by exact Hout.
      rewrite (filter_all (λ o, o ≠ code row) ids) by (by intros o Ho ->).
      by apply IH.
Qed.

(** The ids of the output are those of the catalog, each as often as the
    catalog lists it. *)
Lemma seller_stocks_loop_perm (inv : list watch) (l : nat)
    (acc out : list ozon_stock) (w w' : world) (ids : list string) :
  heap w !! l = Some ids →
  Seller.create_stocks_loop inv l acc w = (Ret out, w') →
  ∃ ids', heap w' !! l = Some ids'
          ∧ map offer_id out ++ ids' ≡ₚ map offer_id acc ++ ids.
Proof.
  revert acc w ids. induction inv as [|row rest IH]; intros acc w ids Hl.
  - cbn. intros [= <- <-]. by exists ids.
  - destruct (decide (py_str (kod row) ∈ ids)) as [Hin|Hout].
    + rewrite (seller_stocks_loop_matched rest row l acc w ids Hl Hin).
      destruct (Seller.resolve_stock row) as [z|e]; [|discriminate].
      destruct (py_remove (py_str (kod row)) ids) as [ids1|e] eqn:Hrm;
        [|discriminate].
      intros Hrun. apply IH with (ids := ids1) in Hrun as (ids' & Hl' & Hperm).
      2: { cbn. apply lookup_insert_eq. }
      exists ids'. split; [exact Hl'|]. rewrite Hperm.
      rewrite map_app. cbn [map offer_id]. rewrite <-app_assoc. cbn [app].
      apply Permutation_app_head. symmetry. by apply py_remove_perm.
    + rewrite (seller_stocks_loop_unmatched rest row l acc w ids Hl Hout).
      by apply IH.
Qed.

Lemma stock_entries_resolved (rows : list watch) (entries : list ozon_stock) :
  stock_entries rows = Ok entries →
  Forall2 (λ row e, offer_id e = code row
                    ∧ Seller.resolve_stock row = Ok (stock e)) rows entries.
Proof.
  revert entries. induction rows as [|row rows IH]; intros entries.
  - intros [= <-]. constructor.
  - cbn [stock_entries].
    destruct (Seller.resolve_stock row) as [z|e] eqn:Hz; [|discriminate].
    cbn [res_bind].
    destruct (stock_entries rows) as [es|e]; [|discriminate].
    cbn [res_bind]. intros [= <-]. constructor; [by split|by apply IH].
Qed.

Lemma stock_entries_failure (rows : list watch) (e : exn) :
  stock_entries rows = Exc e →
  ∃ row, row ∈ rows ∧ Seller.resolve_stock row = Exc e.
Proof.
  induction rows as [|row rows IH]; [discriminate|].
  cbn [stock_entries].
  destruct (Seller.resolve_stock row) as [z|e'] eqn:Hz; cbn [res_bind].
  - destruct (stock_entries rows) as [es|e']; [discriminate|].
    cbn [res_bind]. intros [= ->].
    destruct (IH eq_refl) as (r & Hr & Hres). exists r. split; [by right|done].
  - intros [= ->]. exists row. split; [by left|done].
Qed.

Lemma first_by_code_codes (inv : list watch) (o : string) :
  o ∈ map code (first_by_code inv) ↔ o ∈ map code inv.
Proof.
  induction inv as [|row rest IH]; [reflexivity|].
  cbn [first_by_code map]. rewrite !elem_of_cons, <-IH.
  rewrite !map_fmap, !list_elem_of_fmap.
  split.
  - intros [->|(r & -> & Hr)]; [by left|].
    apply list_elem_of_filter in Hr as [_ Hr]. right. by exists r.
  - intros [->|(r & -> & Hr)]; [by left|].
    destruct (decide (code r = code row)) as [Heq|Hne]; [by left|].
    right. exists r. split; [done|]. by apply list_elem_of_filter.
Qed.

Lemma matched_rows_codes (inv : list watch) (ids : list string) (o : string) :
  o ∈ map code (matched_rows inv ids) ↔ o ∈ ids ∧ o ∈ map code inv.
Proof.
  rewrite <-(first_by_code_codes inv o). unfold matched_rows.
  rewrite !map_fmap, !list_elem_of_fmap. split.
  - intros (r & -> & Hr). apply list_elem_of_filter in Hr as [Hin Hr].
    split; [done|]. by exists r.
  - intros (Hin & r & -> & Hr). exists r. split; [done|].
    by apply list_elem_of_filter.
Qed.

(** C2: over a catalog without duplicates the Ozon stock reconciler
    answers the entries of the matched rows, in scan order and with their
    resolved stocks, followed by a zero entry for every offer id that no
    row matches, in catalog order; the output lists every known offer id
    once and nothing else.  The Yandex.Market reconciler answers the same
    entries in its own shape.  When the quantity of a matched row does not
    resolve, the reconcilers raise instead. *)
Theorem create_stocks_covers_catalog (inv : list watch) (l : nat) (w : world)
    (ids : list string) :
  heap w !! l = Some ids →
  NoDup ids →
  (∀ o, o ∈ map code (matched_rows inv ids) ↔ o ∈ ids ∧ o ∈ map code inv)
  ∧ (∀ o, o ∈ leftover_ids inv ids ↔ o ∈ ids ∧ o ∉ map code inv)
  ∧ ∃ w',
      match stock_entries (matched_rows inv ids) with
      | Ok entries =>
          let out :=
            entries
            ++ map (λ o, {| offer_id := o; stock := 0 |}) (leftover_ids inv ids) in
          Seller.create_stocks inv l w = (Ret out, w')
          ∧ (∀ warehouse_id,
               Market.create_stocks inv l warehouse_id w
               = (Ret (map (to_market warehouse_id (utcnow w)) out), w'))
          ∧ Forall2 (λ row e, offer_id e = code row
                              ∧ Seller.resolve_stock row = Ok (stock e))
              (matched_rows inv ids) entries
          ∧ map offer_id out ≡ₚ ids
          ∧ NoDup (map offer_id out)
      | Exc e =>
          Seller.create_stocks inv l w = (Raise e, w')
          ∧ (∀ warehouse_id,
               Market.create_stocks inv l warehouse_id w = (Raise e, w'))
          ∧ ∃ row, row ∈ matched_rows inv ids
                   ∧ Seller.resolve_stock row = Exc e
      end.
Proof.
  intros Hl Hnd. split; [apply matched_rows_codes|].
  split.
  { intros o. unfold leftover_ids. rewrite list_elem_of_filter. tauto. }
  destruct (seller_stocks_loop_closed inv l [] w ids Hl Hnd) as (w' & Hrun & Hleft).
  exists w'.
  assert (∀ r, Seller.create_stocks inv l w = r →
               ∀ warehouse_id,
                 Market.create_stocks inv l warehouse_id w
                 = match r with
                   | (Ret out, w') =>
                       (Ret (map (to_market warehouse_id (utcnow w)) out), w')
                   | (Raise e, w') => (Raise e, w')
                   | (OutOfFuel, w') => (OutOfFuel, w')
                   end) as Hmarket.
  { intros r <- warehouse_id. apply market_create_stocks_seller. }
  revert Hmarket. rewrite seller_create_stocks_run, Hrun. intros Hmarket.
  destruct (stock_entries (matched_rows inv ids)) as [entries|e] eqn:Hentries.
  - cbn zeta. rewrite (Hleft entries eq_refl) in *. cbn [app].
    split; [reflexivity|].
    split; [intros wh; exact (Hmarket _ eq_refl wh)|].
    split; [by apply stock_entries_resolved|].
    assert (map offer_id
              (entries ++ map (λ o, {| offer_id := o; stock := 0 |})
                            (leftover_ids inv ids)) ≡ₚ ids) as Hperm.
    { destruct (seller_stocks_loop_perm inv l [] entries w w' ids Hl Hrun)
        as (ids' & Hl' & Hperm).
      rewrite (Hleft entries eq_refl) in Hl'. injection Hl' as <-.
      rewrite map_app, map_map. cbn [offer_id]. by rewrite map_id. }
    split; [exact Hperm|]. by rewrite Hperm.
  - split; [reflexivity|].
    split; [intros wh; exact (Hmarket _ eq_refl wh)|].
    by apply stock_entries_failure.
Qed.

(** * The price reconcilers *)

Lemma traverse_ids {A B} (f : A → res B) (key : A → string) (key' : B → string)
    (l : list A) (out : list B) :
  (∀ x y, f x = Ok y → key' y = key x) →
  traverse f l = Ok out → map key' out = map key l.
Proof.
  intros Hkey. revert out. induction l as [|x l IH]; intros out.
  - by intros [= <-].
  - cbn [traverse]. destruct (f x) as [y|e] eqn:Hy; [|discriminate].
    cbn [res_bind]. destruct (traverse f l) as [ys|e]; [|discriminate].
    cbn [res_bind]. intros [= <-]. cbn [map].
    by rewrite (Hkey x y Hy), (IH ys eq_refl).
Qed.

Lemma traverse_failure {A B} (f : A → res B) (l : list A) (e : exn) :
  traverse f l = Exc e → ∃ x, x ∈ l ∧ f x = Exc e.
Proof.
  induction l as [|x l IH]; [discriminate|].
  cbn [traverse]. destruct (f x) as [y|e'] eqn:Hy; cbn [res_bind].
  - destruct (traverse f l) as [ys|e']; [discriminate|].
    cbn [res_bind]. intros [= ->].
    destruct (IH eq_refl) as (r & Hr & Hres). exists r. split; [by right|done].
  - intros [= ->]. exists x. split; [by left|done].
Qed.

(** The loops of the price reconcilers in closed form: the list behind
    [offer_ids] is read and never written, so the world stays as it is. *)
Lemma seller_prices_loop_closed (inv : list watch) (l : nat)
    (acc : list ozon_price) (w : world) (ids : list string) :
  heap w !! l = Some ids →
  Seller.create_prices_loop inv l acc w
  = (match traverse ozon_price_of (filter (λ row, code row ∈ ids) inv) with
     | Ok prices => Ret (acc ++ prices)
     | Exc e => Raise e
     end, w).
Proof.
  intros Hl. revert acc. induction inv as [|row rest IH]; intros acc.
  - cbn. by rewrite app_nil_r.
  - cbn [Seller.create_prices_loop]. unfold bind, load, lift, ret, raise.
    rewrite Hl. cbn beta iota. rewrite filter_cons. unfold py_in, code at 1.
    case_bool_decide as Hin.
    + rewrite decide_True by exact Hin. cbn [traverse]. unfold ozon_price_of at 1.
      destruct (Seller.price_conversion_value (tsena row)) as [p|e];
        cbn [res_bind]; [|reflexivity].
      rewrite IH.
      destruct (traverse ozon_price_of _) as [prices|e]; cbn [res_bind];
        [|reflexivity].
      by rewrite <-app_assoc.
    + rewrite decide_False by exact Hin. apply IH.
Qed.

Lemma market_prices_loop_closed (inv : list watch) (l : nat)
    (acc : list market_price) (w : world) (ids : list string) :
  heap w !! l = Some ids →
  Market.create_prices_loop inv l acc w
  = (match traverse market_price_of (filter (λ row, code row ∈ ids) inv) with
     | Ok prices => Ret (acc ++ prices)
     | Exc e => Raise e
     end, w).
Proof.
  intros Hl. revert acc. induction inv as [|row rest IH]; intros acc.
  - cbn. by rewrite app_nil_r.
  - cbn [Market.create_prices_loop]. unfold bind, load, lift, ret, raise.
    rewrite Hl. cbn beta iota. rewrite filter_cons. unfold py_in, code at 1.
    case_bool_decide as Hin.
    + rewrite decide_True by exact Hin. cbn [traverse]. unfold market_price_of at 1.
      destruct (Market.resolve_price row) as [v|e];
        cbn [res_bind]; [|reflexivity].
      rewrite IH.
      destruct (traverse market_price_of _) as [prices|e]; cbn [res_bind];
        [|reflexivity].
      by rewrite <-app_assoc.
    + rewrite decide_False by exact Hin. apply IH.
Qed.

(** C5: the price reconcilers answer one entry for every row whose code is
    in the list behind [offer_ids], in scan order, and nothing for an offer
    id that no row carries; they leave the world, and with it the caller's
    list, as it was.  A price that does not convert raises instead. *)
Theorem create_prices_only_matched_rows (inv : list watch) (l : nat) (w : world)
    (ids : list string) :
  heap w !! l = Some ids →
  let rows := filter (λ row, code row ∈ ids) inv in
  match traverse ozon_price_of rows with
  | Ok prices =>
      Seller.create_prices inv l w = (Ret prices, w)
      ∧ map price_offer_id prices = map code rows
  | Exc e =>
      Seller.create_prices inv l w = (Raise e, w)
      ∧ ∃ row, row ∈ rows ∧ ozon_price_of row = Exc e
  end
  ∧ match traverse market_price_of rows with
    | Ok prices =>
        Market.create_prices inv l w = (Ret prices, w)
        ∧ map id prices = map code rows
    | Exc e =>
        Market.create_prices inv l w = (Raise e, w)
        ∧ ∃ row, row ∈ rows ∧ market_price_of row = Exc e
    end.
Proof.
  intros Hl rows. split.
  - unfold Seller.create_prices.
    rewrite (seller_prices_loop_closed inv l [] w ids Hl). fold rows.
    destruct (traverse ozon_price_of rows) as [prices|e] eqn:Hrows.
    + split; [reflexivity|].
      apply (traverse_ids ozon_price_of code price_offer_id rows prices);
        [|exact Hrows].
      intros row y. unfold ozon_price_of.
      destruct (Seller.price_conversion_value (tsena row)); [|discriminate].
      by intros [= <-].
    + split; [reflexivity|]. by apply traverse_failure.
  - unfold Market.create_prices.
    rewrite (market_prices_loop_closed inv l [] w ids Hl). fold rows.
    destruct (traverse market_price_of rows) as [prices|e] eqn:Hrows.
    + split; [reflexivity|].
      apply (traverse_ids market_price_of code id rows prices); [|exact Hrows].
      intros row y. unfold market_price_of.
      destruct (Market.resolve_price row); [|discriminate].
      by intros [= <-].
    + split; [reflexivity|]. by apply traverse_failure.
Qed.

(** ** Prices without digits *)

Lemma traverse_success_or_failure {A B} (f : A → res B) (l : list A) (x : A)
    (e : exn) :
  x ∈ l → f x = Exc e → ∃ e', traverse f l = Exc e'.
Proof.
  intros Hx Hfx. induction l as [|y l IH]; [by apply elem_of_nil in Hx|].
  cbn [traverse]. destruct (f y) as [z|e'] eqn:Hy; [|by eexists].
  cbn [res_bind].
  apply elem_of_cons in Hx as [->|Hx]; [congruence|].
  destruct (IH Hx) as [e' ->]. by eexists.
Qed.

(** C9: [price_conversion] answers decimal digits only; when no digit
    stands before the first period it answers the empty string, and
    [int("")] then makes the Yandex.Market price reconciler raise: a
    [ValueError] when every price cell is a string. *)
Theorem price_without_digits_fails_market_prices :
  (∀ price, Forall (λ c, c ∈ decimal_digits)
              (chars (Seller.price_conversion price)))
  ∧ (∀ price,
       ∃ prefix,
         ("."%char ∉ chars prefix)
         ∧ (price = prefix ∨ ∃ rest, price = prefix +:+ String "." rest)
         ∧ ((∀ c, c ∈ chars prefix → c ∉ decimal_digits) →
              Seller.price_conversion price = ""))
  ∧ Seller.price_conversion "" = ""
  ∧ Seller.price_conversion "руб." = ""
  ∧ (∀ (inv : list watch) (l : nat) (w : world) (ids : list string)
       (row : watch) (text : string),
       heap w !! l = Some ids →
       row ∈ inv →
       code row ∈ ids →
       tsena row = VStr text →
       Seller.price_conversion text = "" →
       Market.resolve_price row = Exc ValueError
       ∧ (∃ e, Market.create_prices inv l w = (Raise e, w))
       ∧ ((∀ r, r ∈ inv → ∃ s, tsena r = VStr s) →
            Market.create_prices inv l w = (Raise ValueError, w))).
Proof.
  split; [|split; [|split; [reflexivity|split; [reflexivity|]]]].
  - intros price.
    destruct (py_split_first "." price) as (first & pieces & Hsplit & _).
    unfold Seller.price_conversion. rewrite Hsplit, re_sub_non_digits_chars.
    apply Forall_forall. intros c Hc. by apply list_elem_of_filter in Hc as [? _].
  - intros price.
    destruct (py_split_first "." price) as (first & pieces & Hsplit & Hno & Hshape).
    exists first. split; [exact Hno|]. split; [exact Hshape|].
    intros Hnodigit.
    pose proof (re_sub_non_digits_chars first) as Hchars.
    unfold Seller.price_conversion. rewrite Hsplit.
    destruct (re_sub_non_digits first) as [|c r]; [reflexivity|].
    exfalso. assert (c ∈ filter (λ c, c ∈ decimal_digits) (chars first)) as Hc.
    { rewrite <-Hchars. unfold chars. cbn. by left. }
    apply list_elem_of_filter in Hc as [Hdigit Hin]. by apply (Hnodigit c).
  - intros inv l w ids row text Hl Hrow Hcode Htext Hempty.
    assert (Market.resolve_price row = Exc ValueError) as Hres.
    { unfold Market.resolve_price. rewrite Htext. cbn. by rewrite Hempty. }
    assert (row ∈ filter (λ r, code r ∈ ids) inv) as Hmatched
      by (by apply list_elem_of_filter).
    assert (market_price_of row = Exc ValueError) as Hfail
      by (unfold market_price_of; by rewrite Hres).
    destruct (traverse_success_or_failure market_price_of _ row _ Hmatched Hfail)
      as [e He].
    unfold Market.create_prices.
    rewrite (market_prices_loop_closed inv l [] w ids Hl), He.
    split; [exact Hres|]. split; [by exists e|].
    intros Hstrings. apply traverse_failure in He as (r & Hr & Hre).
    apply list_elem_of_filter in Hr as [_ Hr].
    destruct (Hstrings r Hr) as [s Hs].
    unfold market_price_of, Market.resolve_price in Hre. rewrite Hs in Hre.
    cbn in Hre. destruct (int_of_string _); [discriminate|].
    cbn in Hre. by injection Hre as <-.
Qed.

(** * The Ozon catalog fetcher *)

Lemma accumulated_S (pages : nat → ozon_page) (n : nat) :
  accumulated pages (S n) = accumulated pages n ++ items (pages n).
Proof.
  unfold accumulated. rewrite seq_S, map_app, concat_app. cbn.
  by rewrite app_nil_r.
Qed.

Lemma serves_next (w w' : world) (client_id seller_token : string)
    (pages : nat → ozon_page) (i : nat) (q : request) :
  net w' = net w →
  exchanges w' = exchanges w ++ [q] →
  serves w client_id seller_token pages i →
  serves w' client_id seller_token pages (S i).
Proof.
  intros Hnet Hlog Hserves j. rewrite Hnet, Hlog, length_app. cbn [length].
  replace (length (exchanges w) + 1 + j) with (length (exchanges w) + S j) by lia.
  replace (S i + j) with (i + S j) by lia. apply Hserves.
Qed.

(** One turn of the loop under a server that answers with [pages]. *)
Lemma seller_offer_ids_loop_turn (fuel : nat) (client_id seller_token : string)
    (pages : nat → ozon_page) (i : nat) (w : world) :
  serves w client_id seller_token pages i →
  ∃ w1,
    net w1 = net w ∧ heap w1 = heap w ∧ next_loc w1 = next_loc w
    ∧ serves w1 client_id seller_token pages (S i)
    ∧ Seller.get_offer_ids_loop (S fuel) client_id seller_token
        (cursor pages i) (accumulated pages i) w
      = if decide (stops_at pages i)
        then (Ret (accumulated pages (S i)), w1)
        else Seller.get_offer_ids_loop fuel client_id seller_token
               (cursor pages (S i)) (accumulated pages (S i)) w1.
Proof.
  intros Hserves. pose proof (Hserves 0) as Hpage.
  rewrite !Nat.add_0_r in Hpage.
  eexists. split; [|split; [|split; [|split]]]; cycle 4.
  - cbn [Seller.get_offer_ids_loop].
    unfold bind, Seller.get_product_list, bind, http. rewrite Hpage.
    cbn beta iota. unfold ret. rewrite <-accumulated_S.
    unfold stops_at.
    destruct (Z.eqb_spec (total (pages i))
                (Z.of_nat (length (accumulated pages (S i))))) as [Heq|Hne].
    + rewrite decide_True by exact Heq. reflexivity.
    + rewrite decide_False by exact Hne. reflexivity.
  - reflexivity.
  - reflexivity.
  - reflexivity.
  - eapply serves_next; [| |exact Hserves]; reflexivity.
Qed.

(** The loop either returns at the first page that passes the exit test,
    or it uses up any fuel. *)
Lemma seller_offer_ids_loop_run (fuel : nat) (client_id seller_token : string)
    (pages : nat → ozon_page) (i : nat) (w : world) :
  serves w client_id seller_token pages i →
  (∃ d w', d < fuel
           ∧ stops_at pages (i + d)
           ∧ (∀ j, j < d → ¬ stops_at pages (i + j))
           ∧ heap w' = heap w ∧ next_loc w' = next_loc w
           ∧ Seller.get_offer_ids_loop fuel client_id seller_token
               (cursor pages i) (accumulated pages i) w
             = (Ret (accumulated pages (S (i + d))), w'))
  ∨ ((∀ j, j < fuel → ¬ stops_at pages (i + j))
     ∧ ∃ w', Seller.get_offer_ids_loop fuel client_id seller_token
               (cursor pages i) (accumulated pages i) w
             = (OutOfFuel, w')).
Proof.
  revert i w. induction fuel as [|fuel IH]; intros i w Hserves.
  - right. split; [intros j Hj; lia|]. by exists w.
  - destruct (seller_offer_ids_loop_turn fuel client_id seller_token pages i w
                Hserves) as (w1 & Hnet & Hheap & Hnext & Hserves1 & Hturn).
    rewrite Hturn. destruct (decide (stops_at pages i)) as [Hstop|Hgo].
    + left. exists 0, w1. rewrite Nat.add_0_r.
      repeat split; [lia|exact Hstop|intros j Hj; lia|done|done].
    + destruct (IH (S i) w1 Hserves1)
        as [(d & w' & Hd & Hstop & Hfirst & Hh & Hn & Hrun)|(Hnever & w' & Hrun)].
      * left. exists (S d), w'.
        replace (i + S d) with (S i + d) by lia.
        repeat split; [lia|exact Hstop| |congruence|congruence|exact Hrun].
        intros [|j] Hj; [by rewrite Nat.add_0_r|].
        replace (i + S j) with (S i + j) by lia. apply Hfirst. lia.
      * right. split; [|by exists w'].
        intros [|j] Hj; [by rewrite Nat.add_0_r|].
        replace (i + S j) with (S i + j) by lia. apply Hnever. lia.
Qed.

(** C10: under a server that answers every request with a page, the Ozon
    [get_offer_ids] returns exactly when some page ends with a reported
    total equal to the number of items gathered so far, and then it
    answers the offer ids of all the pages up to the first such page; when
    no page ever passes this equality test the loop does not end: it uses
    up any fuel. *)
Theorem get_offer_ids_needs_exact_total (client_id seller_token : string)
    (pages : nat → ozon_page) (w : world) :
  serves w client_id seller_token pages 0 →
  (∀ n, stops_at pages n → (∀ i, i < n → ¬ stops_at pages i) →
     ∀ fuel, n < fuel →
       ∃ w', Seller.get_offer_ids fuel client_id seller_token w
             = (Ret (next_loc w), w')
             ∧ heap w' !! next_loc w = Some (accumulated pages (S n)))
  ∧ ((∀ n, ¬ stops_at pages n) →
       ∀ fuel, ∃ w', Seller.get_offer_ids fuel client_id seller_token w
                     = (OutOfFuel, w'))
  ∧ (∀ fuel l w',
       Seller.get_offer_ids fuel client_id seller_token w = (Ret l, w') →
       ∃ n, n < fuel ∧ stops_at pages n
            ∧ heap w' !! l = Some (accumulated pages (S n))).
Proof.
  intros Hserves.
  assert (∀ fuel,
    (∃ d w', d < fuel ∧ stops_at pages d ∧ (∀ j, j < d → ¬ stops_at pages j)
             ∧ Seller.get_offer_ids fuel client_id seller_token w
               = (Ret (next_loc w), w')
             ∧ heap w' !! next_loc w = Some (accumulated pages (S d)))
    ∨ ((∀ j, j < fuel → ¬ stops_at pages j)
       ∧ ∃ w', Seller.get_offer_ids fuel client_id seller_token w
               = (OutOfFuel, w'))) as Hrun.
  { intros fuel. unfold Seller.get_offer_ids, bind.
    change "" with (cursor pages 0).
    change (@nil string) with (accumulated pages 0).
    destruct (seller_offer_ids_loop_run fuel client_id seller_token pages 0 w
                Hserves)
      as [(d & w' & Hd & Hstop & Hfirst & Hh & Hn & ->)|(Hnever & w' & ->)].
    - left. exists d. eexists. cbn [Nat.add] in *.
      split; [exact Hd|]. split; [exact Hstop|]. split; [exact Hfirst|].
      unfold alloc. rewrite Hn. split; [reflexivity|].
      cbn [heap]. apply lookup_insert_eq.
    - right. split; [exact Hnever|]. by exists w'. }
  split; [|split].
  - intros n Hstop Hfirst fuel Hfuel.
    destruct (Hrun fuel)
      as [(d & w' & Hd & Hstopd & Hfirstd & Hret & Hheap)|(Hnever & _)].
    + assert (d = n) as ->.
      { destruct (Nat.lt_trichotomy d n) as [Hlt|[Heq|Hgt]]; [|done|].
        - by destruct (Hfirst d Hlt).
        - by destruct (Hfirstd n Hgt). }
      by exists w'.
    + by destruct (Hnever n Hfuel).
  - intros Hnever fuel.
    destruct (Hrun fuel) as [(d & w' & Hd & Hstopd & _)|(_ & Hout)];
      [by destruct (Hnever d)|exact Hout].
  - intros fuel l w' Hret.
    destruct (Hrun fuel)
      as [(d & w'' & Hd & Hstopd & _ & Hret' & Hheap)|(_ & w'' & Hout)].
    + rewrite Hret in Hret'. injection Hret' as -> ->. by exists d.
    + rewrite Hret in Hout. discriminate.
Qed.

(** * The orchestrators *)

(** ** Ozon: the price reconciler runs on what the stock reconciler left *)

(** On a list that holds no code of the sheet [create_prices] finds no row
    to price. *)
Lemma seller_prices_on_leftover (inv : list watch) (l : nat) (w : world)
    (ids : list string) :
  heap w !! l = Some (leftover_ids inv ids) →
  Seller.create_prices inv l w = (Ret [], w).
Proof.
  intros Hl. unfold Seller.create_prices.
  rewrite (seller_prices_loop_closed inv l [] w _ Hl).
  replace (filter (λ row, code row ∈ leftover_ids inv ids) inv) with (@nil watch);
    [reflexivity|].
  symmetry. apply filter_none. intros row Hrow Hin.
  apply list_elem_of_filter in Hin as [Hout _]. apply Hout.
  rewrite map_fmap. by apply list_elem_of_fmap_2.
Qed.

(** Once [create_stocks] has returned, the list behind [offer_ids] holds
    no code of the sheet any more, so [create_prices] on the same list
    finds no row to price. *)
Lemma seller_prices_after_stocks (inv : list watch) (l : nat) (w w' : world)
    (ids : list string) (out : list ozon_stock) :
  heap w !! l = Some ids →
  NoDup ids →
  Seller.create_stocks inv l w = (Ret out, w') →
  heap w' !! l = Some (leftover_ids inv ids)
  ∧ Seller.create_prices inv l w' = (Ret [], w').
Proof.
  intros Hl Hnd. rewrite seller_create_stocks_run.
  destruct (seller_stocks_loop_closed inv l [] w ids Hl Hnd) as (w1 & -> & Hleft).
  destruct (stock_entries (matched_rows inv ids)) as [entries|e]; [|discriminate].
  rewrite (Hleft entries eq_refl). intros [= <- <-].
  split; [by apply (Hleft entries)|].
  apply (seller_prices_on_leftover inv l w1 ids). by apply (Hleft entries).
Qed.

(** C3: in the run of [seller.main] over the small catalog the stock
    reconciler empties the shared list down to the unmatched id, and the
    price reconciler, called on the same list, finds nothing to price: no
    price update is sent.  On a list of its own, as [upload_prices] fetches
    one, the price reconciler prices both rows. *)
Theorem seller_main_prices_run_on_leftover_ids :
  let run := Seller.main 2 "client" "token" demo_world in
  let sibling :=
    (c <- Seller.upload_prices 2 demo_inventory "client" "token" ;; await c)
      demo_world in
  run.1 = Ret tt
  ∧ exchanges run.2
    = [OzonProductList "client" "token" "";
       OzonImportStocks "client" "token"
         [{| offer_id := "A1"; stock := 100 |};
          {| offer_id := "B2"; stock := 0 |};
          {| offer_id := "C3"; stock := 0 |}]]
  ∧ heap run.2 !! 0 = Some ["C3"]
  ∧ (Seller.create_prices demo_inventory 0 (demo_world_with ["C3"])).1 = Ret []
  ∧ (Seller.create_prices demo_inventory 0 (demo_world_with demo_catalog)).1
    = Ret [{| auto_action_enabled := "UNKNOWN"; currency_code := "RUB";
              price_offer_id := "A1"; old_price := "0"; price := "100" |};
           {| auto_action_enabled := "UNKNOWN"; currency_code := "RUB";
              price_offer_id := "B2"; old_price := "0"; price := "200" |}]
  ∧ exchanges sibling.2
    = [OzonProductList "client" "token" "";
       OzonImportPrices "client" "token"
         [{| auto_action_enabled := "UNKNOWN"; currency_code := "RUB";
             price_offer_id := "A1"; old_price := "0"; price := "100" |};
          {| auto_action_enabled := "UNKNOWN"; currency_code := "RUB";
             price_offer_id := "B2"; old_price := "0"; price := "200" |}]].
Proof. vm_compute. repeat split; reflexivity. Qed.

(** ** Yandex.Market: the price coroutines are never awaited *)

(** C4: in the run of [market.main] over the small catalog only the two
    listings and the two stock updates are sent: the coroutines made by
    [upload_prices] are dropped, so no catalog is fetched for the prices
    and no price update is sent.  Awaiting such a coroutine sends the price
    update. *)
Theorem market_main_drops_price_coroutines :
  let run := Market.main 2 demo_settings demo_world in
  let awaited :=
    (c <- Market.upload_prices 2 demo_inventory "fbs" "token" ;; await c)
      demo_world in
  let date := "2024-03-12T10:00:00Z" in
  run.1 = Ret tt
  ∧ exchanges run.2
    = [MarketOfferMapping "fbs" "token" "";
       MarketPutStocks "fbs" "token"
         [Market.stock_entry "A1" "w-fbs" 100 date;
          Market.stock_entry "B2" "w-fbs" 0 date;
          Market.stock_entry "C3" "w-fbs" 0 date];
       MarketOfferMapping "dbs" "token" "";
       MarketPutStocks "dbs" "token"
         [Market.stock_entry "A1" "w-dbs" 100 date;
          Market.stock_entry "B2" "w-dbs" 0 date;
          Market.stock_entry "C3" "w-dbs" 0 date]]
  ∧ exchanges awaited.2
    = [MarketOfferMapping "fbs" "token" "";
       MarketPriceUpdates "fbs" "token"
         [{| id := "A1"; price_value := 100; currencyId := "RUR" |};
          {| id := "B2"; price_value := 200; currencyId := "RUR" |}]].
Proof. vm_compute. repeat split; reflexivity. Qed.

(** The same holds in every run: [market.main] sends no price update. *)

Lemma quiet_ret {A} (a : A) : quiet (ret a).
Proof. by intros w Hw. Qed.

Lemma quiet_raise {A} (e : exn) : quiet (@raise A e).
Proof. by intros w Hw. Qed.

Lemma quiet_out_of_fuel {A} : quiet (@out_of_fuel A).
Proof. by intros w Hw. Qed.

Lemma quiet_lift {A} (r : res A) : quiet (lift r).
Proof. destruct r; [apply quiet_ret|apply quiet_raise]. Qed.

Lemma quiet_bind {A B} (c : M A) (k : A → M B) :
  quiet c → (∀ a, quiet (k a)) → quiet (bind c k).
Proof.
  intros Hc Hk w Hw. specialize (Hc w Hw). unfold bind.
  destruct (c w) as [[a|e|] w1]; cbn in *; [by apply Hk|done|done].
Qed.

Lemma quiet_catch {A} (c : M A) (h : exn → M A) :
  quiet c → (∀ e, quiet (h e)) → quiet (catch c h).
Proof.
  intros Hc Hh w Hw. specialize (Hc w Hw). unfold catch.
  destruct (c w) as [[a|e|] w1]; cbn in *; [done|by apply Hh|done].
Qed.

Lemma quiet_load (l : nat) : quiet (load l).
Proof. intros w Hw. unfold load. by destruct (heap w !! l). Qed.

Lemma quiet_store (l : nat) (ids : list string) : quiet (store l ids).
Proof. by intros w Hw. Qed.

Lemma quiet_alloc (ids : list string) : quiet (alloc ids).
Proof. by intros w Hw. Qed.

Lemma quiet_print (msg : string) : quiet (print msg).
Proof. by intros w Hw. Qed.

Lemma quiet_print_error (e : exn) (msg : string) :
  quiet (Seller.print_error e msg).
Proof. intros w. apply quiet_print. Qed.

Lemma quiet_http (q : request) : is_price_update q = false → quiet (http q).
Proof.
  intros Hq w Hw. unfold http.
  assert (Forall (λ q, is_price_update q = false) (exchanges w ++ [q])) as Hlog.
  { apply Forall_app. split; [exact Hw|]. by constructor. }
  by destruct (net w (length (exchanges w)) q).
Qed.

Lemma quiet_for_each {A} (l : list A) (body : A → M unit) :
  (∀ x, quiet (body x)) → quiet (for_each l body).
Proof.
  intros Hbody. induction l as [|x l IH]; [apply quiet_ret|].
  cbn [for_each]. apply quiet_bind; [apply Hbody|by intros _].
Qed.

Create HintDb quiet.
#[local] Hint Resolve quiet_ret quiet_raise quiet_out_of_fuel quiet_lift
  quiet_load quiet_store quiet_alloc quiet_print : quiet.

Ltac quiet_steps :=
  repeat first
    [ apply quiet_bind; [|intros ?]
    | apply quiet_for_each; intros ?
    | apply quiet_http; reflexivity
    | match goal with
      | |- quiet (if ?b then _ else _) => destruct b
      | |- quiet (match ?x with _ => _ end) => destruct x
      end
    | solve [eauto with quiet] ].

Lemma quiet_market_get_offer_ids (fuel : nat) (campaign_id market_token : string) :
  quiet (Market.get_offer_ids fuel campaign_id market_token).
Proof.
  unfold Market.get_offer_ids. apply quiet_bind; [|intros ?; apply quiet_alloc].
  generalize (@nil string) as product_list. generalize ""%string as page.
  induction fuel as [|fuel IH]; intros page product_list;
    cbn [Market.get_offer_ids_loop]; [apply quiet_out_of_fuel|].
  unfold Market.get_product_list. quiet_steps.
Qed.

Lemma quiet_market_create_stocks (inv : list watch) (l : nat)
    (warehouse_id : string) :
  quiet (Market.create_stocks inv l warehouse_id).
Proof.
  unfold Market.create_stocks. apply quiet_bind; [by intros w Hw|intros date].
  apply quiet_bind; [|intros ?; quiet_steps].
  generalize (@nil market_stock) as stocks.
  induction inv as [|row rest IH]; intros stocks;
    cbn [Market.create_stocks_loop]; [apply quiet_ret|].
  quiet_steps.
Qed.

(** X18: no run of [market.main] sends a price update, whatever the
    settings, the sheet and the answers of the server: a log that holds
    none before the run holds none after it. *)
Lemma market_main_sends_no_price_update (fuel : nat) (env : Market.settings) :
  quiet (Market.main fuel env).
Proof.
  unfold Market.main, Seller.download_stock.
  apply quiet_bind; [by intros w Hw|intros watch_remnants].
  apply quiet_catch;
    [|intros e; destruct e; first [apply quiet_print|apply quiet_print_error]].
  unfold Market.upload_prices, Market.update_stocks.
  repeat first
    [ apply quiet_market_get_offer_ids
    | apply quiet_market_create_stocks
    | apply quiet_bind; [|intros ?]
    | apply quiet_for_each; intros ?
    | apply quiet_http; reflexivity
    | solve [eauto with quiet] ].
Qed.

(** ** Ozon again: no price update in any run over a catalog without
    duplicates *)

Lemma keeps_heap_http (q : request) : keeps_heap (http q).
Proof. intros w. unfold http. by destruct (net w (length (exchanges w)) q). Qed.

Lemma keeps_heap_bind {A B} (c : M A) (k : A → M B) :
  keeps_heap c → (∀ a, keeps_heap (k a)) → keeps_heap (bind c k).
Proof.
  intros Hc Hk w. specialize (Hc w). unfold bind.
  destruct (c w) as [[a|e|] w1]; cbn in *; [|done|done].
  by rewrite Hk.
Qed.

Lemma keeps_heap_for_each {A} (l : list A) (body : A → M unit) :
  (∀ x, keeps_heap (body x)) → keeps_heap (for_each l body).
Proof.
  intros Hbody. induction l as [|x l IH]; [by intros w|].
  cbn [for_each]. apply keeps_heap_bind; [apply Hbody|by intros _].
Qed.

Lemma quiet_seller_get_offer_ids (fuel : nat) (client_id seller_token : string) :
  quiet (Seller.get_offer_ids fuel client_id seller_token).
Proof.
  unfold Seller.get_offer_ids. apply quiet_bind; [|intros ?; apply quiet_alloc].
  generalize (@nil string) as product_list. generalize ""%string as last.
  induction fuel as [|fuel IH]; intros last product_list;
    cbn [Seller.get_offer_ids_loop]; [apply quiet_out_of_fuel|].
  unfold Seller.get_product_list. quiet_steps.
Qed.

Lemma quiet_seller_create_stocks (inv : list watch) (l : nat) :
  quiet (Seller.create_stocks inv l).
Proof.
  unfold Seller.create_stocks. apply quiet_bind; [|intros ?; quiet_steps].
  generalize (@nil ozon_stock) as stocks.
  induction inv as [|row rest IH]; intros stocks;
    cbn [Seller.create_stocks_loop]; [apply quiet_ret|].
  quiet_steps.
Qed.

Lemma quiet_report (e : exn) : quiet (Seller.report e).
Proof. destruct e; first [apply quiet_print|apply quiet_print_error]. Qed.

(** X19: whenever the fetched catalog has no duplicates, [seller.main]
    sends no price update: the price reconciler gets the list that the
    stock reconciler has emptied of every code of the sheet. *)
Lemma seller_main_sends_no_price_update (fuel : nat)
    (client_id seller_token : string) (w : world) :
  (∀ l w1, Seller.get_offer_ids fuel client_id seller_token w = (Ret l, w1) →
           ∃ ids, heap w1 !! l = Some ids ∧ NoDup ids) →
  Forall (λ q, is_price_update q = false) (exchanges w) →
  Forall (λ q, is_price_update q = false)
    (exchanges (Seller.main fuel client_id seller_token w).2).
Proof.
  intros Hcatalog Hw. unfold Seller.main, catch, bind.
  pose proof (quiet_seller_get_offer_ids fuel client_id seller_token w Hw) as Q1.
  destruct (Seller.get_offer_ids fuel client_id seller_token w)
    as [[l|e|] w1] eqn:Hget; cbn [snd] in Q1;
    [|by apply quiet_report|exact Q1].
  destruct (Hcatalog l w1 eq_refl) as (ids & Hl & Hnd).
  unfold Seller.download_stock.
  pose proof (quiet_seller_create_stocks (ostatki w1) l w1 Q1) as Q2.
  destruct (Seller.create_stocks (ostatki w1) l w1)
    as [[stocks|e|] w2] eqn:Hstocks; cbn [snd] in Q2;
    [|by apply quiet_report|exact Q2].
  destruct (seller_prices_after_stocks _ l w1 w2 ids stocks Hl Hnd Hstocks)
    as [Hleft _].
  rewrite divide_positive by lia. cbn [lift]. unfold ret at 1.
  set (upload := for_each _ _).
  assert (quiet upload) as Qup.
  { apply quiet_for_each. intros chunk. unfold Seller.update_stocks.
    quiet_steps. }
  assert (keeps_heap upload) as Kup.
  { apply keeps_heap_for_each. intros chunk. unfold Seller.update_stocks.
    apply keeps_heap_bind; [apply keeps_heap_http|by intros ? ?]. }
  specialize (Qup w2 Q2). specialize (Kup w2).
  destruct (upload w2) as [[[]|e|] w3]; cbn [snd] in Qup, Kup;
    [|by apply quiet_report|exact Qup].
  rewrite (seller_prices_on_leftover (ostatki w1) l w3 ids)
    by (by rewrite Kup).
  exact Qup.
Qed.

(** * The theorems on the small catalog *)

Lemma create_stocks_covers_catalog_witness :
  (∃ w',
     Seller.create_stocks demo_inventory 0 (demo_world_with demo_catalog)
     = (Ret [{| offer_id := "A1"; stock := 100 |};
             {| offer_id := "B2"; stock := 0 |};
             {| offer_id := "C3"; stock := 0 |}], w'))
  ∧ (Seller.create_stocks (take 4 literal_inventory) 0
       (demo_world_with literal_catalog)).1
    = Ret [{| offer_id := "A1"; stock := 100 |};
           {| offer_id := "B2"; stock := 0 |};
           {| offer_id := "C3"; stock := 34 |};
           {| offer_id := "D4"; stock := -10 |};
           {| offer_id := "E5"; stock := 0 |};
           {| offer_id := "F6"; stock := 0 |}]
  ∧ (Seller.create_stocks literal_inventory 0
       (demo_world_with literal_catalog)).1
    = Raise ValueError.
Proof.
  assert (NoDup demo_catalog) as Hnd
    by (apply (bool_decide_unpack _); vm_compute; exact I).
  assert (NoDup literal_catalog) as Hnd'
    by (apply (bool_decide_unpack _); vm_compute; exact I).
  split; [|split].
  - destruct (create_stocks_covers_catalog demo_inventory 0
                (demo_world_with demo_catalog) demo_catalog eq_refl Hnd)
      as (_ & _ & w' & Hrun).
    exists w'. exact (proj1 Hrun).
  - destruct (create_stocks_covers_catalog (take 4 literal_inventory) 0
                (demo_world_with literal_catalog) literal_catalog eq_refl Hnd')
      as (_ & _ & w' & Hrun).
    assert (Seller.create_stocks (take 4 literal_inventory) 0
              (demo_world_with literal_catalog)
            = (Ret [{| offer_id := "A1"; stock := 100 |};
                    {| offer_id := "B2"; stock := 0 |};
                    {| offer_id := "C3"; stock := 34 |};
                    {| offer_id := "D4"; stock := -10 |};
                    {| offer_id := "E5"; stock := 0 |};
                    {| offer_id := "F6"; stock := 0 |}], w')) as Hout
      by exact (proj1 Hrun).
    by rewrite Hout.
  - destruct (create_stocks_covers_catalog literal_inventory 0
                (demo_world_with literal_catalog) literal_catalog eq_refl Hnd')
      as (_ & _ & w' & Hrun).
    assert (Seller.create_stocks literal_inventory 0
              (demo_world_with literal_catalog)
            = (Raise ValueError, w')) as Hout
      by exact (proj1 Hrun).
    by rewrite Hout.
Defined.

Lemma create_prices_only_matched_rows_witness :
  Seller.create_prices demo_inventory 0 (demo_world_with demo_catalog)
  = (Ret [{| auto_action_enabled := "UNKNOWN"; currency_code := "RUB";
             price_offer_id := "A1"; old_price := "0"; price := "100" |};
          {| auto_action_enabled := "UNKNOWN"; currency_code := "RUB";
             price_offer_id := "B2"; old_price := "0"; price := "200" |}],
     demo_world_with demo_catalog)
  ∧ Market.create_prices demo_inventory 0 (demo_world_with demo_catalog)
    = (Ret [{| id := "A1"; price_value := 100; currencyId := "RUR" |};
            {| id := "B2"; price_value := 200; currencyId := "RUR" |}],
       demo_world_with demo_catalog).
Proof.
  destruct (create_prices_only_matched_rows demo_inventory 0
              (demo_world_with demo_catalog) demo_catalog eq_refl)
    as [Hozon Hmarket].
  split; [exact (proj1 Hozon)|exact (proj1 Hmarket)].
Defined.

Lemma price_without_digits_fails_market_prices_witness :
  Market.create_prices
    [{| kod := VStr "A1"; kolichestvo := VStr "5"; tsena := VStr "руб." |}]
    0 (demo_world_with demo_catalog)
  = (Raise ValueError, demo_world_with demo_catalog).
Proof.
  destruct price_without_digits_fails_market_prices as (_ & _ & _ & _ & Hfails).
  destruct (Hfails
              [{| kod := VStr "A1"; kolichestvo := VStr "5"; tsena := VStr "руб." |}]
              0 (demo_world_with demo_catalog) demo_catalog
              {| kod := VStr "A1"; kolichestvo := VStr "5"; tsena := VStr "руб." |}
              "руб." eq_refl (list_elem_of_here _ _) (list_elem_of_here _ _)
              eq_refl eq_refl) as (_ & _ & Hvalue).
  apply Hvalue. intros r Hr. apply list_elem_of_singleton in Hr as ->.
  by eexists.
Defined.

Lemma overshoot_count (n : nat) :
  length (accumulated (λ _, overshoot_page) n) = 2 * n.
Proof.
  induction n as [|n IH]; [reflexivity|].
  rewrite accumulated_S, length_app, IH. cbn. lia.
Defined.

Lemma get_offer_ids_needs_exact_total_witness :
  (∃ w', Seller.get_offer_ids 1 "client" "token" demo_world = (Ret 0, w')
         ∧ heap w' !! 0 = Some demo_catalog)
  ∧ (∀ fuel, ∃ w', Seller.get_offer_ids fuel "client" "token" overshoot_world
                   = (OutOfFuel, w')).
Proof.
  split.
  - destruct (get_offer_ids_needs_exact_total "client" "token"
                (λ _, {| items := demo_catalog; total := 3; last_id := "C3" |})
                demo_world (λ j, eq_refl)) as (Hstops & _ & _).
    apply (Hstops 0); [reflexivity|intros i Hi; lia|lia].
  - destruct (get_offer_ids_needs_exact_total "client" "token"
                (λ _, overshoot_page) overshoot_world (λ j, eq_refl))
      as (_ & Hnever & _).
    apply Hnever. intros n. unfold stops_at. rewrite overshoot_count.
    cbn [total overshoot_page]. lia.
Defined.


(** * Further properties of the price normalizer *)

Lemma chars_app (s t : string) : chars (s +:+ t) = chars s ++ chars t.
Proof.
  unfold chars. induction s as [|c s IH]; [reflexivity|].
  simpl. by f_equal.
Qed.

Lemma chars_inj (s t : string) : chars s = chars t → s = t.
Proof.
  unfold chars. intros H.
  rewrite <-(String.string_of_list_ascii_of_string s),
          <-(String.string_of_list_ascii_of_string t).
  by rewrite H.
Qed.

(** [split] of a string that holds no separator answers the string. *)
Lemma py_split_no_sep (sep : ascii) (s : string) :
  sep ∉ chars s → py_split sep s = [s].
Proof.
  induction s as [|c r IH]; [reflexivity|].
  unfold chars in *. cbn [String.list_ascii_of_string py_split].
  rewrite not_elem_of_cons. intros [Hne Hr].
  destruct (Ascii.eqb_spec c sep) as [->|_]; [done|].
  by rewrite (IH Hr).
Qed.

Lemma re_sub_non_digits_fixed (s : string) :
  Forall (λ c, c ∈ decimal_digits) (chars s) → re_sub_non_digits s = s.
Proof.
  induction s as [|c r IH]; [reflexivity|].
  unfold chars in *. cbn [String.list_ascii_of_string re_sub_non_digits].
  intros [Hc Hr]%Forall_cons. rewrite is_digit_decimal.
  rewrite bool_decide_eq_true_2 by exact Hc. by rewrite (IH Hr).
Qed.

Lemma price_conversion_fixed (s : string) :
  Forall (λ c, c ∈ decimal_digits) (chars s) → Seller.price_conversion s = s.
Proof.
  intros Hdigits. unfold Seller.price_conversion.
  rewrite py_split_no_sep; [by apply re_sub_non_digits_fixed|].
  intros Hdot. rewrite Forall_forall in Hdigits.
  specialize (Hdigits _ Hdot). vm_compute in Hdigits.
  by repeat (apply elem_of_cons in Hdigits as [?|Hdigits]; [discriminate|]);
     apply elem_of_nil in Hdigits.
Qed.

Lemma price_conversion_chars_digits (price : string) :
  Forall (λ c, c ∈ decimal_digits) (chars (Seller.price_conversion price)).
Proof.
  destruct (py_split_first "." price) as (first & pieces & Hsplit & _).
  unfold Seller.price_conversion. rewrite Hsplit, re_sub_non_digits_chars.
  apply Forall_forall. intros c Hc. by apply list_elem_of_filter in Hc as [? _].
Qed.

(** X1: a price that [price_conversion] has put out goes through it
    unchanged: normalizing twice is normalizing once, and a string of
    decimal digits is its own normal form. *)
Theorem price_conversion_idempotent :
  (∀ price, Seller.price_conversion (Seller.price_conversion price)
            = Seller.price_conversion price)
  ∧ (∀ digits, Forall (λ c, c ∈ decimal_digits) (chars digits) →
               Seller.price_conversion digits = digits).
Proof.
  split; [|apply price_conversion_fixed].
  intros price. apply price_conversion_fixed, price_conversion_chars_digits.
Qed.

Lemma price_conversion_idempotent_witness :
  Seller.price_conversion "5990" = "5990".
Proof.
  apply (proj2 price_conversion_idempotent).
  apply Forall_forall. intros c Hc. vm_compute in Hc.
  repeat (apply elem_of_cons in Hc as [->|Hc];
          [apply (bool_decide_unpack _); vm_compute; exact I|]).
  by apply elem_of_nil in Hc.
Defined.

(** * Decimal numerals and [int()] *)

Lemma decimal_digit_cases (c : ascii) :
  c ∈ decimal_digits →
  c = "0"%char ∨ c = "1"%char ∨ c = "2"%char ∨ c = "3"%char ∨ c = "4"%char
  ∨ c = "5"%char ∨ c = "6"%char ∨ c = "7"%char ∨ c = "8"%char ∨ c = "9"%char.
Proof.
  unfold decimal_digits. rewrite !elem_of_cons, elem_of_nil. tauto.
Qed.

Lemma decimal_digit_facts (c : ascii) :
  c ∈ decimal_digits →
  is_digit c = true ∧ is_space c = false ∧ (0 ≤ digit_value c ≤ 9)%Z.
Proof.
  intros Hc. apply decimal_digit_cases in Hc.
  repeat (destruct Hc as [->|Hc]; [by vm_compute|]). subst. by vm_compute.
Qed.

Lemma parse_digits_after_digit (acc : Z) (s : string) :
  Forall (λ c, c ∈ decimal_digits) (chars s) →
  parse_digits acc true s
  = Some (fold_left (λ a c, (10 * a + digit_value c)%Z) (chars s) acc).
Proof.
  revert acc. induction s as [|c r IH]; intros acc; [reflexivity|].
  unfold chars in *. cbn [String.list_ascii_of_string parse_digits fold_left].
  intros [Hc Hr]%Forall_cons.
  destruct (decimal_digit_facts c Hc) as (-> & _ & _). by apply IH.
Qed.

Lemma lstrip_head (c : ascii) (r : string) :
  is_space c = false → lstrip (String c r) = String c r.
Proof. intros H. cbn. by rewrite H. Qed.

Lemma rstrip_no_space (s : string) :
  Forall (λ c, is_space c = false) (chars s) → rstrip s = s.
Proof.
  induction s as [|c r IH]; [reflexivity|].
  unfold chars in *. cbn [String.list_ascii_of_string rstrip].
  intros [Hc Hr]%Forall_cons. rewrite (IH Hr), Hc. by destruct r.
Qed.

(** A string of code points below 127 is its own ASCII form. *)
Lemma to_ascii_decimal_plain (s : string) :
  Forall (λ c, (N_of_ascii c < 127)%N) (chars s) → to_ascii_decimal s = s.
Proof.
  unfold to_ascii_decimal, chars. induction s as [|c r IH]; [reflexivity|].
  cbn [String.list_ascii_of_string]. intros [Hc Hr]%Forall_cons.
  cbn [code_points].
  destruct (N.ltb_spec (N_of_ascii c) 128) as [_|?]; [|lia].
  cbn [map String.string_of_list_ascii ascii_of_code_point].
  destruct (N.ltb_spec (N_of_ascii c) 127) as [_|?]; [|lia].
  by rewrite ascii_N_embedding, (IH Hr).
Qed.

Lemma decimal_digit_plain (c : ascii) :
  c ∈ decimal_digits → (N_of_ascii c < 127)%N.
Proof.
  intros Hc. apply decimal_digit_cases in Hc.
  repeat (destruct Hc as [->|Hc]; [by vm_compute|]). subst. by vm_compute.
Qed.

Lemma digits_plain (s : string) :
  Forall (λ c, c ∈ decimal_digits) (chars s) →
  Forall (λ c, (N_of_ascii c < 127)%N) (chars s).
Proof. intros H. eapply Forall_impl; [exact H|]. apply decimal_digit_plain. Qed.

(** [int()] reads a string of decimal digits as the number it denotes. *)
Lemma int_of_string_digits (s : string) :
  s ≠ "" →
  Forall (λ c, c ∈ decimal_digits) (chars s) →
  int_of_string s = Some (decimal_value s).
Proof.
  intros Hne Hdigits. destruct s as [|c r]; [done|].
  unfold int_of_string. rewrite (to_ascii_decimal_plain _ (digits_plain _ Hdigits)).
  assert (Forall (λ c, is_space c = false) (chars (String c r))) as Hnospace.
  { eapply Forall_impl; [exact Hdigits|]. intros d Hd.
    by destruct (decimal_digit_facts d Hd) as (_ & ? & _). }
  pose proof Hdigits as [Hc Hr]%Forall_cons.
  rewrite lstrip_head by (by destruct (decimal_digit_facts c Hc) as (_ & ? & _)).
  rewrite rstrip_no_space by exact Hnospace.
  unfold decimal_value, chars. cbn [String.list_ascii_of_string fold_left].
  rewrite <-(parse_digits_after_digit _ r Hr).
  apply decimal_digit_cases in Hc.
  repeat (destruct Hc as [->|Hc]; [reflexivity|]). subst. reflexivity.
Qed.

Lemma decimal_fold_nonneg (l : list ascii) (acc : Z) :
  (0 ≤ acc)%Z →
  Forall (λ c, c ∈ decimal_digits) l →
  (0 ≤ fold_left (λ a c, (10 * a + digit_value c)%Z) l acc)%Z.
Proof.
  revert acc. induction l as [|c l IH]; intros acc Hacc; [done|].
  intros [Hc Hl]%Forall_cons. cbn [fold_left]. apply IH; [|exact Hl].
  destruct (decimal_digit_facts c Hc) as (_ & _ & ?). lia.
Qed.

Lemma decimal_value_nonneg (s : string) :
  Forall (λ c, c ∈ decimal_digits) (chars s) → (0 ≤ decimal_value s)%Z.
Proof. intros H. by apply decimal_fold_nonneg. Qed.

(** X2: for a text price the Yandex.Market reconciler takes the number
    that the digits before the first period denote; the price is never
    negative, and a price with no such digit is refused with a
    [ValueError]. *)
Theorem market_price_of_text_cell (row : watch) (text : string) :
  tsena row = VStr text →
  Market.resolve_price row
  = (if decide (Seller.price_conversion text = "") then Exc ValueError
     else Ok (decimal_value (Seller.price_conversion text)))
  ∧ (∀ v, Market.resolve_price row = Ok v → (0 ≤ v)%Z).
Proof.
  intros Htext.
  assert (Market.resolve_price row
          = (if decide (Seller.price_conversion text = "") then Exc ValueError
             else Ok (decimal_value (Seller.price_conversion text)))) as Hprice.
  { unfold Market.resolve_price. rewrite Htext. cbn [Seller.price_conversion_value
      res_bind py_int].
    case_decide as Hempty; [by rewrite Hempty|].
    by rewrite (int_of_string_digits _ Hempty
                  (price_conversion_chars_digits text)). }
  split; [exact Hprice|].
  intros v. rewrite Hprice. case_decide; [discriminate|].
  intros [= <-]. apply decimal_value_nonneg, price_conversion_chars_digits.
Qed.

Lemma market_price_of_text_cell_witness :
  Market.resolve_price
    {| kod := VStr "A1"; kolichestvo := VStr "3"; tsena := VStr "5'990.60 руб." |}
  = Ok 5990%Z.
Proof.
  exact (proj1 (market_price_of_text_cell
                  {| kod := VStr "A1"; kolichestvo := VStr "3";
                     tsena := VStr "5'990.60 руб." |}
                  "5'990.60 руб." eq_refl)).
Defined.

(** ** [str()] of an integer and back *)

Lemma pretty_N_char_digit (y : N) :
  (y < 10)%N →
  pretty_N_char y ∈ decimal_digits ∧ digit_value (pretty_N_char y) = Z.of_N y.
Proof.
  intros Hy.
  assert (y = 0 ∨ y = 1 ∨ y = 2 ∨ y = 3 ∨ y = 4 ∨ y = 5 ∨ y = 6 ∨ y = 7
          ∨ y = 8 ∨ y = 9)%N as Hcases by lia.
  repeat (destruct Hcases as [->|Hcases];
          [split; [apply (bool_decide_unpack _); by vm_compute|reflexivity]|]).
  subst. split; [apply (bool_decide_unpack _); by vm_compute|reflexivity].
Qed.

Lemma pretty_N_go_numeral (x : N) (s : string) :
  ∃ t, pretty_N_go x s = t +:+ s
       ∧ Forall (λ c, c ∈ decimal_digits) (chars t)
       ∧ decimal_value t = Z.of_N x
       ∧ ((0 < x)%N → t ≠ "").
Proof.
  revert s. induction (N.lt_wf_0 x) as [x _ IH]; intros s.
  destruct (decide (x = 0%N)) as [->|Hpos].
  - exists "". rewrite pretty_N_go_0. repeat split; [constructor|lia].
  - rewrite pretty_N_go_step by lia.
    destruct (IH (x `div` 10)%N) with (s := String (pretty_N_char (x `mod` 10)) s)
      as (t & -> & Hdigits & Hvalue & _).
    { apply N.div_lt; lia. }
    destruct (pretty_N_char_digit (x `mod` 10)%N) as [Hd Hdv].
    { apply N.mod_lt. lia. }
    exists (t +:+ String (pretty_N_char (x `mod` 10)) "").
    split; [|split; [|split]].
    + apply chars_inj. rewrite !chars_app. unfold chars at 2 4 5. cbn.
      by rewrite <-app_assoc.
    + rewrite chars_app. apply Forall_app. split; [exact Hdigits|].
      unfold chars. cbn. constructor; [exact Hd|constructor].
    + unfold decimal_value in *. rewrite chars_app, fold_left_app, Hvalue.
      unfold chars. cbn [String.list_ascii_of_string fold_left]. rewrite Hdv.
      rewrite (N.div_mod x 10) at 3 by lia. lia.
    + intros _ Hempty. apply (f_equal chars) in Hempty.
      rewrite chars_app in Hempty. unfold chars at 2 3 in Hempty. cbn in Hempty.
      by destruct (chars t).
Qed.

(** [str(z)] is a non-empty string of decimal digits that denotes [|z|],
    after a minus sign when [z] is negative. *)
Lemma pretty_Z_numeral (z : Z) :
  ∃ t, t ≠ ""
       ∧ Forall (λ c, c ∈ decimal_digits) (chars t)
       ∧ decimal_value t = Z.abs z
       ∧ pretty z = (if (z <? 0)%Z then "-" +:+ t else t).
Proof.
  assert (∀ p : positive,
            ∃ t, t ≠ "" ∧ Forall (λ c, c ∈ decimal_digits) (chars t)
                 ∧ decimal_value t = Z.pos p ∧ pretty p = t) as Hpos.
  { intros p. unfold pretty, pretty_positive, pretty, pretty_N.
    rewrite decide_False by done.
    destruct (pretty_N_go_numeral (N.pos p) "") as (t & Ht & Hd & Hv & Hne).
    exists t. split; [by apply Hne|]. split; [exact Hd|]. split; [by rewrite Hv|].
    rewrite Ht. apply chars_inj. rewrite chars_app. unfold chars at 2. cbn.
    by rewrite app_nil_r. }
  destruct z as [|p|p].
  - exists "0". split; [done|]. split; [|split; reflexivity].
    unfold chars. cbn. constructor; [|constructor].
    apply (bool_decide_unpack _). by vm_compute.
  - destruct (Hpos p) as (t & ? & ? & ? & ?). by exists t.
  - destruct (Hpos p) as (t & ? & ? & ? & Ht). exists t.
    repeat split; [done..|].
    change (pretty (Z.neg p)) with ("-" +:+ pretty p). by rewrite Ht.
Qed.

Lemma int_of_string_pretty (z : Z) : int_of_string (pretty z) = Some z.
Proof.
  destruct (pretty_Z_numeral z) as (t & Hne & Hdigits & Hvalue & ->).
  destruct (Z.ltb_spec z 0) as [Hneg|Hnonneg].
  - unfold int_of_string. change ("-" +:+ t) with (String "-" t).
    rewrite to_ascii_decimal_plain.
    2: { unfold chars. cbn [String.list_ascii_of_string].
         constructor; [by vm_compute|]. by apply digits_plain. }
    rewrite lstrip_head by reflexivity.
    rewrite rstrip_no_space.
    2: { unfold chars. cbn [String.list_ascii_of_string]. constructor; [done|].
         eapply Forall_impl; [exact Hdigits|]. intros d Hd.
         by destruct (decimal_digit_facts d Hd) as (_ & ? & _). }
    change (parse_literal (String "-" t)) with (Z.opp <$> parse_digits 0 false t).
    destruct t as [|c r]; [done|].
    assert (parse_digits 0 false (String c r) = Some (decimal_value (String c r)))
      as ->.
    { pose proof Hdigits as [Hc Hr]%Forall_cons.
      unfold decimal_value, chars. cbn [String.list_ascii_of_string fold_left].
      rewrite <-(parse_digits_after_digit _ r Hr). cbn [parse_digits].
      by destruct (decimal_digit_facts c Hc) as (-> & _ & _). }
    rewrite Hvalue. cbn [fmap option_fmap option_map]. f_equal. lia.
  - rewrite (int_of_string_digits t Hne Hdigits). f_equal. lia.
Qed.

(** X3: a quantity that is an integer cell, or a text cell that holds the
    decimal numeral of an integer, resolves to that very integer, negative
    ones included; the only exception is 1, which resolves to 0. *)
Theorem resolve_stock_of_numeral (row : watch) (z : Z) :
  kolichestvo row = VInt z ∨ kolichestvo row = VStr (pretty z) →
  Seller.resolve_stock row = Ok (if decide (z = 1%Z) then 0%Z else z).
Proof.
  intros Hcell.
  assert (py_str (kolichestvo row) = pretty z) as Htoken
    by (by destruct Hcell as [->| ->]).
  assert (py_int (kolichestvo row) = Ok z) as Hint.
  { destruct Hcell as [->| ->]; [reflexivity|].
    cbn [py_int]. by rewrite int_of_string_pretty. }
  unfold Seller.resolve_stock. rewrite Htoken, Hint.
  destruct (String.eqb_spec (pretty z) ">10") as [H10|_].
  { destruct (pretty_Z_numeral z) as (t & Hne & Hdigits & _ & Hshape).
    rewrite H10 in Hshape. destruct (z <? 0)%Z; [discriminate|].
    subst t. apply Forall_cons in Hdigits as [Hgt _].
    apply decimal_digit_cases in Hgt.
    repeat (destruct Hgt as [Hgt|Hgt]; [discriminate|]). discriminate. }
  destruct (String.eqb_spec (pretty z) "1") as [H1|Hn1].
  - assert (z = 1%Z) as -> by (by apply (inj pretty)). reflexivity.
  - case_decide as Hz; [|reflexivity]. subst z. by destruct Hn1.
Qed.

Lemma resolve_stock_of_numeral_witness :
  Seller.resolve_stock
    {| kod := VStr "A1"; kolichestvo := VStr "-7"; tsena := VNone |}
  = Ok (-7)%Z.
Proof.
  exact (resolve_stock_of_numeral
           {| kod := VStr "A1"; kolichestvo := VStr "-7"; tsena := VNone |}
           (-7) (or_intror eq_refl)).
Defined.

(** * The literals of [int()] *)

Lemma is_space_blank (c : ascii) : is_space c = bool_decide (c ∈ blank_chars).
Proof.
  destruct c as [[] [] [] [] [] [] [] []]; vm_compute; reflexivity.
Qed.

Lemma string_app_assoc (s t u : string) : (s +:+ t) +:+ u = s +:+ t +:+ u.
Proof. apply chars_inj. by rewrite !chars_app, app_assoc. Qed.

Lemma string_app_cons (c : ascii) (s t : string) :
  String c s +:+ t = String c (s +:+ t).
Proof. reflexivity. Qed.

Lemma string_app_nil_l (t : string) : "" +:+ t = t.
Proof. reflexivity. Qed.

Lemma string_app_nil_r (s : string) : s +:+ "" = s.
Proof. apply chars_inj. rewrite chars_app. apply app_nil_r. Qed.

(** What [lstrip] and [rstrip] drop is white space. *)
Lemma lstrip_split (t : string) :
  ∃ lead, t = lead +:+ lstrip t ∧ blanks lead.
Proof.
  induction t as [|c r (lead & Hr & Hlead)].
  - exists "". split; [reflexivity|constructor].
  - cbn [lstrip]. destruct (is_space c) eqn:Hc.
    + exists (String c lead). split; [rewrite string_app_cons; by f_equal|].
      constructor; [|exact Hlead].
      rewrite is_space_blank in Hc. by apply bool_decide_eq_true in Hc.
    + exists "". split; [reflexivity|constructor].
Qed.

Lemma rstrip_split (t : string) :
  ∃ trail, t = rstrip t +:+ trail ∧ blanks trail.
Proof.
  induction t as [|c r (trail & Hr & Htrail)].
  - exists "". split; [reflexivity|constructor].
  - cbn [rstrip]. destruct (rstrip r) as [|c' r'] eqn:Hstrip.
    + destruct (is_space c) eqn:Hc.
      * exists (String c r). split; [reflexivity|].
        constructor; [|by rewrite Hr].
        rewrite is_space_blank in Hc. by apply bool_decide_eq_true in Hc.
      * exists trail. split; [rewrite string_app_cons, string_app_nil_l; by f_equal|exact Htrail].
    + exists trail. split; [|exact Htrail]. rewrite !string_app_cons. by do 2 f_equal.
Qed.

Lemma lstrip_blanks (lead t : string) :
  blanks lead → lstrip (lead +:+ t) = lstrip t.
Proof.
  unfold blanks, chars. induction lead as [|c r IH]; [reflexivity|].
  cbn [String.list_ascii_of_string]. intros [Hc Hr]%Forall_cons.
  rewrite string_app_cons. cbn [lstrip]. rewrite is_space_blank.
  rewrite bool_decide_eq_true_2 by exact Hc. by apply IH.
Qed.

Lemma rstrip_blanks (trail : string) : blanks trail → rstrip trail = "".
Proof.
  unfold blanks, chars. induction trail as [|c r IH]; [reflexivity|].
  cbn [String.list_ascii_of_string]. intros [Hc Hr]%Forall_cons.
  cbn [rstrip]. rewrite (IH Hr), is_space_blank.
  by rewrite bool_decide_eq_true_2 by exact Hc.
Qed.

Lemma rstrip_snoc (s trail : string) (d : ascii) :
  is_space d = false → blanks trail →
  rstrip ((s +:+ String d "") +:+ trail) = s +:+ String d "".
Proof.
  intros Hd Htrail. induction s as [|c r IH].
  - rewrite string_app_nil_l, string_app_cons, string_app_nil_l.
    cbn [rstrip]. by rewrite (rstrip_blanks _ Htrail), Hd.
  - rewrite !string_app_cons. cbn [rstrip].
    rewrite <-string_app_cons, IH. by destruct r.
Qed.

(** The digits that [parse_digits] accepts make a numeral. *)
Lemma numeral_parse (s : string) (n : Z) (rest : string) :
  numeral s n →
  parse_digits 0 false (s +:+ rest) = parse_digits n true rest.
Proof.
  intros Hs. revert rest. induction Hs as [d Hd|s n d _ IH Hd|s n d _ IH Hd];
    intros rest.
  - rewrite string_app_cons, string_app_nil_l. cbn [parse_digits].
    by destruct (decimal_digit_facts d Hd) as (-> & _ & _).
  - rewrite string_app_assoc, IH, string_app_cons, string_app_nil_l.
    cbn [parse_digits].
    by destruct (decimal_digit_facts d Hd) as (-> & _ & _).
  - rewrite string_app_assoc, IH, !string_app_cons, string_app_nil_l.
    cbn [parse_digits].
    change (is_digit "_") with false. change (Ascii.eqb "_" "_") with true.
    cbn [andb].
    by destruct (decimal_digit_facts d Hd) as (-> & _ & _).
Qed.

Lemma is_digit_elem (c : ascii) : is_digit c = true → c ∈ decimal_digits.
Proof. rewrite is_digit_decimal. apply bool_decide_eq_true. Qed.

Lemma parse_numeral (rest : string) :
  ∀ s n z, numeral s n →
    (parse_digits n true rest = Some z → numeral (s +:+ rest) z)
    ∧ (parse_digits n false rest = Some z →
       numeral (s +:+ String "_" rest) z).
Proof.
  induction rest as [|c r IH]; intros s n z Hs.
  - cbn [parse_digits]. split; [|discriminate].
    intros [= <-]. by rewrite string_app_nil_r.
  - cbn [parse_digits]. destruct (is_digit c) eqn:Hc.
    + apply is_digit_elem in Hc. split; intros Hrun.
      * destruct (IH (s +:+ String c "") (10 * n + digit_value c)%Z z)
          as [Hgo _]; [by apply numeral_next|].
        specialize (Hgo Hrun). by rewrite string_app_assoc in Hgo.
      * destruct (IH (s +:+ String "_" (String c ""))
                    (10 * n + digit_value c)%Z z)
          as [Hgo _]; [by apply numeral_underscore|].
        specialize (Hgo Hrun). by rewrite string_app_assoc in Hgo.
    + destruct (Ascii.eqb_spec c "_") as [->|Hne]; cbn [andb].
      * split; [|discriminate]. intros Hrun. by apply (IH s n z Hs).
      * split; discriminate.
Qed.

(** [parse_digits] accepts the numerals, and reads each as its number. *)
Lemma parse_digits_numeral (s : string) (z : Z) :
  parse_digits 0 false s = Some z ↔ numeral s z.
Proof.
  split.
  - destruct s as [|c r]; [discriminate|]. cbn [parse_digits].
    destruct (is_digit c) eqn:Hc.
    + apply is_digit_elem in Hc. intros Hrun.
      by apply (parse_numeral r (String c "") (digit_value c) z
                  (numeral_digit c Hc)).
    + by rewrite andb_false_r.
  - intros Hs. rewrite <-(string_app_nil_r s).
    by rewrite (numeral_parse s z "" Hs).
Qed.

Lemma numeral_head (s : string) (n : Z) :
  numeral s n → ∃ d r, s = String d r ∧ d ∈ decimal_digits.
Proof.
  induction 1 as [d Hd|s n d _ (d0 & r0 & -> & Hd0) _
                 |s n d _ (d0 & r0 & -> & Hd0) _].
  - by exists d, "".
  - by exists d0, (r0 +:+ String d "").
  - by exists d0, (r0 +:+ String "_" (String d "")).
Qed.

Lemma numeral_last (s : string) (n : Z) :
  numeral s n → ∃ s' d, s = s' +:+ String d "" ∧ d ∈ decimal_digits.
Proof.
  destruct 1 as [d Hd|s n d _ Hd|s n d _ Hd].
  - by exists "", d.
  - by exists s, d.
  - exists (s +:+ String "_" ""), d. by rewrite string_app_assoc.
Qed.

Lemma parse_literal_unsigned (c : ascii) (r : string) :
  c ≠ "+"%char → c ≠ "-"%char →
  parse_literal (String c r) = parse_digits 0 false (String c r).
Proof.
  intros Hplus Hminus.
  destruct c as [[] [] [] [] [] [] [] []]; try reflexivity; done.
Qed.

(** [parse_literal] accepts the signed numerals, and reads each as its
    number. *)
Lemma parse_literal_signed (t : string) (z : Z) :
  parse_literal t = Some z ↔ signed_numeral t z.
Proof.
  split.
  - destruct t as [|c r]; [discriminate|].
    destruct (decide (c = "+"%char)) as [->|Hplus].
    { change (parse_literal (String "+" r)) with (parse_digits 0 false r).
      intros Hrun. by apply signed_plus, parse_digits_numeral. }
    destruct (decide (c = "-"%char)) as [->|Hminus].
    { change (parse_literal (String "-" r))
        with (Z.opp <$> parse_digits 0 false r).
      destruct (parse_digits 0 false r) as [n|] eqn:Hrun; [|discriminate].
      intros [= <-]. by apply signed_minus, parse_digits_numeral. }
    rewrite parse_literal_unsigned by done.
    intros Hrun. by apply signed_plain, parse_digits_numeral.
  - destruct 1 as [s n Hs|s n Hs|s n Hs].
    + destruct (numeral_head s n Hs) as (d & r & -> & Hd).
      rewrite parse_literal_unsigned.
      * by apply parse_digits_numeral.
      * intros ->. apply decimal_digit_cases in Hd.
        repeat (destruct Hd as [Hd|Hd]; [discriminate|]). discriminate.
      * intros ->. apply decimal_digit_cases in Hd.
        repeat (destruct Hd as [Hd|Hd]; [discriminate|]). discriminate.
    + change (parse_literal (String "+" s)) with (parse_digits 0 false s).
      by apply parse_digits_numeral.
    + change (parse_literal (String "-" s))
        with (Z.opp <$> parse_digits 0 false s).
      apply parse_digits_numeral in Hs. by rewrite Hs.
Qed.

Lemma signed_numeral_head (t : string) (z : Z) :
  signed_numeral t z → ∃ c r, t = String c r ∧ is_space c = false.
Proof.
  destruct 1 as [s n Hs|s n Hs|s n Hs].
  - destruct (numeral_head s n Hs) as (d & r & -> & Hd).
    exists d, r. split; [reflexivity|].
    by destruct (decimal_digit_facts d Hd) as (_ & ? & _).
  - by exists "+"%char, s.
  - by exists "-"%char, s.
Qed.

Lemma signed_numeral_last (t : string) (z : Z) :
  signed_numeral t z → ∃ s d, t = s +:+ String d "" ∧ is_space d = false.
Proof.
  destruct 1 as [s n Hs|s n Hs|s n Hs];
    destruct (numeral_last s n Hs) as (s' & d & -> & Hd);
    destruct (decimal_digit_facts d Hd) as (_ & Hspace & _).
  - by exists s', d.
  - by exists (String "+" s'), d.
  - by exists (String "-" s'), d.
Qed.

(** [int()] accepts a string exactly when its ASCII form is an integer
    literal, and answers the integer that the literal denotes. *)
Lemma int_of_string_literal (s : string) (z : Z) :
  int_of_string s = Some z ↔ int_literal (to_ascii_decimal s) z.
Proof.
  unfold int_of_string. generalize (to_ascii_decimal s) as t. intros t.
  rewrite parse_literal_signed. split.
  - intros Hbody.
    destruct (lstrip_split t) as (lead & Ht & Hlead).
    destruct (rstrip_split (lstrip t)) as (trail & Hu & Htrail).
    exists lead, (rstrip (lstrip t)), trail. by rewrite <-Hu.
  - intros (lead & body & trail & -> & Hlead & Htrail & Hbody).
    rewrite lstrip_blanks by exact Hlead.
    destruct (signed_numeral_head body z Hbody) as (c & r & Hc & Hspace).
    assert (lstrip (body +:+ trail) = body +:+ trail) as ->.
    { rewrite Hc, string_app_cons. cbn [lstrip]. by rewrite Hspace. }
    destruct (signed_numeral_last body z Hbody) as (s' & d & Hd & Hlast).
    rewrite Hd at 1. rewrite (rstrip_snoc s' trail d Hlast Htrail).
    by rewrite <-Hd.
Qed.

Lemma int_of_string_refuses (s : string) :
  int_of_string s = None ↔ ∀ z, ¬ int_literal (to_ascii_decimal s) z.
Proof.
  split.
  - intros Hnone z Hz%int_of_string_literal. by rewrite Hnone in Hz.
  - intros Hno. destruct (int_of_string s) as [z|] eqn:Hz; [|reflexivity].
    by apply int_of_string_literal, Hno in Hz.
Qed.

(** A literal denotes one integer only. *)
Lemma int_literal_functional (t : string) (z z' : Z) :
  int_literal t z → int_literal t z' → z = z'.
Proof.
  unfold int_literal.
  intros (lead & body & trail & -> & Hlead & Htrail & Hbody).
  intros (lead' & body' & trail' & Heq & Hlead' & Htrail' & Hbody').
  assert (∀ l b tr x, blanks l → blanks tr → signed_numeral b x →
            parse_literal (rstrip (lstrip (l +:+ b +:+ tr))) = Some x) as Hrun.
  { intros l b tr x Hl Htr Hb.
    rewrite lstrip_blanks by exact Hl.
    destruct (signed_numeral_head b x Hb) as (c & r & Hc & Hspace).
    assert (lstrip (b +:+ tr) = b +:+ tr) as ->.
    { rewrite Hc, string_app_cons. cbn [lstrip]. by rewrite Hspace. }
    destruct (signed_numeral_last b x Hb) as (s' & d & Hd & Hlast).
    rewrite Hd at 1. rewrite (rstrip_snoc s' tr d Hlast Htr).
    rewrite <-Hd. by apply parse_literal_signed. }
  pose proof (Hrun lead body trail z Hlead Htrail Hbody) as H1.
  pose proof (Hrun lead' body' trail' z' Hlead' Htrail' Hbody') as H2.
  rewrite Heq in H1. congruence.
Qed.

(** * The stock of a matched row *)

(** The rules of [resolve_stock], read on the quantity cell. *)
Lemma resolve_stock_cases (row : watch) :
  let token := py_str (kolichestvo row) in
  (token = ">10" → Seller.resolve_stock row = Ok 100%Z)
  ∧ (token = "1" → Seller.resolve_stock row = Ok 0%Z)
  ∧ (token ≠ ">10" → token ≠ "1" →
       match kolichestvo row with
       | VStr s =>
           (∀ z, Seller.resolve_stock row = Ok z
                 ↔ int_literal (to_ascii_decimal s) z)
           ∧ (Seller.resolve_stock row = Exc ValueError
              ↔ ∀ z, ¬ int_literal (to_ascii_decimal s) z)
       | VInt z => Seller.resolve_stock row = Ok z
       | VNone => Seller.resolve_stock row = Exc TypeError
       end).
Proof.
  cbn zeta. unfold Seller.resolve_stock.
  split; [by intros ->|]. split; [by intros ->|].
  intros H10 H1.
  destruct (String.eqb_spec (py_str (kolichestvo row)) ">10"); [done|].
  destruct (String.eqb_spec (py_str (kolichestvo row)) "1"); [done|].
  destruct (kolichestvo row) as [|s|z]; [reflexivity| |reflexivity].
  cbn [py_int]. split.
  - intros z. rewrite <-int_of_string_literal.
    destruct (int_of_string s); split; congruence.
  - rewrite <-int_of_string_refuses.
    destruct (int_of_string s); split; congruence.
Qed.

(** The scan up to a row that is matched when the scan reaches it, the row
    included. *)
Lemma seller_stocks_loop_at_matched (before : list watch) (row : watch)
    (l : nat) (w w1 : world) (ids : list string) (acc : list ozon_stock) :
  Seller.create_stocks_loop before l [] w = (Ret acc, w1) →
  heap w1 !! l = Some ids →
  py_str (kod row) ∈ ids →
  match Seller.resolve_stock row with
  | Ok z =>
      ∃ w2, Seller.create_stocks_loop (before ++ [row]) l [] w
            = (Ret (acc ++ [{| offer_id := py_str (kod row); stock := z |}]), w2)
  | Exc e => Seller.create_stocks_loop (before ++ [row]) l [] w = (Raise e, w1)
  end.
Proof.
  intros Hbefore Hl Hin.
  pose proof (seller_stocks_loop_matched [] row l acc w1 ids Hl Hin) as Hstep.
  destruct (py_remove_elem _ _ Hin) as [ids' Hrm]. rewrite Hrm in Hstep.
  rewrite seller_stocks_loop_app, Hbefore, Hstep.
  destruct (Seller.resolve_stock row) as [z|e]; [|reflexivity].
  by eexists.
Qed.

(** C1: a row whose code is in the working list when the scan reaches it
    is resolved by both reconcilers in the same way.  The token [">10"]
    gives stock 100 and the token ["1"] gives stock 0.  Any other text is
    read as Python reads an integer literal: white space around an
    optional sign and decimal digits, which single underscores may
    separate, once white space and digits of other scripts are brought into
    ASCII; the stock is the integer that the literal denotes, and a text
    that is no literal raises [ValueError].  An integer cell gives its
    integer and a missing cell raises [TypeError].  With a stock, the scan
    goes on with one more entry, which carries the code and the stock (in
    the Yandex.Market shape: the warehouse, the stock as a [FIT] item and
    the time stamp of the run), and the entry is in the output at the rank
    of the match; with an exception, the reconciliation stops there. *)
Theorem stock_of_matched_record (before after : list watch) (row : watch)
    (l : nat) (w w1 : world) (ids : list string) (acc : list ozon_stock) :
  Seller.create_stocks_loop before l [] w = (Ret acc, w1) →
  heap w1 !! l = Some ids →
  py_str (kod row) ∈ ids →
  let token := py_str (kolichestvo row) in
  let code := py_str (kod row) in
  let inventory := before ++ row :: after in
  ∃ resolved : res Z,
    (token = ">10" → resolved = Ok 100%Z)
    ∧ (token = "1" → resolved = Ok 0%Z)
    ∧ (token ≠ ">10" → token ≠ "1" →
         match kolichestvo row with
         | VStr s =>
             (∀ z, resolved = Ok z ↔ int_literal (to_ascii_decimal s) z)
             ∧ (resolved = Exc ValueError
                ↔ ∀ z, ¬ int_literal (to_ascii_decimal s) z)
             ∧ (Forall (λ c, (N_of_ascii c < 127)%N) (chars s) →
                to_ascii_decimal s = s)
         | VInt z => resolved = Ok z
         | VNone => resolved = Exc TypeError
         end)
    ∧ match resolved with
      | Ok z =>
          (∃ w2,
             Seller.create_stocks_loop (before ++ [row]) l [] w
             = (Ret (acc ++ [{| offer_id := code; stock := z |}]), w2)
             ∧ ∀ warehouse_id, ∃ entries,
                 length entries = length acc
                 ∧ Market.create_stocks_loop (before ++ [row]) l warehouse_id
                     (utcnow w) [] w
                   = (Ret (entries
                           ++ [{| sku := code; warehouseId := warehouse_id;
                                  stock_items :=
                                    [{| count := z; item_type := "FIT";
                                        updatedAt := utcnow w |}] |}]),
                      w2))
          ∧ (∀ out w',
               Seller.create_stocks inventory l w = (Ret out, w') →
               out !! length acc = Some {| offer_id := code; stock := z |})
          ∧ (∀ warehouse_id out w',
               Market.create_stocks inventory l warehouse_id w = (Ret out, w') →
               out !! length acc
               = Some {| sku := code; warehouseId := warehouse_id;
                         stock_items :=
                           [{| count := z; item_type := "FIT";
                               updatedAt := utcnow w |}] |})
      | Exc e =>
          Seller.create_stocks inventory l w = (Raise e, w1)
          ∧ (∀ warehouse_id,
               Market.create_stocks inventory l warehouse_id w = (Raise e, w1))
      end.
Proof.
  intros Hbefore Hl Hin. cbn zeta.
  exists (Seller.resolve_stock row).
  destruct (resolve_stock_cases row) as (H10 & H1 & Hother).
  split; [exact H10|]. split; [exact H1|]. split.
  { intros Hn10 Hn1. specialize (Hother Hn10 Hn1).
    destruct (kolichestvo row) as [|s|z]; [exact Hother| |exact Hother].
    destruct Hother as [Hok Hexc]. split; [exact Hok|]. split; [exact Hexc|].
    apply to_ascii_decimal_plain. }
  pose proof (seller_create_stocks_at_matched before after row l w w1 ids acc
                Hbefore Hl Hin) as Hseller.
  pose proof (seller_stocks_loop_at_matched before row l w w1 ids acc
                Hbefore Hl Hin) as Hloop.
  destruct (Seller.resolve_stock row) as [z|e].
  - split; [|split; [exact Hseller|]].
    + destruct Hloop as [w2 Hloop]. exists w2. split; [exact Hloop|].
      intros warehouse_id.
      exists (map (to_market warehouse_id (utcnow w)) acc).
      split; [by rewrite length_map|].
      change (@nil market_stock)
        with (map (to_market warehouse_id (utcnow w)) []).
      rewrite market_stocks_loop_seller, Hloop. by rewrite map_app.
    + intros warehouse_id out w'. rewrite market_create_stocks_seller.
      destruct (Seller.create_stocks _ l w) as [[stocks|?|] w2] eqn:Hrun;
        try discriminate.
      intros [= <- <-]. rewrite map_fmap, list_lookup_fmap.
      by rewrite (Hseller stocks w2 eq_refl).
  - split; [exact Hseller|].
    intros warehouse_id. rewrite market_create_stocks_seller.
    by rewrite Hseller.
Qed.

(** The rules on a sheet with quantities of every kind: both sentinels, a
    literal in Arabic-Indic digits between a no-break space and a blank, a
    negative literal with an underscore, and a digit after the separator
    28, which [int()] refuses. *)
Lemma stock_of_matched_record_witness :
  let w := demo_world_with literal_catalog in
  (Seller.create_stocks_loop (take 1 literal_inventory) 0 [] w).1
  = Ret [{| offer_id := "A1"; stock := 100 |}]
  ∧ (Seller.create_stocks_loop (take 2 literal_inventory) 0 [] w).1
    = Ret [{| offer_id := "A1"; stock := 100 |};
           {| offer_id := "B2"; stock := 0 |}]
  ∧ (Seller.create_stocks_loop (take 3 literal_inventory) 0 [] w).1
    = Ret [{| offer_id := "A1"; stock := 100 |};
           {| offer_id := "B2"; stock := 0 |};
           {| offer_id := "C3"; stock := 34 |}]
  ∧ (∃ entries,
       length entries = 3
       ∧ (Market.create_stocks_loop (take 4 literal_inventory) 0 "w-fbs"
            "2024-03-12T10:00:00Z" [] w).1
         = Ret (entries
                ++ [{| sku := "D4"; warehouseId := "w-fbs";
                       stock_items :=
                         [{| count := -10; item_type := "FIT";
                             updatedAt := "2024-03-12T10:00:00Z" |}] |}]))
  ∧ (Seller.create_stocks literal_inventory 0 w).1 = Raise ValueError
  ∧ (Market.create_stocks literal_inventory 0 "w-fbs" w).1 = Raise ValueError.
Proof.
  cbn zeta. set (w := demo_world_with literal_catalog).
  assert (∀ (o : string) (l : list string), bool_decide (o ∈ l) = true → o ∈ l)
    as Hin by (intros o l; apply bool_decide_eq_true).
  set (row1 := {| kod := VStr "A1"; kolichestvo := VStr ">10";
                  tsena := VStr "100.00 r" |}).
  set (row2 := {| kod := VStr "B2"; kolichestvo := VStr "1";
                  tsena := VStr "200.00 r" |}).
  set (row3 := {| kod := VStr "C3";
                  kolichestvo :=
                    VStr (String "194"%char (String "160"%char "٣٤ "));
                  tsena := VStr "300" |}).
  set (row4 := {| kod := VStr "D4"; kolichestvo := VStr "-1_0";
                  tsena := VStr "400" |}).
  set (row5 := {| kod := VStr "E5"; kolichestvo := VStr (String "028"%char "5");
                  tsena := VStr "500" |}).
  split; [|split; [|split; [|split]]].
  - destruct (stock_of_matched_record [] [row2; row3; row4; row5] row1
                0 w w literal_catalog [] eq_refl eq_refl
                (Hin "A1" literal_catalog eq_refl))
      as (resolved & H10 & _ & _ & Hrun).
    rewrite (H10 eq_refl) in Hrun.
    destruct Hrun as ((w2 & Hloop & _) & _ & _).
    change (take 1 literal_inventory) with ([] ++ [row1]).
    by rewrite Hloop.
  - destruct (stock_of_matched_record [row1] [row3; row4; row5] row2
                0 w (Seller.create_stocks_loop [row1] 0 [] w).2
                ["B2"; "C3"; "D4"; "E5"; "F6"]
                [{| offer_id := "A1"; stock := 100 |}] eq_refl eq_refl
                (Hin "B2" ["B2"; "C3"; "D4"; "E5"; "F6"] eq_refl))
      as (resolved & _ & H1 & _ & Hrun).
    rewrite (H1 eq_refl) in Hrun.
    destruct Hrun as ((w2 & Hloop & _) & _ & _).
    change (take 2 literal_inventory) with ([row1] ++ [row2]).
    by rewrite Hloop.
  - destruct (stock_of_matched_record [row1; row2] [row4; row5] row3
                0 w (Seller.create_stocks_loop [row1; row2] 0 [] w).2
                ["C3"; "D4"; "E5"; "F6"]
                [{| offer_id := "A1"; stock := 100 |};
                 {| offer_id := "B2"; stock := 0 |}] eq_refl eq_refl
                (Hin "C3" ["C3"; "D4"; "E5"; "F6"] eq_refl))
      as (resolved & _ & _ & Hother & Hrun).
    destruct Hother as (Hok & _ & _); [done..|].
    rewrite (proj2 (Hok 34%Z)) in Hrun
      by (apply int_of_string_literal; vm_compute; reflexivity).
    destruct Hrun as ((w2 & Hloop & _) & _ & _).
    change (take 3 literal_inventory) with ([row1; row2] ++ [row3]).
    by rewrite Hloop.
  - destruct (stock_of_matched_record [row1; row2; row3] [row5] row4
                0 w (Seller.create_stocks_loop [row1; row2; row3] 0 [] w).2
                ["D4"; "E5"; "F6"]
                [{| offer_id := "A1"; stock := 100 |};
                 {| offer_id := "B2"; stock := 0 |};
                 {| offer_id := "C3"; stock := 34 |}] eq_refl eq_refl
                (Hin "D4" ["D4"; "E5"; "F6"] eq_refl))
      as (resolved & _ & _ & Hother & Hrun).
    destruct Hother as (Hok & _ & _); [done..|].
    rewrite (proj2 (Hok (-10)%Z)) in Hrun
      by (apply int_of_string_literal; vm_compute; reflexivity).
    destruct Hrun as ((w2 & _ & Hmarket) & _ & _).
    destruct (Hmarket "w-fbs") as (entries & Hlength & Hloop).
    exists entries. split; [exact Hlength|].
    change (take 4 literal_inventory) with ([row1; row2; row3] ++ [row4]).
    change "2024-03-12T10:00:00Z" with (utcnow w) at 1.
    by rewrite Hloop.
  - destruct (stock_of_matched_record [row1; row2; row3; row4] [] row5
                0 w (Seller.create_stocks_loop [row1; row2; row3; row4] 0 [] w).2
                ["E5"; "F6"]
                [{| offer_id := "A1"; stock := 100 |};
                 {| offer_id := "B2"; stock := 0 |};
                 {| offer_id := "C3"; stock := 34 |};
                 {| offer_id := "D4"; stock := -10 |}] eq_refl eq_refl
                (Hin "E5" ["E5"; "F6"] eq_refl))
      as (resolved & _ & _ & Hother & Hrun).
    destruct Hother as (_ & Hexc & _); [done..|].
    rewrite (proj2 Hexc) in Hrun
      by (apply int_of_string_refuses; vm_compute; reflexivity).
    destruct Hrun as [Hseller Hmarket].
    change literal_inventory with ([row1; row2; row3; row4] ++ row5 :: []).
    by rewrite Hseller, (Hmarket "w-fbs").
Defined.


(** * Further properties of the chunker *)

Lemma range_len_ceil (L : nat) (n : Z) :
  (0 < n)%Z →
  Z.of_nat (range_len 0 (Z.of_nat L) n) = ((Z.of_nat L + n - 1) / n)%Z.
Proof.
  intros Hn. unfold range_len.
  rewrite (proj2 (Z.ltb_lt 0 n) Hn).
  destruct (Z.ltb_spec 0 (Z.of_nat L)) as [HL|HL].
  - replace (Z.of_nat L + n - 1)%Z with (Z.of_nat L - 0 - 1 + 1 * n)%Z by lia.
    rewrite Z.div_add by lia.
    rewrite Z2Nat.id; [reflexivity|].
    assert (0 ≤ (Z.of_nat L - 0 - 1) / n)%Z by (apply Z.div_pos; lia). lia.
  - replace (Z.of_nat L) with 0%Z by lia. rewrite Z.div_small by lia. reflexivity.
Qed.

(** X4: for a positive chunk size [divide] yields [ceil (L / n)] chunks, so
    that many upload calls follow; a non-empty list that fits into one
    chunk comes back as that single chunk. *)
Theorem divide_chunk_count {A} (lst : list A) (n : Z) :
  (0 < n)%Z →
  ∃ chunks,
    Seller.divide lst n = Ok chunks
    ∧ Z.of_nat (length chunks) = ((Z.of_nat (length lst) + n - 1) / n)%Z
    ∧ (0 < length lst → (Z.of_nat (length lst) ≤ n)%Z → chunks = [lst]).
Proof.
  intros Hn. eexists. split; [by apply divide_positive|].
  rewrite length_map, length_seq. split; [by apply range_len_ceil|].
  intros Hpos Hfit.
  assert (range_len 0 (Z.of_nat (length lst)) n = 1) as ->.
  { apply Nat2Z.inj. rewrite range_len_ceil by exact Hn.
    replace (Z.of_nat (length lst) + n - 1)%Z
      with (Z.of_nat (length lst) - 1 + 1 * n)%Z by lia.
    rewrite Z.div_add, Z.div_small by lia. reflexivity. }
  cbn. rewrite drop_0, take_ge by lia. reflexivity.
Qed.

Lemma divide_chunk_count_witness :
  ∃ chunks,
    Seller.divide (replicate 2500 "x") 2000 = Ok chunks
    ∧ Z.of_nat (length chunks) = 2%Z.
Proof.
  destruct (divide_chunk_count (replicate 2500 "x") 2000 eq_refl)
    as (chunks & Hchunks & Hcount & _).
  exists chunks. split; [exact Hchunks|].
  rewrite Hcount, length_replicate. reflexivity.
Defined.

(** * Further properties of the stock reconcilers *)

(** X5: whatever the catalog, duplicates included, the Ozon stock
    reconciler answers as many entries as the catalog has ids, and every id
    as often as the catalog lists it. *)
Theorem create_stocks_keeps_id_count (inv : list watch) (l : nat)
    (w w' : world) (ids : list string) (out : list ozon_stock) :
  heap w !! l = Some ids →
  Seller.create_stocks inv l w = (Ret out, w') →
  map offer_id out ≡ₚ ids ∧ length out = length ids.
Proof.
  intros Hl. rewrite seller_create_stocks_run.
  destruct (Seller.create_stocks_loop inv l [] w) as [[stocks|e|] w1] eqn:Hloop;
    try discriminate.
  destruct (seller_stocks_loop_perm inv l [] stocks w w1 ids Hl Hloop)
    as (ids' & Hl' & Hperm).
  rewrite Hl'. intros [= <- <-].
  assert (map offer_id
            (stocks ++ map (λ o, {| offer_id := o; stock := 0 |}) ids') ≡ₚ ids)
    as Hids.
  { rewrite map_app, map_map. cbn [offer_id]. by rewrite map_id. }
  split; [exact Hids|].
  apply Permutation_length in Hids. by rewrite length_map in Hids.
Qed.

Lemma create_stocks_keeps_id_count_witness :
  map offer_id
    [{| offer_id := "A1"; stock := 100 |}; {| offer_id := "A1"; stock := 0 |};
     {| offer_id := "C3"; stock := 0 |}] ≡ₚ ["A1"; "A1"; "C3"].
Proof.
  refine (proj1 (create_stocks_keeps_id_count demo_inventory 0
                   (demo_world_with ["A1"; "A1"; "C3"])
                   (Seller.create_stocks demo_inventory 0
                      (demo_world_with ["A1"; "A1"; "C3"])).2
                   ["A1"; "A1"; "C3"] _ eq_refl _)).
  vm_compute. reflexivity.
Defined.

(** Rows whose codes are all unknown to the list are passed over. *)
Lemma seller_stocks_loop_no_match (inv : list watch) (l : nat)
    (acc : list ozon_stock) (w : world) (ids : list string) :
  heap w !! l = Some ids →
  (∀ row, row ∈ inv → code row ∉ ids) →
  Seller.create_stocks_loop inv l acc w = (Ret acc, w).
Proof.
  intros Hl. induction inv as [|row rest IH]; intros Hnone; [reflexivity|].
  rewrite (seller_stocks_loop_unmatched rest row l acc w ids Hl)
    by (apply Hnone; left).
  apply IH. intros r Hr. apply Hnone. by right.
Qed.

(** X6: when no row of the sheet carries a known offer id (an empty sheet,
    an empty catalog, two disjoint ranges), the Ozon stock reconciler
    answers a zero entry for every known id, reads no quantity, so raises
    nothing, and leaves the caller's list and the world as they were. *)
Theorem create_stocks_without_match (inv : list watch) (l : nat) (w : world)
    (ids : list string) :
  heap w !! l = Some ids →
  (∀ row, row ∈ inv → code row ∉ ids) →
  Seller.create_stocks inv l w
  = (Ret (map (λ o, {| offer_id := o; stock := 0 |}) ids), w).
Proof.
  intros Hl Hnone. rewrite seller_create_stocks_run.
  by rewrite (seller_stocks_loop_no_match inv l [] w ids Hl Hnone), Hl.
Qed.

Lemma create_stocks_without_match_witness :
  Seller.create_stocks
    [{| kod := VStr "Z9"; kolichestvo := VStr "many"; tsena := VNone |}]
    0 (demo_world_with demo_catalog)
  = (Ret [{| offer_id := "A1"; stock := 0 |};
          {| offer_id := "B2"; stock := 0 |};
          {| offer_id := "C3"; stock := 0 |}],
     demo_world_with demo_catalog).
Proof.
  apply (create_stocks_without_match _ 0 (demo_world_with demo_catalog)
           demo_catalog eq_refl).
  intros row Hrow. apply list_elem_of_singleton in Hrow as ->.
  apply (bool_decide_unpack _). vm_compute. exact I.
Defined.

(** X7: once the Ozon stock reconciler has returned over a catalog without
    duplicates, the caller's list holds exactly the ids that no row
    matched; on that list the price reconciler finds nothing to price, and
    a second stock reconciliation answers only the zero entries of those
    ids. *)
Theorem create_stocks_consumes_offer_ids (inv : list watch) (l : nat)
    (w w' : world) (ids : list string) (out : list ozon_stock) :
  heap w !! l = Some ids →
  NoDup ids →
  Seller.create_stocks inv l w = (Ret out, w') →
  heap w' !! l = Some (leftover_ids inv ids)
  ∧ Seller.create_prices inv l w' = (Ret [], w')
  ∧ Seller.create_stocks inv l w'
    = (Ret (map (λ o, {| offer_id := o; stock := 0 |}) (leftover_ids inv ids)),
       w').
Proof.
  intros Hl Hnd Hrun.
  destruct (seller_prices_after_stocks inv l w w' ids out Hl Hnd Hrun)
    as [Hleft Hprices].
  split; [exact Hleft|]. split; [exact Hprices|].
  rewrite seller_create_stocks_run.
  rewrite (seller_stocks_loop_no_match inv l [] w' _ Hleft), Hleft;
    [reflexivity|].
  intros row Hrow Hin. apply list_elem_of_filter in Hin as [Hout _].
  apply Hout. rewrite map_fmap. by apply list_elem_of_fmap_2.
Qed.

Lemma create_stocks_consumes_offer_ids_witness :
  Seller.create_prices demo_inventory 0
    (Seller.create_stocks demo_inventory 0 (demo_world_with demo_catalog)).2
  = (Ret [],
     (Seller.create_stocks demo_inventory 0 (demo_world_with demo_catalog)).2).
Proof.
  assert (NoDup demo_catalog) as Hnd
    by (apply (bool_decide_unpack _); vm_compute; exact I).
  refine (proj1 (proj2 (create_stocks_consumes_offer_ids demo_inventory 0
                          (demo_world_with demo_catalog) _ demo_catalog
                          [{| offer_id := "A1"; stock := 100 |};
                           {| offer_id := "B2"; stock := 0 |};
                           {| offer_id := "C3"; stock := 0 |}]
                          eq_refl Hnd _))).
  vm_compute. reflexivity.
Defined.



(** * Further properties of the price reconcilers *)

Lemma traverse_results {A B} (f : A → res B) (l : list A) (ys : list B) :
  traverse f l = Ok ys → Forall2 (λ x y, f x = Ok y) l ys.
Proof.
  revert ys. induction l as [|x l IH]; intros ys.
  - intros [= <-]. constructor.
  - cbn [traverse]. destruct (f x) as [y|e] eqn:Hy; [|discriminate].
    cbn [res_bind]. destruct (traverse f l) as [zs|e]; [|discriminate].
    cbn [res_bind]. intros [= <-]. constructor; [exact Hy|by apply IH].
Qed.

Lemma traverse_all_ok {A B} (f : A → res B) (l : list A) :
  (∀ x, x ∈ l → ∃ y, f x = Ok y) → ∃ ys, traverse f l = Ok ys.
Proof.
  induction l as [|x l IH]; intros Hok; [by eexists|].
  cbn [traverse]. destruct (Hok x) as [y ->]; [by left|].
  destruct IH as [ys ->]; [intros z Hz; apply Hok; by right|].
  by eexists.
Qed.

(** X9: the Ozon price reconciler succeeds exactly when the price of every
    matched row is a text cell: it then answers, row by row, the code and
    the normalized price, which may be the empty string; a matched row
    whose price is missing or is a number makes it raise
    [AttributeError].  Rows that are not matched are not looked at. *)
Theorem seller_create_prices_needs_text_prices (inv : list watch) (l : nat)
    (w : world) (ids : list string) :
  heap w !! l = Some ids →
  ((∀ row, row ∈ inv → code row ∈ ids → ∃ s, tsena row = VStr s) →
     ∃ prices,
       Seller.create_prices inv l w = (Ret prices, w)
       ∧ Forall2 (λ row p,
                    price_offer_id p = code row
                    ∧ ∃ s, tsena row = VStr s
                           ∧ price p = Seller.price_conversion s)
           (filter (λ row, code row ∈ ids) inv) prices)
  ∧ (∀ row, row ∈ inv → code row ∈ ids → (∀ s, tsena row ≠ VStr s) →
       Seller.create_prices inv l w = (Raise AttributeError, w)).
Proof.
  intros Hl. unfold Seller.create_prices.
  rewrite (seller_prices_loop_closed inv l [] w ids Hl).
  set (rows := filter (λ row, code row ∈ ids) inv).
  split.
  - intros Htext.
    destruct (traverse_all_ok ozon_price_of rows) as [prices Hprices].
    { intros row [Hin Hrow]%list_elem_of_filter.
      destruct (Htext row Hrow Hin) as [s Hs].
      unfold ozon_price_of. rewrite Hs. by eexists. }
    rewrite Hprices. exists prices. split; [reflexivity|].
    eapply Forall2_impl; [by apply traverse_results|].
    intros row p. cbn beta. unfold ozon_price_of.
    destruct (tsena row) as [|s|z] eqn:Hs; try discriminate.
    cbn. intros [= <-]. split; [reflexivity|]. by exists s.
  - intros row Hrow Hin Hnotext.
    assert (ozon_price_of row = Exc AttributeError) as Hfail.
    { unfold ozon_price_of. destruct (tsena row) as [|s|z] eqn:Hs;
        [reflexivity|by destruct (Hnotext s)|reflexivity]. }
    assert (row ∈ rows) as Hmatched by (by apply list_elem_of_filter).
    destruct (traverse_success_or_failure ozon_price_of rows row _
                Hmatched Hfail) as [e He].
    rewrite He. apply traverse_failure in He as (r & _ & Hr).
    unfold ozon_price_of in Hr.
    destruct (tsena r); cbn in Hr;
      [by injection Hr as <-|discriminate|by injection Hr as <-].
Qed.

Lemma seller_create_prices_needs_text_prices_witness :
  Seller.create_prices
    [{| kod := VStr "A1"; kolichestvo := VStr "3"; tsena := VNone |}]
    0 (demo_world_with demo_catalog)
  = (Raise AttributeError, demo_world_with demo_catalog).
Proof.
  refine (proj2 (seller_create_prices_needs_text_prices _ 0
                   (demo_world_with demo_catalog) demo_catalog eq_refl)
            {| kod := VStr "A1"; kolichestvo := VStr "3"; tsena := VNone |}
            (list_elem_of_here _ _) (list_elem_of_here _ _) _).
  intros s. discriminate.
Defined.

(** * Batches on the wire *)

Lemma sent_nil (w : world) : sent [] w = w.
Proof. destruct w. unfold sent. cbn. by rewrite app_nil_r. Qed.

Lemma sent_sent (qs1 qs2 : list request) (w : world) :
  sent qs2 (sent qs1 w) = sent (qs1 ++ qs2) w.
Proof. unfold sent. cbn. by rewrite app_assoc. Qed.

(** One accepted exchange. *)
Lemma http_accepted (q : request) (w : world) :
  (∀ e, net w (length (exchanges w)) q ≠ Failed e) →
  http q w = (Ret (net w (length (exchanges w)) q), sent [q] w).
Proof.
  intros Hok. unfold http, sent.
  destruct (net w (length (exchanges w)) q) eqn:Hq; try reflexivity.
  by destruct (Hok e).
Qed.

Lemma http_refused (q : request) (w : world) (e : exn) :
  net w (length (exchanges w)) q = Failed e →
  http q w = (Raise e, sent [q] w).
Proof. intros Hq. unfold http, sent. by rewrite Hq. Qed.

(** A loop of uploads that are all accepted sends one request per chunk,
    in order, and changes nothing else. *)
Lemma upload_loop_accepted {A} (mk : A → request) (chunks : list A) (w : world) :
  (∀ i c e, chunks !! i = Some c →
            net w (length (exchanges w) + i) (mk c) ≠ Failed e) →
  for_each chunks (λ c, http (mk c) ;;; ret tt) w
  = (Ret tt, sent (map mk chunks) w).
Proof.
  revert w. induction chunks as [|c chunks IH]; intros w Hok.
  - cbn. by rewrite sent_nil.
  - cbn [for_each map]. unfold bind at 1 2.
    rewrite http_accepted
      by (intros e; specialize (Hok 0 c e eq_refl); by rewrite Nat.add_0_r in Hok).
    cbn beta iota. unfold ret at 1. cbn beta iota.
    rewrite IH; [by rewrite sent_sent|].
    intros i c' e Hc'. cbn [sent exchanges net]. rewrite length_app. cbn [length].
    replace (length (exchanges w) + 1 + i) with (length (exchanges w) + S i) by lia.
    by apply Hok.
Qed.

(** The first refused upload ends the loop: the chunks after it are not
    sent. *)
Lemma upload_loop_refused {A} (mk : A → request) (before after : list A)
    (c : A) (e : exn) (w : world) :
  (∀ i c' e', before !! i = Some c' →
              net w (length (exchanges w) + i) (mk c') ≠ Failed e') →
  net w (length (exchanges w) + length before) (mk c) = Failed e →
  for_each (before ++ c :: after) (λ c, http (mk c) ;;; ret tt) w
  = (Raise e, sent (map mk (before ++ [c])) w).
Proof.
  revert w. induction before as [|b before IH]; intros w Hok Hfail.
  - cbn [app for_each map]. unfold bind at 1 2.
    rewrite (http_refused _ w e) by (by rewrite Nat.add_0_r in Hfail).
    reflexivity.
  - cbn [app for_each map]. unfold bind at 1 2.
    rewrite http_accepted
      by (intros e'; specialize (Hok 0 b e' eq_refl);
          by rewrite Nat.add_0_r in Hok).
    cbn beta iota. unfold ret at 1. cbn beta iota.
    rewrite IH.
    + by rewrite sent_sent.
    + intros i c' e' Hc'. cbn [sent exchanges net]. rewrite length_app.
      cbn [length].
      replace (length (exchanges w) + 1 + i) with (length (exchanges w) + S i)
        by lia.
      by apply Hok.
    + cbn [sent exchanges net length]. rewrite length_app. cbn [length].
      rewrite <-Hfail. f_equal. cbn [length]. lia.
Qed.

(** For a positive chunk size the chunks rebuild the list; none is empty
    and none is longer than the chunk size. *)
Lemma divide_batches {A} (lst : list A) (n : Z) :
  (0 < n)%Z →
  ∃ chunks,
    Seller.divide lst n = Ok chunks
    ∧ concat chunks = lst
    ∧ Forall (λ c, 0 < length c ≤ Z.to_nat n) chunks.
Proof.
  intros Hn. eexists. split; [by apply divide_positive|].
  destruct (range_len_chunks (length lst) n Hn) as (Hzero & Hcover & Hlast).
  split.
  - rewrite concat_chunks. by apply take_ge.
  - apply Forall_forall. intros c Hc. rewrite map_fmap in Hc.
    apply list_elem_of_fmap in Hc as (k & -> & Hk).
    apply elem_of_seq in Hk. rewrite length_take, length_drop.
    assert (0 < length lst) as Hpos by (destruct (length lst); [|lia]; lia).
    specialize (Hlast Hpos). nia.
Qed.

(** X10: when the catalog is fetched, the stocks are reconciled and the
    server accepts every stock import, awaiting the Ozon [upload_stocks]
    sends the stocks in batches that rebuild the payload in order, none
    empty and none above 100 entries, and answers the entries with a
    non-zero stock beside all the entries. *)
Theorem seller_upload_stocks_sends_batches (fuel : nat) (inv : list watch)
    (client_id seller_token : string) (w w1 w2 : world) (l : nat)
    (stocks : list ozon_stock) :
  Seller.get_offer_ids fuel client_id seller_token w = (Ret l, w1) →
  Seller.create_stocks inv l w1 = (Ret stocks, w2) →
  (∀ k payload e,
     net w2 k (OzonImportStocks client_id seller_token payload) ≠ Failed e) →
  ∃ chunks,
    concat chunks = stocks
    ∧ Forall (λ c, 0 < length c ≤ 100) chunks
    ∧ (c <- Seller.upload_stocks fuel inv client_id seller_token ;; await c) w
      = (Ret (List.filter (λ s, negb (stock s =? 0)%Z) stocks, stocks),
         sent (map (OzonImportStocks client_id seller_token) chunks) w2).
Proof.
  intros Hget Hstocks Hok.
  destruct (divide_batches stocks 100 eq_refl) as (chunks & Hdiv & Hconcat & Hsize).
  exists chunks. split; [exact Hconcat|]. split; [exact Hsize|].
  unfold Seller.upload_stocks, await, bind at 1, ret at 1. cbn beta iota.
  unfold Seller.upload_stocks_body, bind at 1. rewrite Hget. cbn beta iota.
  unfold bind at 1. rewrite Hstocks. cbn beta iota.
  rewrite Hdiv. unfold bind at 1, lift, ret at 1. cbn beta iota.
  unfold bind at 1, Seller.update_stocks.
  by rewrite (upload_loop_accepted (OzonImportStocks client_id seller_token))
    by (intros i c e _; apply Hok).
Qed.

Lemma seller_upload_stocks_sends_batches_witness :
  ((c <- Seller.upload_stocks 1 demo_inventory "client" "token" ;; await c)
     demo_world).1
  = Ret ([{| offer_id := "A1"; stock := 100 |}],
         [{| offer_id := "A1"; stock := 100 |};
          {| offer_id := "B2"; stock := 0 |};
          {| offer_id := "C3"; stock := 0 |}]).
Proof.
  destruct (seller_upload_stocks_sends_batches 1 demo_inventory "client" "token"
              demo_world
              (Seller.get_offer_ids 1 "client" "token" demo_world).2
              (Seller.create_stocks demo_inventory 0
                 (Seller.get_offer_ids 1 "client" "token" demo_world).2).2
              0
              [{| offer_id := "A1"; stock := 100 |};
               {| offer_id := "B2"; stock := 0 |};
               {| offer_id := "C3"; stock := 0 |}])
    as (chunks & _ & _ & Hrun).
  - vm_compute. reflexivity.
  - vm_compute. reflexivity.
  - intros k payload e. vm_compute. discriminate.
  - rewrite Hrun. reflexivity.
Defined.

(** X11: a refused stock import ends the Ozon [upload_stocks] with that
    exception: the batches before it have been sent, the refused one is
    the last request, the batches after it are never sent and nothing is
    answered. *)
Theorem seller_upload_stocks_stops_at_refusal (fuel : nat) (inv : list watch)
    (client_id seller_token : string) (w w1 w2 : world) (l : nat)
    (stocks : list ozon_stock) (before after : list (list ozon_stock))
    (c : list ozon_stock) (e : exn) :
  Seller.get_offer_ids fuel client_id seller_token w = (Ret l, w1) →
  Seller.create_stocks inv l w1 = (Ret stocks, w2) →
  Seller.divide stocks 100 = Ok (before ++ c :: after) →
  (∀ i c' e', before !! i = Some c' →
     net w2 (length (exchanges w2) + i)
       (OzonImportStocks client_id seller_token c') ≠ Failed e') →
  net w2 (length (exchanges w2) + length before)
    (OzonImportStocks client_id seller_token c) = Failed e →
  (c <- Seller.upload_stocks fuel inv client_id seller_token ;; await c) w
  = (Raise e,
     sent (map (OzonImportStocks client_id seller_token) (before ++ [c])) w2).
Proof.
  intros Hget Hstocks Hdiv Hok Hfail.
  unfold Seller.upload_stocks, await, bind at 1, ret at 1. cbn beta iota.
  unfold Seller.upload_stocks_body, bind at 1. rewrite Hget. cbn beta iota.
  unfold bind at 1. rewrite Hstocks. cbn beta iota.
  rewrite Hdiv. unfold bind at 1, lift, ret at 1. cbn beta iota.
  unfold bind at 1, Seller.update_stocks.
  by rewrite (upload_loop_refused (OzonImportStocks client_id seller_token)
                before after c e w2 Hok Hfail).
Qed.

Lemma seller_upload_stocks_stops_at_refusal_witness :
  let run :=
    (c <- Seller.upload_stocks 1 [] "client" "token" ;; await c) refusing_world in
  run.1 = Raise HTTPError ∧ length (exchanges run.2) = 3.
Proof.
  set (stocks := map (λ o, {| offer_id := o; stock := 0%Z |}) big_catalog).
  pose proof
    (seller_upload_stocks_stops_at_refusal 1 [] "client" "token" refusing_world
       (Seller.get_offer_ids 1 "client" "token" refusing_world).2
       (Seller.get_offer_ids 1 "client" "token" refusing_world).2
       0 stocks [take 100 stocks] [] (drop 100 stocks) HTTPError) as Hrun.
  cbn zeta. rewrite Hrun.
  - split; [reflexivity|]. vm_compute. reflexivity.
  - vm_compute. reflexivity.
  - vm_compute. reflexivity.
  - vm_compute. reflexivity.
  - intros [|i] c' e' Hc'; [|discriminate]. injection Hc' as <-.
    vm_compute. discriminate.
  - vm_compute. reflexivity.
Defined.

(** X12: when the catalog is fetched, every matched price converts and the
    server accepts every price update, awaiting the Yandex.Market
    [upload_prices] sends the prices in batches that rebuild the payload in
    order, none empty and none above 500 entries, and answers the prices;
    a refused batch ends it with that exception and the later batches are
    never sent. *)
Theorem market_upload_prices_sends_batches (fuel : nat) (inv : list watch)
    (campaign_id market_token : string) (w w1 w2 : world) (l : nat)
    (prices : list market_price) :
  Market.get_offer_ids fuel campaign_id market_token w = (Ret l, w1) →
  Market.create_prices inv l w1 = (Ret prices, w2) →
  let run :=
    (c <- Market.upload_prices fuel inv campaign_id market_token ;; await c) w in
  let update := MarketPriceUpdates campaign_id market_token in
  ((∀ k payload e, net w2 k (update payload) ≠ Failed e) →
     ∃ chunks,
       concat chunks = prices
       ∧ Forall (λ c, 0 < length c ≤ 500) chunks
       ∧ run = (Ret prices, sent (map update chunks) w2))
  ∧ (∀ before c after e,
       Seller.divide prices 500 = Ok (before ++ c :: after) →
       (∀ i c' e', before !! i = Some c' →
          net w2 (length (exchanges w2) + i) (update c') ≠ Failed e') →
       net w2 (length (exchanges w2) + length before) (update c) = Failed e →
       run = (Raise e, sent (map update (before ++ [c])) w2)).
Proof.
  intros Hget Hprices. cbn zeta.
  assert (∀ r,
    (chunks <- lift (Seller.divide prices 500) ;;
     for_each chunks
       (λ some_prices, Market.update_price some_prices campaign_id market_token) ;;;
     ret prices) w2 = r →
    (c <- Market.upload_prices fuel inv campaign_id market_token ;; await c) w = r)
    as Hbody.
  { intros r <-.
    unfold Market.upload_prices, await, bind at 1, ret at 1. cbn beta iota.
    unfold Market.upload_prices_body, bind at 1. rewrite Hget. cbn beta iota.
    unfold bind at 1. by rewrite Hprices. }
  split.
  - intros Hok.
    destruct (divide_batches prices 500 eq_refl) as (chunks & Hdiv & Hconcat & Hsize).
    exists chunks. split; [exact Hconcat|]. split; [exact Hsize|].
    apply Hbody. rewrite Hdiv. unfold bind at 1, lift, ret at 1. cbn beta iota.
    unfold bind at 1, Market.update_price.
    by rewrite (upload_loop_accepted (MarketPriceUpdates campaign_id market_token))
      by (intros i c e _; apply Hok).
  - intros before c after e Hdiv Hok Hfail.
    apply Hbody. rewrite Hdiv. unfold bind at 1, lift, ret at 1. cbn beta iota.
    unfold bind at 1, Market.update_price.
    by rewrite (upload_loop_refused (MarketPriceUpdates campaign_id market_token)
                  before after c e w2 Hok Hfail).
Qed.

Lemma market_upload_prices_sends_batches_witness :
  ((c <- Market.upload_prices 1 demo_inventory "fbs" "token" ;; await c)
     demo_world).1
  = Ret [{| id := "A1"; price_value := 100; currencyId := "RUR" |};
         {| id := "B2"; price_value := 200; currencyId := "RUR" |}].
Proof.
  destruct (market_upload_prices_sends_batches 1 demo_inventory "fbs" "token"
              demo_world
              (Market.get_offer_ids 1 "fbs" "token" demo_world).2
              (Market.get_offer_ids 1 "fbs" "token" demo_world).2
              0
              [{| id := "A1"; price_value := 100; currencyId := "RUR" |};
               {| id := "B2"; price_value := 200; currencyId := "RUR" |}])
    as [Hsends _].
  - vm_compute. reflexivity.
  - vm_compute. reflexivity.
  - destruct Hsends as (chunks & _ & _ & Hrun).
    + intros k payload e. vm_compute. discriminate.
    + rewrite Hrun. reflexivity.
Defined.

(** * What a computation leaves alone *)

Section Preserves.
Context {B : Type} (f : world → B).

Lemma preserves_ret {A} (a : A) : preserves f (ret a).
Proof. by intros w. Qed.

Lemma preserves_raise {A} (e : exn) : preserves f (@raise A e).
Proof. by intros w. Qed.

Lemma preserves_out_of_fuel {A} : preserves f (@out_of_fuel A).
Proof. by intros w. Qed.

Lemma preserves_lift {A} (r : res A) : preserves f (lift r).
Proof. destruct r; [apply preserves_ret|apply preserves_raise]. Qed.

Lemma preserves_load (l : nat) : preserves f (load l).
Proof. intros w. unfold load. by destruct (heap w !! l). Qed.

Lemma preserves_bind {A C} (c : M A) (k : A → M C) :
  preserves f c → (∀ a, preserves f (k a)) → preserves f (bind c k).
Proof.
  intros Hc Hk w. specialize (Hc w). unfold bind.
  destruct (c w) as [[a|e|] w1]; cbn in *; [|done|done].
  by rewrite Hk.
Qed.

Lemma preserves_for_each {A} (l : list A) (body : A → M unit) :
  (∀ x, preserves f (body x)) → preserves f (for_each l body).
Proof.
  intros Hbody. induction l as [|x l IH]; [by intros w|].
  cbn [for_each]. apply preserves_bind; [apply Hbody|by intros _].
Qed.

(** The price reconcilers only read the list. *)
Lemma preserves_seller_create_prices (inv : list watch) (l : nat) :
  preserves f (Seller.create_prices inv l).
Proof.
  unfold Seller.create_prices. generalize (@nil ozon_price) as prices.
  induction inv as [|row rest IH]; intros prices;
    cbn [Seller.create_prices_loop]; [apply preserves_ret|].
  apply preserves_bind; [apply preserves_load|intros ids].
  destruct (py_in _ ids); [|apply IH].
  apply preserves_bind; [apply preserves_lift|intros p; apply IH].
Qed.

Lemma preserves_market_create_prices (inv : list watch) (l : nat) :
  preserves f (Market.create_prices inv l).
Proof.
  unfold Market.create_prices. generalize (@nil market_price) as prices.
  induction inv as [|row rest IH]; intros prices;
    cbn [Market.create_prices_loop]; [apply preserves_ret|].
  apply preserves_bind; [apply preserves_load|intros ids].
  destruct (py_in _ ids); [|apply IH].
  apply preserves_bind; [apply preserves_lift|intros p; apply IH].
Qed.

(** The stock reconcilers write the list behind [offer_ids] and nothing
    else. *)
Section Store.
Context (l : nat) (Hstore : ∀ ids, preserves f (store l ids)).

Lemma preserves_seller_create_stocks (inv : list watch) :
  preserves f (Seller.create_stocks inv l).
Proof.
  unfold Seller.create_stocks.
  apply preserves_bind;
    [|intros stocks; apply preserves_bind;
        [apply preserves_load|intros ids; apply preserves_ret]].
  generalize (@nil ozon_stock) as stocks.
  induction inv as [|row rest IH]; intros stocks;
    cbn [Seller.create_stocks_loop]; [apply preserves_ret|].
  apply preserves_bind; [apply preserves_load|intros ids].
  destruct (py_in _ ids); [|apply IH].
  apply preserves_bind; [apply preserves_lift|intros z].
  apply preserves_bind; [apply preserves_load|intros ids1].
  apply preserves_bind; [apply preserves_lift|intros ids2].
  apply preserves_bind; [apply Hstore|intros _; apply IH].
Qed.

Lemma preserves_market_create_stocks (inv : list watch) (warehouse_id : string) :
  preserves f (Market.create_stocks inv l warehouse_id).
Proof.
  unfold Market.create_stocks.
  apply preserves_bind; [by intros w|intros date].
  apply preserves_bind;
    [|intros stocks; apply preserves_bind;
        [apply preserves_load|intros ids; apply preserves_ret]].
  generalize (@nil market_stock) as stocks.
  induction inv as [|row rest IH]; intros stocks;
    cbn [Market.create_stocks_loop]; [apply preserves_ret|].
  apply preserves_bind; [apply preserves_load|intros ids].
  destruct (py_in _ ids); [|apply IH].
  apply preserves_bind; [apply preserves_lift|intros z].
  apply preserves_bind; [apply preserves_load|intros ids1].
  apply preserves_bind; [apply preserves_lift|intros ids2].
  apply preserves_bind; [apply Hstore|intros _; apply IH].
Qed.

End Store.

(** The loops of the catalog fetchers only send requests. *)
Section Http.
Context (Hhttp : ∀ q, preserves f (http q)).

Lemma preserves_seller_offer_ids_loop (fuel : nat)
    (client_id seller_token last : string) (product_list : list string) :
  preserves f
    (Seller.get_offer_ids_loop fuel client_id seller_token last product_list).
Proof.
  revert last product_list. induction fuel as [|fuel IH];
    intros last product_list; cbn [Seller.get_offer_ids_loop];
    [apply preserves_out_of_fuel|].
  apply preserves_bind.
  - unfold Seller.get_product_list. apply preserves_bind; [apply Hhttp|].
    intros []; first [apply preserves_ret|apply preserves_raise].
  - intros page. destruct (_ =? _)%Z; [apply preserves_ret|apply IH].
Qed.

Lemma preserves_market_offer_ids_loop (fuel : nat)
    (campaign_id market_token page : string) (product_list : list string) :
  preserves f
    (Market.get_offer_ids_loop fuel campaign_id market_token page product_list).
Proof.
  revert page product_list. induction fuel as [|fuel IH];
    intros page product_list; cbn [Market.get_offer_ids_loop];
    [apply preserves_out_of_fuel|].
  apply preserves_bind.
  - unfold Market.get_product_list. apply preserves_bind; [apply Hhttp|].
    intros []; first [apply preserves_ret|apply preserves_raise].
  - intros some_prod. destruct (nextPageToken some_prod) as [page'|];
      [|apply preserves_ret].
    destruct (String.eqb page' ""); [apply preserves_ret|apply IH].
Qed.

Lemma preserves_seller_update_stocks (stocks : list ozon_stock)
    (client_id seller_token : string) :
  preserves f (Seller.update_stocks stocks client_id seller_token).
Proof.
  unfold Seller.update_stocks.
  apply preserves_bind; [apply Hhttp|intros _; apply preserves_ret].
Qed.

Lemma preserves_seller_update_price (prices : list ozon_price)
    (client_id seller_token : string) :
  preserves f (Seller.update_price prices client_id seller_token).
Proof.
  unfold Seller.update_price.
  apply preserves_bind; [apply Hhttp|intros _; apply preserves_ret].
Qed.

End Http.
End Preserves.

Lemma http_keeps_console (q : request) : preserves console (http q).
Proof. intros w. unfold http. by destruct (net w (length (exchanges w)) q). Qed.

Lemma http_keeps_heap (q : request) : preserves heap (http q).
Proof. intros w. unfold http. by destruct (net w (length (exchanges w)) q). Qed.

Lemma http_keeps_next_loc (q : request) : preserves next_loc (http q).
Proof. intros w. unfold http. by destruct (net w (length (exchanges w)) q). Qed.

Lemma store_keeps_other (l l' : nat) (ids : list string) :
  l' ≠ l → preserves (λ w, heap w !! l') (store l ids).
Proof. intros Hne w. cbn. by apply lookup_insert_ne. Qed.

(** X13: the stock reconcilers send no request, print nothing and write
    no list but the one behind [offer_ids]; the price reconcilers leave
    the log, the console and every list as they were. *)
Theorem reconcilers_touch_only_offer_ids (inv : list watch) (l : nat)
    (warehouse_id : string) (w : world) :
  let quiet_but_for_the_list (w' : world) :=
    exchanges w' = exchanges w ∧ console w' = console w
    ∧ ∀ l', l' ≠ l → heap w' !! l' = heap w !! l' in
  quiet_but_for_the_list (Seller.create_stocks inv l w).2
  ∧ quiet_but_for_the_list (Market.create_stocks inv l warehouse_id w).2
  ∧ (exchanges (Seller.create_prices inv l w).2 = exchanges w
     ∧ console (Seller.create_prices inv l w).2 = console w
     ∧ heap (Seller.create_prices inv l w).2 = heap w)
  ∧ (exchanges (Market.create_prices inv l w).2 = exchanges w
     ∧ console (Market.create_prices inv l w).2 = console w
     ∧ heap (Market.create_prices inv l w).2 = heap w).
Proof.
  cbn zeta. repeat split.
  - by apply (preserves_seller_create_stocks exchanges).
  - by apply (preserves_seller_create_stocks console).
  - intros l' Hne.
    apply (preserves_seller_create_stocks (λ w, heap w !! l') l).
    intros ids. by apply store_keeps_other.
  - by apply (preserves_market_create_stocks exchanges).
  - by apply (preserves_market_create_stocks console).
  - intros l' Hne.
    apply (preserves_market_create_stocks (λ w, heap w !! l') l).
    intros ids. by apply store_keeps_other.
  - apply (preserves_seller_create_prices exchanges).
  - apply (preserves_seller_create_prices console).
  - apply (preserves_seller_create_prices heap).
  - apply (preserves_market_create_prices exchanges).
  - apply (preserves_market_create_prices console).
  - apply (preserves_market_create_prices heap).
Qed.

Lemma reconcilers_touch_only_offer_ids_witness :
  heap (Seller.create_stocks demo_inventory 0
          (set_heap (<[1 := ["A1"]]> (<[0 := demo_catalog]> ∅)) demo_world)).2
    !! 1
  = Some ["A1"].
Proof.
  destruct (reconcilers_touch_only_offer_ids demo_inventory 0 "w-fbs"
              (set_heap (<[1 := ["A1"]]> (<[0 := demo_catalog]> ∅)) demo_world))
    as ((_ & _ & Hother) & _).
  rewrite (Hother 1) by lia. vm_compute. reflexivity.
Defined.

(** * The catalog fetchers and the object store *)

(** X14: a catalog fetcher makes a new list only when it returns: the
    reference it answers is fresh, the new list sits behind it and every
    other list is as before; when the fetch raises or does not end, the
    store is untouched, so no partial catalog is left behind. *)
Theorem get_offer_ids_allocates_on_return (fuel : nat) (id token : string)
    (w : world) :
  let fresh_list (run : outcome nat * world) :=
    match run with
    | (Ret l, w') =>
        l = next_loc w ∧ next_loc w' = S l ∧ is_Some (heap w' !! l)
        ∧ ∀ l', l' ≠ l → heap w' !! l' = heap w !! l'
    | (_, w') => heap w' = heap w ∧ next_loc w' = next_loc w
    end in
  fresh_list (Seller.get_offer_ids fuel id token w)
  ∧ fresh_list (Market.get_offer_ids fuel id token w).
Proof.
  cbn zeta. split.
  - unfold Seller.get_offer_ids, bind.
    pose proof (preserves_seller_offer_ids_loop heap http_keeps_heap
                  fuel id token "" [] w) as Hheap.
    pose proof (preserves_seller_offer_ids_loop next_loc http_keeps_next_loc
                  fuel id token "" [] w) as Hnext.
    destruct (Seller.get_offer_ids_loop fuel id token "" [] w)
      as [[ids|e|] w1]; cbn [snd] in Hheap, Hnext; [|done|done].
    unfold alloc. cbn [heap next_loc]. rewrite Hheap, Hnext.
    split; [done|]. split; [done|].
    split; [rewrite lookup_insert_eq; by eexists|].
    intros l' Hne. by rewrite lookup_insert_ne.
  - unfold Market.get_offer_ids, bind.
    pose proof (preserves_market_offer_ids_loop heap http_keeps_heap
                  fuel id token "" [] w) as Hheap.
    pose proof (preserves_market_offer_ids_loop next_loc http_keeps_next_loc
                  fuel id token "" [] w) as Hnext.
    destruct (Market.get_offer_ids_loop fuel id token "" [] w)
      as [[ids|e|] w1]; cbn [snd] in Hheap, Hnext; [|done|done].
    unfold alloc. cbn [heap next_loc]. rewrite Hheap, Hnext.
    split; [done|]. split; [done|].
    split; [rewrite lookup_insert_eq; by eexists|].
    intros l' Hne. by rewrite lookup_insert_ne.
Qed.

Lemma get_offer_ids_allocates_on_return_witness :
  let w :=
    {| heap := <[0 := ["A1"]]> ∅; next_loc := 1; net := demo_net;
       exchanges := []; ostatki := demo_inventory; utcnow := "";
       console := [];
     error_text := demo_error_text |} in
  (Seller.get_offer_ids 1 "client" "token" w).1 = Ret 1
  ∧ heap (Seller.get_offer_ids 1 "client" "token" w).2 !! 0 = Some ["A1"].
Proof.
  intros w.
  pose proof (proj1 (get_offer_ids_allocates_on_return 1 "client" "token" w))
    as Hfresh.
  cbn zeta in Hfresh.
  destruct (Seller.get_offer_ids 1 "client" "token" w) as [[l|e|] w'] eqn:Hrun;
    [|by vm_compute in Hrun..].
  destruct Hfresh as (-> & _ & _ & Hother).
  split; [reflexivity|]. cbn [snd]. by rewrite (Hother 0).
Defined.

(** * The orchestrators, further *)

Lemma preserves_console_seller_get_offer_ids (fuel : nat)
    (client_id seller_token : string) :
  preserves console (Seller.get_offer_ids fuel client_id seller_token).
Proof.
  unfold Seller.get_offer_ids. apply preserves_bind; [|by intros ids w].
  apply preserves_seller_offer_ids_loop, http_keeps_console.
Qed.

(** What the handlers of both [main] functions do with an exception. *)
Lemma report_printed (e : exn) (w : world) :
  Seller.report e w
  = (Ret tt,
     printed
       match e with
       | ReadTimeout => "Превышено время ожидания..."
       | ConnectionError => error_text w e +:+ " " +:+ "Ошибка соединения"
       | _ => error_text w e +:+ " " +:+ "ERROR_2"
       end w).
Proof. by destruct e. Qed.

(** X15: once its settings are read, [seller.main] lets no exception out.
    The [try] block itself prints nothing.  When it raises, the run ends
    normally with one more line on the console: the timeout message alone
    for a read timeout, the text of the exception, a blank and the
    message of the handler for a connection error and for any other
    exception (with [ERROR_2]).  When it does not raise, the run ends as
    the block does and nothing is printed. *)
Theorem seller_main_catches_everything (fuel : nat)
    (client_id seller_token : string) (w : world) :
  let try_block :=
    (offer_ids <- Seller.get_offer_ids fuel client_id seller_token ;;
     watch_remnants <- Seller.download_stock ;;
     stocks <- Seller.create_stocks watch_remnants offer_ids ;;
     chunks <- lift (Seller.divide stocks 100) ;;
     for_each chunks
       (λ some_stock, Seller.update_stocks some_stock client_id seller_token) ;;;
     prices <- Seller.create_prices watch_remnants offer_ids ;;
     chunks <- lift (Seller.divide prices 900) ;;
     for_each chunks
       (λ some_price, Seller.update_price some_price client_id seller_token)) in
  console (try_block w).2 = console w
  ∧ Seller.main fuel client_id seller_token w
    = match try_block w with
      | (Raise ReadTimeout, w1) =>
          (Ret tt, printed "Превышено время ожидания..." w1)
      | (Raise ConnectionError, w1) =>
          (Ret tt,
           printed (error_text w1 ConnectionError +:+ " " +:+ "Ошибка соединения")
             w1)
      | (Raise e, w1) =>
          (Ret tt, printed (error_text w1 e +:+ " " +:+ "ERROR_2") w1)
      | (Ret tt, w1) => (Ret tt, w1)
      | (OutOfFuel, w1) => (OutOfFuel, w1)
      end
  ∧ (∀ e w', Seller.main fuel client_id seller_token w ≠ (Raise e, w')).
Proof.
  intros try_block.
  assert (Seller.main fuel client_id seller_token w
          = match try_block w with
            | (Raise ReadTimeout, w1) =>
                (Ret tt, printed "Превышено время ожидания..." w1)
            | (Raise ConnectionError, w1) =>
                (Ret tt,
                 printed
                   (error_text w1 ConnectionError +:+ " " +:+ "Ошибка соединения")
                   w1)
            | (Raise e, w1) =>
                (Ret tt, printed (error_text w1 e +:+ " " +:+ "ERROR_2") w1)
            | (Ret tt, w1) => (Ret tt, w1)
            | (OutOfFuel, w1) => (OutOfFuel, w1)
            end) as Hmain.
  { unfold Seller.main, catch. fold try_block.
    destruct (try_block w) as [[[]|e|] w1]; [reflexivity| |reflexivity].
    rewrite report_printed. by destruct e. }
  split; [|split; [exact Hmain|]].
  - clear Hmain. subst try_block. revert w. change (preserves console
      (offer_ids <- Seller.get_offer_ids fuel client_id seller_token ;;
       watch_remnants <- Seller.download_stock ;;
       stocks <- Seller.create_stocks watch_remnants offer_ids ;;
       chunks <- lift (Seller.divide stocks 100) ;;
       for_each chunks
         (λ some_stock, Seller.update_stocks some_stock client_id seller_token) ;;;
       prices <- Seller.create_prices watch_remnants offer_ids ;;
       chunks <- lift (Seller.divide prices 900) ;;
       for_each chunks
         (λ some_price, Seller.update_price some_price client_id seller_token))).
    apply preserves_bind;
      [apply preserves_console_seller_get_offer_ids|intros offer_ids].
    apply preserves_bind; [by intros w0|intros watch_remnants].
    apply preserves_bind;
      [apply preserves_seller_create_stocks; by intros ids w0|intros stocks].
    apply preserves_bind; [apply preserves_lift|intros chunks].
    apply preserves_bind.
    { apply preserves_for_each. intros chunk.
      apply preserves_seller_update_stocks, http_keeps_console. }
    intros _.
    apply preserves_bind; [apply preserves_seller_create_prices|intros prices].
    apply preserves_bind; [apply preserves_lift|intros chunks'].
    apply preserves_for_each. intros chunk.
    apply preserves_seller_update_price, http_keeps_console.
  - intros e w'. rewrite Hmain.
    destruct (try_block w) as [[[]|e1|] w1]; [discriminate| |discriminate].
    by destruct e1.
Qed.

(** Without network the first request of [seller.main] fails, and the run
    ends with the line of the connection handler. *)
Lemma seller_main_catches_everything_witness :
  let run := Seller.main 1 "client" "token" down_world in
  run.1 = Ret tt
  ∧ exchanges run.2 = [OzonProductList "client" "token" ""]
  ∧ console run.2 = ["Network is unreachable Ошибка соединения"].
Proof.
  cbn zeta.
  rewrite (proj1 (proj2 (seller_main_catches_everything 1 "client" "token"
                           down_world))).
  repeat split.
Defined.

(** * The Yandex.Market catalog fetcher *)

Lemma market_accumulated_S (pages : nat → market_page) (n : nat) :
  market_accumulated pages (S n)
  = market_accumulated pages n ++ offerMappingEntries (pages n).
Proof.
  unfold market_accumulated. rewrite seq_S, map_app, concat_app. cbn.
  by rewrite app_nil_r.
Qed.

Lemma market_serves_next (w : world) (campaign_id market_token : string)
    (pages : nat → market_page) (i : nat) (q : request) :
  market_serves w campaign_id market_token pages i →
  market_serves (sent [q] w) campaign_id market_token pages (S i).
Proof.
  intros Hserves j. cbn [sent net exchanges]. rewrite length_app. cbn [length].
  replace (length (exchanges w) + 1 + j) with (length (exchanges w) + S j) by lia.
  replace (S i + j) with (i + S j) by lia. apply Hserves.
Qed.

(** One turn of the loop under a server that answers with [pages]. *)
Lemma market_offer_ids_loop_turn (fuel : nat) (campaign_id market_token : string)
    (pages : nat → market_page) (i : nat) (w : world) :
  market_serves w campaign_id market_token pages i →
  Market.get_offer_ids_loop (S fuel) campaign_id market_token
    (market_cursor pages i) (market_accumulated pages i) w
  = if decide (is_last_page (pages i))
    then (Ret (market_accumulated pages (S i)),
          sent [market_request campaign_id market_token pages i] w)
    else Market.get_offer_ids_loop fuel campaign_id market_token
           (market_cursor pages (S i)) (market_accumulated pages (S i))
           (sent [market_request campaign_id market_token pages i] w).
Proof.
  intros Hserves. pose proof (Hserves 0) as Hpage.
  rewrite !Nat.add_0_r in Hpage. unfold market_request in Hpage.
  cbn [Market.get_offer_ids_loop].
  unfold bind at 1, Market.get_product_list, bind at 1.
  rewrite http_accepted by (intros e; rewrite Hpage; discriminate).
  rewrite Hpage. cbn beta iota. unfold ret at 1. cbn beta iota.
  rewrite <-market_accumulated_S. unfold market_request.
  destruct (decide (is_last_page (pages i))) as [[Hnone|Hempty]|Hmore].
  - by rewrite Hnone.
  - by rewrite Hempty.
  - cbn [market_cursor].
    destruct (nextPageToken (pages i)) as [page'|] eqn:Htoken;
      [|destruct Hmore; by left].
    destruct (String.eqb_spec page' "") as [->|Hne];
      [destruct Hmore; by right|reflexivity].
Qed.

Lemma market_offer_ids_loop_run (fuel : nat) (campaign_id market_token : string)
    (pages : nat → market_page) (i : nat) (w : world) :
  market_serves w campaign_id market_token pages i →
  (∃ d, d < fuel
        ∧ is_last_page (pages (i + d))
        ∧ (∀ j, j < d → ¬ is_last_page (pages (i + j)))
        ∧ Market.get_offer_ids_loop fuel campaign_id market_token
            (market_cursor pages i) (market_accumulated pages i) w
          = (Ret (market_accumulated pages (S (i + d))),
             sent (map (market_request campaign_id market_token pages)
                     (seq i (S d))) w))
  ∨ ((∀ j, j < fuel → ¬ is_last_page (pages (i + j)))
     ∧ ∃ w', Market.get_offer_ids_loop fuel campaign_id market_token
               (market_cursor pages i) (market_accumulated pages i) w
             = (OutOfFuel, w')).
Proof.
  revert i w. induction fuel as [|fuel IH]; intros i w Hserves.
  - right. split; [intros j Hj; lia|]. by exists w.
  - rewrite (market_offer_ids_loop_turn fuel _ _ pages i w Hserves).
    destruct (decide (is_last_page (pages i))) as [Hlast|Hmore].
    + left. exists 0. rewrite Nat.add_0_r.
      repeat split; [lia|exact Hlast|intros j Hj; lia].
    + destruct (IH (S i) _
                  (market_serves_next w _ _ pages i
                     (market_request campaign_id market_token pages i) Hserves))
        as [(d & Hd & Hlast & Hfirst & Hrun)|(Hnever & w' & Hrun)].
      * left. exists (S d). replace (i + S d) with (S i + d) by lia.
        repeat split; [lia|exact Hlast| |].
        -- intros [|j] Hj; [by rewrite Nat.add_0_r|].
           replace (i + S j) with (S i + j) by lia. apply Hfirst. lia.
        -- rewrite Hrun, sent_sent. reflexivity.
      * right. split; [|by exists w'].
        intros [|j] Hj; [by rewrite Nat.add_0_r|].
        replace (i + S j) with (S i + j) by lia. apply Hnever. lia.
Qed.

(** X16: under a server that answers every listing request with a page,
    the Yandex.Market [get_offer_ids] sends the empty token first and then
    each token it was handed, stops at the first page whose token is
    absent or empty, and answers a new list with the offer ids of the pages
    up to that one, in order; when every page names a next page the loop
    does not end. *)
Theorem market_get_offer_ids_follows_tokens (campaign_id market_token : string)
    (pages : nat → market_page) (w : world) :
  market_serves w campaign_id market_token pages 0 →
  (∀ n, is_last_page (pages n) → (∀ i, i < n → ¬ is_last_page (pages i)) →
     ∀ fuel, n < fuel →
       ∃ w', Market.get_offer_ids fuel campaign_id market_token w
             = (Ret (next_loc w), w')
             ∧ heap w' !! next_loc w = Some (market_accumulated pages (S n))
             ∧ exchanges w'
               = exchanges w
                 ++ map (market_request campaign_id market_token pages)
                      (seq 0 (S n)))
  ∧ ((∀ n, ¬ is_last_page (pages n)) →
       ∀ fuel, ∃ w', Market.get_offer_ids fuel campaign_id market_token w
                     = (OutOfFuel, w')).
Proof.
  intros Hserves. split.
  - intros n Hlast Hfirst fuel Hfuel.
    unfold Market.get_offer_ids, bind.
    change "" with (market_cursor pages 0).
    change (@nil string) with (market_accumulated pages 0).
    destruct (market_offer_ids_loop_run fuel campaign_id market_token pages 0 w
                Hserves) as [(d & Hd & Hlastd & Hfirstd & ->)|(Hnever & _)].
    + cbn [Nat.add] in *.
      assert (d = n) as ->.
      { destruct (Nat.lt_trichotomy d n) as [Hlt|[Heq|Hgt]]; [|done|].
        - by destruct (Hfirst d Hlt).
        - by destruct (Hfirstd n Hgt). }
      eexists. split; [reflexivity|].
      cbn [heap sent exchanges]. split; [apply lookup_insert_eq|reflexivity].
    + by destruct (Hnever n Hfuel).
  - intros Hnever fuel. unfold Market.get_offer_ids, bind.
    change "" with (market_cursor pages 0).
    change (@nil string) with (market_accumulated pages 0).
    destruct (market_offer_ids_loop_run fuel campaign_id market_token pages 0 w
                Hserves) as [(d & _ & Hlastd & _)|(_ & w' & ->)].
    + by destruct (Hnever d).
    + by exists w'.
Qed.

Lemma market_get_offer_ids_follows_tokens_witness :
  (∃ w', Market.get_offer_ids 2 "fbs" "token" two_pages_world = (Ret 0, w')
         ∧ heap w' !! 0 = Some ["A1"; "B2"; "C3"]
         ∧ exchanges w'
           = [MarketOfferMapping "fbs" "token" "";
              MarketOfferMapping "fbs" "token" "p2"])
  ∧ (∀ fuel, ∃ w', Market.get_offer_ids fuel "fbs" "token" endless_world
                   = (OutOfFuel, w')).
Proof.
  split.
  - assert (market_serves two_pages_world "fbs" "token" two_pages 0) as Hserves
      by (intros j; reflexivity).
    destruct (market_get_offer_ids_follows_tokens "fbs" "token" two_pages
                two_pages_world Hserves) as [Hstops _].
    apply (Hstops 1); [by right| |lia].
    intros i Hi. assert (i = 0) as -> by lia. intros [[=]|[=]].
  - assert (market_serves endless_world "fbs" "token" (λ _, endless_page) 0)
      as Hserves by (intros j; reflexivity).
    destruct (market_get_offer_ids_follows_tokens "fbs" "token"
                (λ _, endless_page) endless_world Hserves) as [_ Hnever].
    apply Hnever. intros n [[=]|[=]].
Defined.

(** * One [try] block for both Yandex.Market channels *)

(** X17: when anything raises while [market.main] fetches the FBS
    catalog, reconciles the FBS stocks or uploads them, the run ends there,
    normally, with one more line on the console: the timeout message alone
    for a read timeout, the text of the exception, a blank and the
    message of the handler otherwise.  Nothing else changes: the DBS
    channel is not contacted at all. *)
Theorem market_main_stops_at_fbs_failure (fuel : nat) (env : Market.settings)
    (w w2 : world) (e : exn) :
  let fbs :=
    (offer_ids <- Market.get_offer_ids fuel (Market.campaign_fbs_id env)
                    (Market.market_token env) ;;
     stocks <- Market.create_stocks (ostatki w) offer_ids
                 (Market.warehouse_fbs_id env) ;;
     chunks <- lift (Seller.divide stocks 2000) ;;
     for_each chunks
       (λ some_stock,
          Market.update_stocks some_stock (Market.campaign_fbs_id env)
            (Market.market_token env))) in
  fbs w = (Raise e, w2) →
  Market.main fuel env w
  = (Ret tt,
     printed
       match e with
       | ReadTimeout => "Превышено время ожидания..."
       | ConnectionError => error_text w2 e +:+ " " +:+ "Ошибка соединения"
       | _ => error_text w2 e +:+ " " +:+ "ERROR_2"
       end w2).
Proof.
  intros fbs Hfbs. subst fbs. rewrite <-report_printed.
  unfold Market.main, Seller.download_stock, catch.
  unfold bind at 1. cbn beta iota.
  unfold bind in Hfbs |- *.
  destruct (Market.get_offer_ids fuel _ _ w) as [[l|e1|] w1];
    [|by injection Hfbs as <- <-|discriminate].
  destruct (Market.create_stocks (ostatki w) l _ w1) as [[stocks|e1|] w1'];
    [|by injection Hfbs as <- <-|discriminate].
  destruct (lift (Seller.divide stocks 2000) w1') as [[chunks|e1|] w1''];
    [|by injection Hfbs as <- <-|discriminate].
  destruct (for_each chunks _ w1'') as [[[]|e1|] w3];
    [discriminate|by injection Hfbs as <- <-|discriminate].
Qed.

Lemma market_main_stops_at_fbs_failure_witness :
  let run := Market.main 1 demo_settings down_world in
  run.1 = Ret tt
  ∧ exchanges run.2 = [MarketOfferMapping "fbs" "token" ""]
  ∧ console run.2 = ["Network is unreachable Ошибка соединения"].
Proof.
  cbn zeta.
  rewrite (market_main_stops_at_fbs_failure 1 demo_settings down_world
             (sent [MarketOfferMapping "fbs" "token" ""] down_world)
             ConnectionError eq_refl).
  repeat split.
Defined.

(** * No price update from the orchestrators, on the small catalog *)

Lemma market_main_sends_no_price_update_witness :
  Forall (λ q, is_price_update q = false)
    (exchanges (Market.main 2 demo_settings demo_world).2).
Proof.
  apply (market_main_sends_no_price_update 2 demo_settings demo_world).
  constructor.
Defined.

Lemma seller_main_sends_no_price_update_witness :
  Forall (λ q, is_price_update q = false)
    (exchanges (Seller.main 2 "client" "token" demo_world).2).
Proof.
  apply (seller_main_sends_no_price_update 2 "client" "token" demo_world);
    [|constructor].
  intros l w1 Hrun. vm_compute in Hrun. injection Hrun as <- <-.
  exists demo_catalog. split; [reflexivity|].
  apply (bool_decide_unpack _). vm_compute. exact I.
Defined.

(** * The other uploaders *)

(** X20: when the catalog is fetched, every matched price is a text cell
    and the server accepts every price import, awaiting the Ozon
    [upload_prices] sends the prices in batches that rebuild the payload in
    order, none empty and none above 1000 entries, and answers the
    prices. *)
Theorem seller_upload_prices_sends_batches (fuel : nat) (inv : list watch)
    (client_id seller_token : string) (w w1 w2 : world) (l : nat)
    (prices : list ozon_price) :
  Seller.get_offer_ids fuel client_id seller_token w = (Ret l, w1) →
  Seller.create_prices inv l w1 = (Ret prices, w2) →
  (∀ k payload e,
     net w2 k (OzonImportPrices client_id seller_token payload) ≠ Failed e) →
  ∃ chunks,
    concat chunks = prices
    ∧ Forall (λ c, 0 < length c ≤ 1000) chunks
    ∧ (c <- Seller.upload_prices fuel inv client_id seller_token ;; await c) w
      = (Ret prices,
         sent (map (OzonImportPrices client_id seller_token) chunks) w2).
Proof.
  intros Hget Hprices Hok.
  destruct (divide_batches prices 1000 eq_refl) as (chunks & Hdiv & Hconcat & Hsize).
  exists chunks. split; [exact Hconcat|]. split; [exact Hsize|].
  unfold Seller.upload_prices, await, bind at 1, ret at 1. cbn beta iota.
  unfold Seller.upload_prices_body, bind at 1. rewrite Hget. cbn beta iota.
  unfold bind at 1. rewrite Hprices. cbn beta iota.
  rewrite Hdiv. unfold bind at 1, lift, ret at 1. cbn beta iota.
  unfold bind at 1, Seller.update_price.
  by rewrite (upload_loop_accepted (OzonImportPrices client_id seller_token))
    by (intros i c e _; apply Hok).
Qed.

Lemma seller_upload_prices_sends_batches_witness :
  ((c <- Seller.upload_prices 1 demo_inventory "client" "token" ;; await c)
     demo_world).1
  = Ret [{| auto_action_enabled := "UNKNOWN"; currency_code := "RUB";
            price_offer_id := "A1"; old_price := "0"; price := "100" |};
         {| auto_action_enabled := "UNKNOWN"; currency_code := "RUB";
            price_offer_id := "B2"; old_price := "0"; price := "200" |}].
Proof.
  destruct (seller_upload_prices_sends_batches 1 demo_inventory "client" "token"
              demo_world
              (Seller.get_offer_ids 1 "client" "token" demo_world).2
              (Seller.get_offer_ids 1 "client" "token" demo_world).2
              0
              [{| auto_action_enabled := "UNKNOWN"; currency_code := "RUB";
                  price_offer_id := "A1"; old_price := "0"; price := "100" |};
               {| auto_action_enabled := "UNKNOWN"; currency_code := "RUB";
                  price_offer_id := "B2"; old_price := "0"; price := "200" |}])
    as (chunks & _ & _ & Hrun).
  - vm_compute. reflexivity.
  - vm_compute. reflexivity.
  - intros k payload e. vm_compute. discriminate.
  - rewrite Hrun. reflexivity.
Defined.

(** X21: when the catalog is fetched, the stocks are reconciled and the
    server accepts every stock update, awaiting the Yandex.Market
    [upload_stocks] sends the stocks in batches that rebuild the payload in
    order, none empty and none above 2000 entries, and answers the entries
    whose first item has a non-zero count beside all the entries. *)
Theorem market_upload_stocks_sends_batches (fuel : nat) (inv : list watch)
    (campaign_id market_token warehouse_id : string) (w w1 w2 : world) (l : nat)
    (stocks : list market_stock) :
  Market.get_offer_ids fuel campaign_id market_token w = (Ret l, w1) →
  Market.create_stocks inv l warehouse_id w1 = (Ret stocks, w2) →
  (∀ k payload e,
     net w2 k (MarketPutStocks campaign_id market_token payload) ≠ Failed e) →
  ∃ chunks,
    concat chunks = stocks
    ∧ Forall (λ c, 0 < length c ≤ 2000) chunks
    ∧ (c <- Market.upload_stocks fuel inv campaign_id market_token warehouse_id ;;
       await c) w
      = (Ret (List.filter
                (λ s, match stock_items s with
                      | it :: _ => negb (count it =? 0)%Z
                      | [] => false
                      end) stocks, stocks),
         sent (map (MarketPutStocks campaign_id market_token) chunks) w2).
Proof.
  intros Hget Hstocks Hok.
  destruct (divide_batches stocks 2000 eq_refl) as (chunks & Hdiv & Hconcat & Hsize).
  exists chunks. split; [exact Hconcat|]. split; [exact Hsize|].
  unfold Market.upload_stocks, await, bind at 1, ret at 1. cbn beta iota.
  unfold Market.upload_stocks_body, bind at 1. rewrite Hget. cbn beta iota.
  unfold bind at 1. rewrite Hstocks. cbn beta iota.
  rewrite Hdiv. unfold bind at 1, lift, ret at 1. cbn beta iota.
  unfold bind at 1, Market.update_stocks.
  by rewrite (upload_loop_accepted (MarketPutStocks campaign_id market_token))
    by (intros i c e _; apply Hok).
Qed.

Lemma market_upload_stocks_sends_batches_witness :
  ((c <- Market.upload_stocks 1 demo_inventory "fbs" "token" "w-fbs" ;; await c)
     demo_world).1
  = Ret ([Market.stock_entry "A1" "w-fbs" 100 "2024-03-12T10:00:00Z"],
         [Market.stock_entry "A1" "w-fbs" 100 "2024-03-12T10:00:00Z";
          Market.stock_entry "B2" "w-fbs" 0 "2024-03-12T10:00:00Z";
          Market.stock_entry "C3" "w-fbs" 0 "2024-03-12T10:00:00Z"]).
Proof.
  destruct (market_upload_stocks_sends_batches 1 demo_inventory "fbs" "token"
              "w-fbs" demo_world
              (Market.get_offer_ids 1 "fbs" "token" demo_world).2
              (Market.create_stocks demo_inventory 0 "w-fbs"
                 (Market.get_offer_ids 1 "fbs" "token" demo_world).2).2
              0
              [Market.stock_entry "A1" "w-fbs" 100 "2024-03-12T10:00:00Z";
               Market.stock_entry "B2" "w-fbs" 0 "2024-03-12T10:00:00Z";
               Market.stock_entry "C3" "w-fbs" 0 "2024-03-12T10:00:00Z"])
    as (chunks & _ & _ & Hrun).
  - vm_compute. reflexivity.
  - vm_compute. reflexivity.
  - intros k payload e. vm_compute. discriminate.
  - rewrite Hrun. reflexivity.
Defined.

(** * The runs of the orchestrators that meet no exception *)

Lemma http_keeps_ostatki (q : request) : preserves ostatki (http q).
Proof. intros w. unfold http. by destruct (net w (length (exchanges w)) q). Qed.

(** X22: when [seller.main] fetches a catalog without duplicates, the
    stocks reconcile and the server accepts every stock import, the run
    ends normally having sent, after the listing, the stock batches and
    nothing else: they rebuild the stock payload in order, none is empty
    and none is above 100 entries. *)
Theorem seller_main_uploads_stocks_only (fuel : nat)
    (client_id seller_token : string) (w w1 w2 : world) (l : nat)
    (ids : list string) (stocks : list ozon_stock) :
  Seller.get_offer_ids fuel client_id seller_token w = (Ret l, w1) →
  heap w1 !! l = Some ids →
  NoDup ids →
  Seller.create_stocks (ostatki w) l w1 = (Ret stocks, w2) →
  (∀ k payload e,
     net w2 k (OzonImportStocks client_id seller_token payload) ≠ Failed e) →
  ∃ chunks,
    concat chunks = stocks
    ∧ Forall (λ c, 0 < length c ≤ 100) chunks
    ∧ Seller.main fuel client_id seller_token w
      = (Ret tt, sent (map (OzonImportStocks client_id seller_token) chunks) w2).
Proof.
  intros Hget Hl Hnd Hstocks Hok.
  destruct (divide_batches stocks 100 eq_refl) as (chunks & Hdiv & Hconcat & Hsize).
  exists chunks. split; [exact Hconcat|]. split; [exact Hsize|].
  assert (ostatki w1 = ostatki w) as Hsheet.
  { assert (preserves ostatki
              (Seller.get_offer_ids fuel client_id seller_token)) as Hkeep.
    { unfold Seller.get_offer_ids. apply preserves_bind; [|by intros ids0 w0].
      apply preserves_seller_offer_ids_loop, http_keeps_ostatki. }
    specialize (Hkeep w). by rewrite Hget in Hkeep. }
  destruct (seller_prices_after_stocks _ l w1 w2 ids stocks Hl Hnd Hstocks)
    as [Hleft _].
  unfold Seller.main, catch, bind at 1. rewrite Hget. cbn beta iota.
  unfold bind at 1, Seller.download_stock. cbn beta iota. rewrite Hsheet.
  unfold bind at 1. rewrite Hstocks. cbn beta iota.
  rewrite Hdiv. unfold bind at 1, lift, ret at 1. cbn beta iota.
  unfold bind at 1, Seller.update_stocks.
  rewrite (upload_loop_accepted (OzonImportStocks client_id seller_token))
    by (intros i c e _; apply Hok).
  cbn beta iota. unfold bind at 1.
  rewrite (seller_prices_on_leftover (ostatki w) l _ ids) by exact Hleft.
  reflexivity.
Qed.

Lemma seller_main_uploads_stocks_only_witness :
  exchanges (Seller.main 1 "client" "token" demo_world).2
  = [OzonProductList "client" "token" "";
     OzonImportStocks "client" "token"
       [{| offer_id := "A1"; stock := 100 |};
        {| offer_id := "B2"; stock := 0 |};
        {| offer_id := "C3"; stock := 0 |}]]
  ∧ ∃ chunks,
      Seller.main 1 "client" "token" demo_world
      = (Ret tt,
         sent (map (OzonImportStocks "client" "token") chunks)
           (Seller.create_stocks demo_inventory 0
              (Seller.get_offer_ids 1 "client" "token" demo_world).2).2).
Proof.
  split; [vm_compute; reflexivity|].
  destruct (seller_main_uploads_stocks_only 1 "client" "token" demo_world
              (Seller.get_offer_ids 1 "client" "token" demo_world).2
              (Seller.create_stocks demo_inventory 0
                 (Seller.get_offer_ids 1 "client" "token" demo_world).2).2
              0 demo_catalog
              [{| offer_id := "A1"; stock := 100 |};
               {| offer_id := "B2"; stock := 0 |};
               {| offer_id := "C3"; stock := 0 |}])
    as (chunks & _ & _ & Hrun).
  - vm_compute. reflexivity.
  - vm_compute. reflexivity.
  - apply (bool_decide_unpack _). vm_compute. exact I.
  - vm_compute. reflexivity.
  - intros k payload e. vm_compute. discriminate.
  - by exists chunks.
Defined.

(** X23: when both catalogs are fetched, both stock reconciliations
    succeed and the server accepts every stock update, [market.main] ends
    normally having sent, in this order, the FBS listing, the FBS stock
    batches, the DBS listing and the DBS stock batches, and nothing
    else: the DBS catalog is fetched in the world that the FBS upload has
    left, and the run ends in the world that the DBS upload leaves. *)
Theorem market_main_uploads_stocks_of_both_channels (fuel : nat)
    (env : Market.settings) (w w1 w2 w4 w5 : world) (l1 l2 : nat)
    (stocks1 stocks2 : list market_stock) (chunks1 : list (list market_stock)) :
  let token := Market.market_token env in
  let fbs := Market.campaign_fbs_id env in
  let dbs := Market.campaign_dbs_id env in
  Market.get_offer_ids fuel fbs token w = (Ret l1, w1) →
  Market.create_stocks (ostatki w) l1 (Market.warehouse_fbs_id env) w1
  = (Ret stocks1, w2) →
  Seller.divide stocks1 2000 = Ok chunks1 →
  (∀ k payload e, net w2 k (MarketPutStocks fbs token payload) ≠ Failed e) →
  Market.get_offer_ids fuel dbs token
    (sent (map (MarketPutStocks fbs token) chunks1) w2) = (Ret l2, w4) →
  Market.create_stocks (ostatki w) l2 (Market.warehouse_dbs_id env) w4
  = (Ret stocks2, w5) →
  (∀ k payload e, net w5 k (MarketPutStocks dbs token payload) ≠ Failed e) →
  ∃ chunks2,
    concat chunks2 = stocks2
    ∧ Forall (λ c, 0 < length c ≤ 2000) chunks2
    ∧ Market.main fuel env w
      = (Ret tt, sent (map (MarketPutStocks dbs token) chunks2) w5).
Proof.
  intros token fbs dbs Hget1 Hstocks1 Hdiv1 Hok1 Hget2 Hstocks2 Hok2.
  destruct (divide_batches stocks2 2000 eq_refl)
    as (chunks2 & Hdiv2 & Hconcat & Hsize).
  exists chunks2. split; [exact Hconcat|]. split; [exact Hsize|].
  unfold Market.main, Seller.download_stock, catch.
  unfold bind at 1. cbn beta iota.
  unfold bind at 1. fold token fbs dbs. rewrite Hget1. cbn beta iota.
  unfold bind at 1. rewrite Hstocks1. cbn beta iota.
  rewrite Hdiv1. unfold bind at 1, lift, ret at 1. cbn beta iota.
  unfold bind at 1, Market.update_stocks at 1.
  rewrite (upload_loop_accepted (MarketPutStocks fbs token))
    by (intros i c e _; apply Hok1).
  cbn beta iota.
  unfold bind at 1, Market.upload_prices at 1, ret at 1. cbn beta iota.
  unfold bind at 1. rewrite Hget2. cbn beta iota.
  unfold bind at 1. rewrite Hstocks2. cbn beta iota.
  rewrite Hdiv2. unfold bind at 1, lift, ret at 1. cbn beta iota.
  unfold bind at 1, Market.update_stocks at 1.
  rewrite (upload_loop_accepted (MarketPutStocks dbs token))
    by (intros i c e _; apply Hok2).
  reflexivity.
Qed.

Lemma market_main_uploads_stocks_of_both_channels_witness :
  ∃ chunks2,
    Market.main 1 demo_settings demo_world
    = (Ret tt,
       sent (map (MarketPutStocks "dbs" "token") chunks2)
         (Market.create_stocks demo_inventory 1 "w-dbs"
            (Market.get_offer_ids 1 "dbs" "token"
               (sent
                  [MarketPutStocks "fbs" "token"
                     (map (to_market "w-fbs" "2024-03-12T10:00:00Z")
                        [{| offer_id := "A1"; stock := 100 |};
                         {| offer_id := "B2"; stock := 0 |};
                         {| offer_id := "C3"; stock := 0 |}])]
                  (Market.create_stocks demo_inventory 0 "w-fbs"
                     (Market.get_offer_ids 1 "fbs" "token" demo_world).2).2)).2).2).
Proof.
  set (entries := [{| offer_id := "A1"; stock := 100%Z |};
                   {| offer_id := "B2"; stock := 0%Z |};
                   {| offer_id := "C3"; stock := 0%Z |}]).
  set (s1 := map (to_market "w-fbs" "2024-03-12T10:00:00Z") entries).
  set (s2 := map (to_market "w-dbs" "2024-03-12T10:00:00Z") entries).
  set (w1 := (Market.get_offer_ids 1 "fbs" "token" demo_world).2).
  set (w2 := (Market.create_stocks demo_inventory 0 "w-fbs" w1).2).
  set (w4 := (Market.get_offer_ids 1 "dbs" "token"
                (sent [MarketPutStocks "fbs" "token" s1] w2)).2).
  set (w5 := (Market.create_stocks demo_inventory 1 "w-dbs" w4).2).
  destruct (market_main_uploads_stocks_of_both_channels 1 demo_settings
              demo_world w1 w2 w4 w5 0 1 s1 s2 [s1])
    as (chunks2 & _ & _ & Hrun).
  - vm_compute. reflexivity.
  - vm_compute. reflexivity.
  - vm_compute. reflexivity.
  - intros k payload e. vm_compute. discriminate.
  - vm_compute. reflexivity.
  - vm_compute. reflexivity.
  - intros k payload e. vm_compute. discriminate.
  - by exists chunks2.
Defined.
